(** * 3D Tiles processing: the b3dm container codec, the optimisation
      planner, the batch scheduler and the tileset rewriter

    A shallow embedding of the JavaScript sources

      - [compress/src/compress.js]: the container read and re-assembled
        (module [Compress]) and the prompt that reads the file name and
        the options (module [Prompt])
      - [B3DM_Extract/src/app-02.js]: the payload extraction (module
        [Extract]), the command line (module [CommandLine]) and the
        tileset rewriter (module [Tileset])
      - the worker script forked by the coordinator: statistics of a
        document and choice of transforms (module [Worker]), and the
        script as a whole with what it sends, writes and deletes
        (module [WorkerRun])
      - [compress/src/compress_with_stats-main.js]: the coordinator
        (modules [Scheduler] and [SchedulerRuns]) and the same tileset
        rewriter

    The definitions come first (up to [Samples]); the facts about them
    follow, one module per component.

    Node's [Buffer] is a [list byte]; the methods the sources call on it
    ([readInt32LE], [writeInt32LE], [subarray], [Buffer.alloc],
    [Buffer.concat]) are written out with the range checks Node performs.
    JavaScript numbers that the sources compute with are integers far
    below 2^53, so they are [Z] without wrap-around. *)

From Stdlib Require Import ZArith List String Ascii Bool Lia.
From Stdlib Require Import Strings.Byte.
Import ListNotations.

Open Scope Z_scope.

(** ** Exceptions *)

Inductive error : Type :=
| RangeError
| TypeError.

Inductive result (A : Type) : Type :=
| Ok (a : A)
| Throw (e : error).

Arguments Ok {A} a.
Arguments Throw {A} e.

Definition bind {A B : Type} (r : result A) (k : A -> result B) : result B :=
  match r with
  | Ok a => k a
  | Throw e => Throw e
  end.

Notation "'let*' x ':=' r 'in' k" := (bind r (fun x => k))
  (at level 10, x name, r at level 100, k at level 200).

(** ** Node buffers *)

Module Buffer.

Definition t : Type := list byte.

Definition byte_val (b : byte) : Z := Z.of_N (Byte.to_N b).

Definition byte_of_Z (z : Z) : byte :=
  match Byte.of_N (Z.to_N (z mod 256)) with
  | Some b => b
  | None => x00
  end.

Definition byteLength (buf : t) : Z := Z.of_nat (List.length buf).

(** Little-endian unsigned value of four bytes. *)
Definition le32 (b0 b1 b2 b3 : byte) : Z :=
  byte_val b0 + byte_val b1 * 2 ^ 8 + byte_val b2 * 2 ^ 16 + byte_val b3 * 2 ^ 24.

(** Two's complement reading of an unsigned 32-bit value. *)
Definition toInt32 (u : Z) : Z :=
  if u <? 2 ^ 31 then u else u - 2 ^ 32.

(** [buf.readUInt32LE(offset)] / [dataView.getUint32(offset, true)]:
    a RangeError when the four bytes are not all inside the buffer. *)
Definition readUInt32LE (buf : t) (offset : nat) : result Z :=
  match skipn offset buf with
  | b0 :: b1 :: b2 :: b3 :: _ => Ok (le32 b0 b1 b2 b3)
  | _ => Throw RangeError
  end.

(** [buf.readInt32LE(offset)]. *)
Definition readInt32LE (buf : t) (offset : nat) : result Z :=
  let* u := readUInt32LE buf offset in Ok (toInt32 u).

(** The values [writeInt32LE] accepts. *)
Definition in_int32 (v : Z) : Prop := - 2 ^ 31 <= v <= 2 ^ 31 - 1.

(** The four bytes [writeInt32LE] stores for [value]. *)
Definition int32_bytes (value : Z) : list byte :=
  [ byte_of_Z value;
    byte_of_Z (Z.shiftr value 8);
    byte_of_Z (Z.shiftr value 16);
    byte_of_Z (Z.shiftr value 24) ].

(** [buf.writeInt32LE(value, offset)]: a RangeError when [value] is not
    a signed 32-bit integer or the four bytes do not fit. *)
Definition writeInt32LE (buf : t) (value : Z) (offset : nat) : result t :=
  if (value <? - 2 ^ 31) || (2 ^ 31 - 1 <? value) then Throw RangeError
  else if (List.length buf <? offset + 4)%nat then Throw RangeError
  else Ok (firstn offset buf ++ int32_bytes value ++ skipn (offset + 4) buf).

(** [Buffer.alloc(size)]: zero filled. *)
Definition alloc (size : nat) : t := repeat x00 size.

(** The index normalisation of [subarray]: a negative index counts
    from the end, and everything is clamped to [0, length]. *)
Definition adjustOffset (offset length : Z) : Z :=
  if offset =? 0 then 0
  else if offset <? 0 then
    (if 0 <? offset + length then offset + length else 0)
  else if offset <? length then offset
  else length.

(** [buf.subarray(start, end)]. *)
Definition subarray (buf : t) (start end_ : Z) : t :=
  let srcLength := byteLength buf in
  let start' := adjustOffset start srcLength in
  let end' := adjustOffset end_ srcLength in
  let newLength := if start' <? end' then end' - start' else 0 in
  firstn (Z.to_nat newLength) (skipn (Z.to_nat start') buf).

(** [buf.subarray(start)]: the end defaults to the buffer's length. *)
Definition subarray_from (buf : t) (start : Z) : t :=
  let srcLength := byteLength buf in
  let start' := adjustOffset start srcLength in
  let newLength := if start' <? srcLength then srcLength - start' else 0 in
  firstn (Z.to_nat newLength) (skipn (Z.to_nat start') buf).

(** [Buffer.concat(list, totalLength)]: a RangeError for a negative
    length; otherwise a buffer of exactly [totalLength] bytes, the
    concatenation cut off there or padded with zeros. *)
Definition concat (list : list t) (totalLength : Z) : result t :=
  match list with
  | [] => Ok []
  | _ =>
    if totalLength <? 0 then Throw RangeError
    else
      let data := List.concat list in
      let n := Z.to_nat totalLength in
      Ok (firstn n data ++ repeat x00 (n - List.length data))
  end.

End Buffer.

(** ** The b3dm container, as [compress.js] reads and rewrites it *)

Module Compress.

Import Buffer.

(** What the b3dm branch of [compress] computes from the file before the
    scene library is called (lines 62 to 80). *)
Record Container : Type := {
  magic : Z;
  version : Z;
  byteLength : Z;
  featureTableJSONByteLength : Z;
  featureTableBinaryByteLength : Z;
  batchTableJSONByteLength : Z;
  batchTableBinaryByteLength : Z;
  featureTableStart : Z;
  featureTableLength : Z;
  featureTable : Buffer.t;
  batchTableStart : Z;
  batchTableLength : Z;
  batchTable : Buffer.t;
  glbStart : Z;
  glbBytes : Buffer.t
}.

Definition decode (arrayBuffer : Buffer.t) : result Container :=
  let* magic := readInt32LE arrayBuffer 0 in
  let* version := readInt32LE arrayBuffer 4 in
  let* byteLength := readInt32LE arrayBuffer 8 in
  let* featureTableJSONByteLength := readInt32LE arrayBuffer 12 in
  let* featureTableBinaryByteLength := readInt32LE arrayBuffer 16 in
  let* batchTableJSONByteLength := readInt32LE arrayBuffer 20 in
  let* batchTableBinaryByteLength := readInt32LE arrayBuffer 24 in
  let featureTableStart := 28 in
  let featureTableLength :=
    featureTableJSONByteLength + featureTableBinaryByteLength in
  let featureTable :=
    subarray arrayBuffer featureTableStart
             (featureTableStart + featureTableLength) in
  let batchTableStart :=
    featureTableStart + featureTableJSONByteLength
    + featureTableBinaryByteLength in
  let batchTableLength :=
    batchTableJSONByteLength + batchTableBinaryByteLength in
  let batchTable :=
    subarray arrayBuffer batchTableStart
             (batchTableStart + batchTableLength) in
  let glbStart := batchTableStart + batchTableLength in
  let glbBytes := subarray arrayBuffer glbStart byteLength in
  Ok {| magic := magic;
        version := version;
        byteLength := byteLength;
        featureTableJSONByteLength := featureTableJSONByteLength;
        featureTableBinaryByteLength := featureTableBinaryByteLength;
        batchTableJSONByteLength := batchTableJSONByteLength;
        batchTableBinaryByteLength := batchTableBinaryByteLength;
        featureTableStart := featureTableStart;
        featureTableLength := featureTableLength;
        featureTable := featureTable;
        batchTableStart := batchTableStart;
        batchTableLength := batchTableLength;
        batchTable := batchTable;
        glbStart := glbStart;
        glbBytes := glbBytes |}.

(** The header fields that the re-assembly copies; the total length is
    not among them, it is computed afresh. *)
Record Header : Type := {
  h_magic : Z;
  h_version : Z;
  h_featureTableJSONByteLength : Z;
  h_featureTableBinaryByteLength : Z;
  h_batchTableJSONByteLength : Z;
  h_batchTableBinaryByteLength : Z
}.

Definition header_of (c : Container) : Header :=
  {| h_magic := magic c;
     h_version := version c;
     h_featureTableJSONByteLength := featureTableJSONByteLength c;
     h_featureTableBinaryByteLength := featureTableBinaryByteLength c;
     h_batchTableJSONByteLength := batchTableJSONByteLength c;
     h_batchTableBinaryByteLength := batchTableBinaryByteLength c |}.

(** [totalLength] of line 86: the two table lengths are the sums of the
    header's declared lengths, the payload length is measured. *)
Definition totalLength (h : Header) (glb : Buffer.t) : Z :=
  28 + (h_featureTableJSONByteLength h + h_featureTableBinaryByteLength h)
     + (h_batchTableJSONByteLength h + h_batchTableBinaryByteLength h)
     + Buffer.byteLength glb.

(** Lines 87 to 95: the 28-byte header. *)
Definition write_header (h : Header) (glb : Buffer.t) : result Buffer.t :=
  let header := alloc 28 in
  let* header := writeInt32LE header (h_magic h) 0 in
  let* header := writeInt32LE header (h_version h) 4 in
  let* header := writeInt32LE header (totalLength h glb) 8 in
  let* header := writeInt32LE header (h_featureTableJSONByteLength h) 12 in
  let* header := writeInt32LE header (h_featureTableBinaryByteLength h) 16 in
  let* header := writeInt32LE header (h_batchTableJSONByteLength h) 20 in
  let* header := writeInt32LE header (h_batchTableBinaryByteLength h) 24 in
  Ok header.

(** Lines 86 to 97: header, then [Buffer.concat] with [totalLength]. *)
Definition encode (h : Header) (featureTable batchTable glb : Buffer.t)
  : result Buffer.t :=
  let* header := write_header h glb in
  concat [header; featureTable; batchTable; glb] (totalLength h glb).

(** Decoding and re-assembling with the payload left as it was read. *)
Definition reencode (arrayBuffer : Buffer.t) : result Buffer.t :=
  let* c := decode arrayBuffer in
  encode (header_of c) (featureTable c) (batchTable c) (glbBytes c).

End Compress.

(** ** The payload extraction of [B3DM_Extract/src/app-02.js] *)

Module Extract.

Import Buffer.

(** The values computed in the [readFile] callback (lines 53 to 69);
    the magic number is not read (the check is commented out). *)
Record Payload : Type := {
  version : Z;
  byteLength : Z;
  featureTableJSONByteLength : Z;
  featureTableBinaryByteLength : Z;
  batchTableJSONByteLength : Z;
  batchTableBinaryByteLength : Z;
  featureTableStart : Z;
  featureTableLength : Z;
  batchTableStart : Z;
  batchTableLength : Z;
  glbStart : Z;
  glbBytes : Buffer.t
}.

Definition decode (arrayBuffer : Buffer.t) : result Payload :=
  let* version := readInt32LE arrayBuffer 4 in
  let* byteLength := readInt32LE arrayBuffer 8 in
  let* featureTableJSONByteLength := readInt32LE arrayBuffer 12 in
  let* featureTableBinaryByteLength := readInt32LE arrayBuffer 16 in
  let* batchTableJSONByteLength := readInt32LE arrayBuffer 20 in
  let* batchTableBinaryByteLength := readInt32LE arrayBuffer 24 in
  let featureTableStart := 28 in
  let featureTableLength :=
    featureTableJSONByteLength + featureTableBinaryByteLength in
  let batchTableStart :=
    featureTableStart + featureTableJSONByteLength
    + featureTableBinaryByteLength in
  let batchTableLength :=
    batchTableJSONByteLength + batchTableBinaryByteLength in
  let glbStart := batchTableStart + batchTableLength in
  let glbBytes := subarray arrayBuffer glbStart byteLength in
  Ok {| version := version;
        byteLength := byteLength;
        featureTableJSONByteLength := featureTableJSONByteLength;
        featureTableBinaryByteLength := featureTableBinaryByteLength;
        batchTableJSONByteLength := batchTableJSONByteLength;
        batchTableBinaryByteLength := batchTableBinaryByteLength;
        featureTableStart := featureTableStart;
        featureTableLength := featureTableLength;
        batchTableStart := batchTableStart;
        batchTableLength := batchTableLength;
        glbStart := glbStart;
        glbBytes := glbBytes |}.

End Extract.

(** ** Strings as JavaScript uses them here *)

Module JsString.

#[local] Open Scope string_scope.

(** [s.includes(sub)]. *)
Fixpoint includes (sub s : string) : bool :=
  if prefix sub s then true
  else match s with
       | EmptyString => false
       | String _ rest => includes sub rest
       end.

Fixpoint drop (n : nat) (s : string) : string :=
  match n, s with
  | O, _ => s
  | S _, EmptyString => EmptyString
  | S n', String _ rest => drop n' rest
  end.

(** [s.replace(/pat/g, rep)] for a literal, non-empty [pat]: the scan
    goes left to right; at a match [rep] is emitted and the scan resumes
    after the match ([skip] counts the characters of the match still to
    be passed over). *)
Fixpoint replace_from (pat rep : string) (skip : nat) (s : string) : string :=
  match s with
  | EmptyString => EmptyString
  | String c rest =>
    match skip with
    | S skip' => replace_from pat rep skip' rest
    | O =>
      if prefix pat s
      then rep ++ replace_from pat rep (String.length pat - 1) rest
      else String c (replace_from pat rep 0 rest)
    end
  end.

Definition replaceAll (pat rep s : string) : string :=
  replace_from pat rep 0 s.

(** Whether the character [c] occurs in [s]. *)
Fixpoint has_char (c : ascii) (s : string) : bool :=
  match s with
  | EmptyString => false
  | String x rest => if ascii_dec c x then true else has_char c rest
  end.

End JsString.

(** ** The worker: inspection of the document and choice of transforms *)

Module Worker.

Import Buffer.
#[local] Open Scope string_scope.

(** Lines 155 to 158: where the glb starts, and the slice up to the
    physical end of the file. Offset 8 (the total length) is not read. *)
Definition glbStart (arrayBuffer : Buffer.t) : result Z :=
  let* a := readInt32LE arrayBuffer 12 in
  let* b := readInt32LE arrayBuffer 16 in
  let* c := readInt32LE arrayBuffer 20 in
  let* d := readInt32LE arrayBuffer 24 in
  Ok (28 + a + b + c + d).

Definition glbBytes (arrayBuffer : Buffer.t) : result Buffer.t :=
  let* glbStart := glbStart arrayBuffer in
  Ok (subarray_from arrayBuffer glbStart).

(** *** parseKTXHeader *)

Definition KTX_IDENTIFIERS : list (list byte) :=
  [ [xab; x4b; x54; x58; x20; x31; x31; xbb; x0d; x0a; x1a; x0a];
    [xab; x4b; x54; x58; x20; x32; x30; xbb; x0d; x0a; x1a; x0a] ].

Definition KTX1 : list byte := nth 0 KTX_IDENTIFIERS [].
Definition KTX2 : list byte := nth 1 KTX_IDENTIFIERS [].

(** [buffer[i] !== id[i]]; an index past the end reads [undefined]. *)
Definition differs (buffer id : list byte) (i : nat) : bool :=
  match nth_error buffer i, nth_error id i with
  | Some x, Some y => negb (Byte.eqb x y)
  | None, None => false
  | _, _ => true
  end.

(** The loop of lines 116 to 119, both flags carried along. *)
Definition identify (buffer : Buffer.t) : bool * bool :=
  fold_left
    (fun '(isKTX1, isKTX2) i =>
       (if differs buffer KTX1 i then false else isKTX1,
        if differs buffer KTX2 i then false else isKTX2))
    (seq 0 (List.length KTX1)) (true, true).

Definition isKTX1 (buffer : Buffer.t) : bool := fst (identify buffer).
Definition isKTX2 (buffer : Buffer.t) : bool := snd (identify buffer).

Record KTXHeader : Type := {
  pixelWidth : Z;
  pixelHeight : Z
}.

(** [null] is [None]; the reads of the [DataView] may throw. *)
Definition parseKTXHeader (buffer : Buffer.t) : result (option KTXHeader) :=
  if isKTX1 buffer then
    let* w := readUInt32LE buffer 36 in
    let* h := readUInt32LE buffer 40 in
    Ok (Some {| pixelWidth := w; pixelHeight := h |})
  else if isKTX2 buffer then
    let* w := readUInt32LE buffer 20 in
    let* h := readUInt32LE buffer 24 in
    Ok (Some {| pixelWidth := w; pixelHeight := h |})
  else Ok None.

(** *** The document, as far as the worker looks at it

    [image] is [texture.getImage()] ([None] for [null]), [mimeType] is
    [texture.getMimeType()], and [loaded] is what the canvas library's
    [loadImage] gives for the image bytes ([None] when it rejects).
    A primitive of a mesh has [indices], the [getCount()] of
    [primitive.getIndices()] ([None] for [null]), and its drawing
    [mode] (4 for a list of triangles). The worker reads the meshes
    only for its triangle counter, a floating-point sum that the choice
    of transforms never reads and that is left out of the statistics
    below; the mesh compression of the scene library works on them. *)
Record Texture : Type := {
  image : option Buffer.t;
  mimeType : string;
  loaded : option (Z * Z)
}.

Record Primitive : Type := {
  mode : Z;
  indices : option Z
}.

Definition Mesh : Type := list Primitive.

Record Document : Type := {
  extensionsUsed : list string;
  textures : list Texture;
  meshes : list Mesh
}.

(** ['unknown'] or a number of pixels. *)
Inductive dimension : Type :=
| unknown
| pixels (n : Z).

Record TextureInfo : Type := {
  width : dimension;
  height : dimension;
  encoding : string
}.

(** Lines 55 to 99. An exception inside the [try] block is caught and
    leaves the three variables as they are. *)
Definition getTextureInfo (texture : Texture) : TextureInfo :=
  let mimeType := mimeType texture in
  let '(width, height, encoding) :=
    match image texture with
    | Some imageData =>
      let isKTX := JsString.includes "ktx" mimeType in
      if isKTX then
        match parseKTXHeader imageData with
        | Ok (Some ktxHeader) =>
          (pixels (pixelWidth ktxHeader), pixels (pixelHeight ktxHeader), "KTX")
        | Ok None => (unknown, unknown, "unknown")
        | Throw _ => (unknown, unknown, "unknown")
        end
      else
        match loaded texture with
        | Some (w, h) => (pixels w, pixels h, "unknown")
        | None => (unknown, unknown, "unknown")
        end
    | None => (unknown, unknown, "unknown")
    end in
  let encoding :=
    if (mimeType =? "")%string then encoding
    else if JsString.includes "jpeg" mimeType then "JPG"
    else if JsString.includes "png" mimeType then "PNG"
    else if JsString.includes "ktx" mimeType then "KTX"
    else encoding in
  {| width := width; height := height; encoding := encoding |}.

Record TextureStat : Type := {
  format : string;
  t_width : dimension;
  t_height : dimension
}.

Record Statistics : Type := {
  dracoCompression : bool;
  stat_textures : list TextureStat
}.

(** Lines 16 to 53. *)
Definition getModelStatistics (document : Document) : Statistics :=
  {| dracoCompression :=
       existsb (fun extensionName =>
                  (extensionName =? "KHR_draco_mesh_compression")%string)
               (extensionsUsed document);
     stat_textures :=
       map (fun textureInfo =>
              {| format := encoding textureInfo;
                 t_width := width textureInfo;
                 t_height := height textureInfo |})
           (map getTextureInfo (textures document)) |}.

(** *** The choice of transforms (lines 170 to 184) *)

Inductive Transform : Type :=
| toktx
| draco.

Definition hasKTXTexture (originalStats : Statistics) : bool :=
  existsb (fun texture => (format texture =? "KTX")%string)
          (stat_textures originalStats).

Definition transforms (originalStats : Statistics)
           (dracoRequested ktx : bool) : list Transform :=
  (if ktx && negb (hasKTXTexture originalStats) then [toktx] else [])
  ++ (if dracoRequested && negb (dracoCompression originalStats)
      then [draco] else []).

(** Modelled from the spec: what the texture codec of the scene
    library, which is not in the repository, works on: a texture whose
    MIME type is PNG or JPEG. *)
Definition convertible (texture : Texture) : bool :=
  (mimeType texture =? "image/png")%string
  || (mimeType texture =? "image/jpeg")%string.


(** The drawing mode of a list of triangles in a scene file. *)
Definition TRIANGLES : Z := 4.

(** Modelled from the spec: what the mesh codec of the scene library
    works on: a primitive that is a list of triangles and has
    indices. *)
Definition compressible (primitive : Primitive) : bool :=
  (mode primitive =? TRIANGLES)%Z
  && match indices primitive with
     | Some _ => true
     | None => false
     end.

(** Modelled from the spec: the scene has geometry to compress. *)
Definition hasCompressibleGeometry (document : Document) : bool :=
  existsb (existsb compressible) (meshes document).

(** Modelled from the spec: the two transforms themselves belong to the
    external scene library and are not in the repository. The spec's
    glossary gives their effect: texture compression re-encodes a
    texture image into the target compressed format, mesh compression
    is a geometry compression that is detected by its declared
    extension. Each leaves its mark only where it has worked: texture
    compression gives the target format to the textures it converts,
    and to none where there is nothing to convert; mesh compression has
    the scene declare the extension when it has compressed some
    geometry, and a scene without such geometry comes out without the
    declaration. The image bytes after re-encoding and the compressed
    geometry are the codecs' business and are left as they were; the
    inspector classifies by MIME type and by the declared
    extensions. *)
Definition applyTransform (step : Transform) (document : Document) : Document :=
  match step with
  | toktx =>
    {| extensionsUsed := extensionsUsed document;
       textures :=
         map (fun texture =>
                if convertible texture
                then {| image := image texture;
                        mimeType := "image/ktx2";
                        loaded := None |}
                else texture)
             (textures document);
       meshes := meshes document |}
  | draco =>
    {| extensionsUsed :=
         if hasCompressibleGeometry document
         then extensionsUsed document ++ ["KHR_draco_mesh_compression"]
         else extensionsUsed document;
       textures := textures document;
       meshes := meshes document |}
  end.

(** [document.transform(...transforms)]: the steps in order. *)
Definition applyPlan (document : Document) (steps : list Transform) : Document :=
  fold_left (fun d step => applyTransform step d) steps document.

(** One planning pass over a document. *)
Definition plan (document : Document) (dracoRequested ktx : bool)
  : list Transform :=
  transforms (getModelStatistics document) dracoRequested ktx.

End Worker.

(** ** The coordinator of [compress_with_stats-main.js] *)

Module Scheduler.

#[local] Open Scope string_scope.

(** A forked worker whose completion signal is still due. [pid] is the
    position of its file in the list. *)
Record Child : Type := {
  pid : nat;
  file : string
}.

(** One line of [updateProgress]. *)
Record Progress : Type := {
  processed : Z;
  remainingFiles : Z;
  message : string
}.

(** The variables of [processFiles] together with what it has done so
    far: the forks, the progress lines and the calls of
    [finishProcessing]. [completedTasks] is advanced when a file is
    handed to a worker. *)
Record State : Type := {
  completedTasks : nat;
  activeProcesses : Z;
  children : list Child;
  forked : list string;
  progress : list Progress;
  finished : nat
}.

(** [Math.max(1, os.cpus().length - 1)]. *)
Definition numCPUs_of (cpus : Z) : Z := Z.max 1 (cpus - 1).

(** What the environment can deliver to the coordinator: the worker's
    [process.send], an ['error'] event of the child, or the exit of a
    child that has sent nothing. (A worker exits right after sending;
    that exit is only inspected for logging, so a child leaves
    [children] with its signal.) *)
Inductive event : Type :=
| Message (p : nat) (text : string)
| Error (p : nat) (err_message : string)
| Exit (p : nat) (code : Z).

Section ProcessFiles.

Variable files : list string.
Variable numCPUs : Z.

Definition totalFiles : nat := List.length files.

Definition initial : State :=
  {| completedTasks := 0;
     activeProcesses := 0;
     children := [];
     forked := [];
     progress := [];
     finished := 0 |}.

(** [fork(...)] and [activeProcesses++]; the three handlers it
    installs are [handle] below. *)
Definition runChildProcess (f : string) (s : State) : State :=
  {| completedTasks := completedTasks s;
     activeProcesses := activeProcesses s + 1;
     children := children s ++ [{| pid := List.length (forked s); file := f |}];
     forked := forked s ++ [f];
     progress := progress s;
     finished := finished s |}.

Definition advance (s : State) : State :=
  {| completedTasks := S (completedTasks s);
     activeProcesses := activeProcesses s;
     children := children s;
     forked := forked s;
     progress := progress s;
     finished := finished s |}.

(** The [while] loop of [runNextBatch], run on the files not yet
    handed out: [rest] is empty exactly when
    [completedTasks < totalFiles] fails, and its head is
    [files[completedTasks]]. *)
Fixpoint runNextBatch_loop (rest : list string) (s : State) : State :=
  match rest with
  | [] => s
  | f :: rest' =>
    if (activeProcesses s <? numCPUs)%Z
    then runNextBatch_loop rest' (runChildProcess f (advance s))
    else s
  end.

Definition runNextBatch (s : State) : State :=
  runNextBatch_loop (skipn (completedTasks s) files) s.

Definition updateProgress (text : string) (s : State) : State :=
  let done := Z.of_nat (completedTasks s) - activeProcesses s in
  {| completedTasks := completedTasks s;
     activeProcesses := activeProcesses s;
     children := children s;
     forked := forked s;
     progress :=
       progress s ++ [{| processed := done;
                         remainingFiles := Z.of_nat totalFiles - done;
                         message := text |}];
     finished := finished s |}.

Definition finishProcessing (s : State) : State :=
  {| completedTasks := completedTasks s;
     activeProcesses := activeProcesses s;
     children := children s;
     forked := forked s;
     progress := progress s;
     finished := S (finished s) |}.

Definition decrement (s : State) : State :=
  {| completedTasks := completedTasks s;
     activeProcesses := activeProcesses s - 1;
     children := children s;
     forked := forked s;
     progress := progress s;
     finished := finished s |}.

Definition handleCompletion (text : string) (s : State) : State :=
  let s := decrement s in
  let s := updateProgress text s in
  if (completedTasks s =? totalFiles)%nat && (activeProcesses s =? 0)%Z
  then finishProcessing s
  else if (activeProcesses s <? numCPUs)%Z then runNextBatch s
  else s.

Definition find_child (p : nat) (s : State) : option Child :=
  find (fun c => (pid c =? p)%nat) (children s).

Definition drop_child (p : nat) (s : State) : State :=
  {| completedTasks := completedTasks s;
     activeProcesses := activeProcesses s;
     children := filter (fun c => negb (pid c =? p)%nat) (children s);
     forked := forked s;
     progress := progress s;
     finished := finished s |}.

(** The three handlers installed by [runChildProcess]. An event of a
    child that is not waiting to signal cannot occur ([None]). *)
Definition handle (ev : event) (s : State) : option State :=
  match ev with
  | Message p text =>
    match find_child p s with
    | Some _ => Some (handleCompletion text (drop_child p s))
    | None => None
    end
  | Error p err_message =>
    match find_child p s with
    | Some c =>
      Some (handleCompletion
              ("Error processing " ++ file c ++ ": " ++ err_message)
              (drop_child p s))
    | None => None
    end
  | Exit p code =>
    match find_child p s with
    | Some _ => Some (drop_child p s)
    | None => None
    end
  end.

(** [processFiles]: the initial batch, then the events as they come. *)
Definition start : State := runNextBatch initial.

Fixpoint run (evs : list event) (s : State) : option State :=
  match evs with
  | [] => Some s
  | ev :: evs' =>
    match handle ev s with
    | Some s' => run evs' s'
    | None => None
    end
  end.

Definition processFiles (evs : list event) : option State :=
  run evs start.

Definition is_signal (ev : event) : bool :=
  match ev with
  | Message _ _ | Error _ _ => true
  | Exit _ _ => false
  end.

(** A progress line that reports a failed job. *)
Definition reports_error (line : Progress) : bool :=
  prefix "Error processing " (message line).

(** The progress line that a signal leaves: the worker's text as it
    is, or the coordinator's own text for an ['error'] event. *)
Definition reported (ev : event) (line : Progress) : Prop :=
  match ev with
  | Message _ text => message line = text
  | Error _ err_message =>
    exists f, message line = "Error processing " ++ f ++ ": " ++ err_message
  | Exit _ _ => False
  end.

(** What holds of the coordinator's state between two events, as long
    as every worker delivers its signal: the counter of active
    processes counts the children that have not signalled, the files
    handed out are the first [completedTasks] files, every file handed
    out has either been reported or is still running, and the limit is
    respected. *)
Definition invariant (s : State) : Prop :=
  activeProcesses s = Z.of_nat (List.length (children s))
  /\ (completedTasks s <= totalFiles)%nat
  /\ forked s = firstn (completedTasks s) files
  /\ (List.length (progress s) + List.length (children s)
      = completedTasks s)%nat
  /\ (activeProcesses s <= numCPUs)%Z
  /\ NoDup (map pid (children s))
  /\ (forall c, In c (children s) -> (pid c < List.length (forked s))%nat).

(** A free slot is left only when no file is left. *)
Definition saturated (s : State) : Prop :=
  (activeProcesses s < numCPUs)%Z -> completedTasks s = totalFiles.

(** [finishProcessing] has run once when the last file was reported,
    and not before. *)
Definition finished_in_time (s : State) : Prop :=
  finished s
  = if (0 <? totalFiles)%nat && (List.length (progress s) =? totalFiles)%nat
    then 1%nat else 0%nat.

End ProcessFiles.

End Scheduler.

(** ** The tileset rewriter ([replaceB3dmWithGlb]) *)

Module Tileset.

#[local] Open Scope string_scope.

(** The pattern of the regular expression and the replacement text. *)
Definition stale : string := ".b3dm".
Definition fresh : string := ".glb".

Section Json.

(** Numbers are never looked into, so their carrier is left open. *)
Variable number : Type.

(** What [JSON.parse] returns. An object is the list of its own
    properties in enumeration order. *)
Unset Elimination Schemes.
Inductive JSON : Type :=
| JNull
| JBool (b : bool)
| JNumber (n : number)
| JString (s : string)
| JArray (items : list JSON)
| JObject (members : list (string * JSON)).
Set Elimination Schemes.

(** [obj.replace(/\.b3dm/g, '.glb')]. *)
Definition replace_b3dm (s : string) : string :=
  JsString.replaceAll stale fresh s.

(** Whether the object has an own property called [name]. *)
Definition has_own (name : string) (members : list (string * JSON)) : bool :=
  existsb (fun kv => (fst kv =? name)%string) members.

(** [obj.hasOwnProperty] is looked up on the object itself first. An
    own property of that name, which a parsed object may well have,
    hides the method of [Object.prototype]; its value comes from
    [JSON.parse] and is no function, so the call is a TypeError.
    Otherwise the inherited method answers [true] for every key that
    [for ... in] enumerates on a parsed object. *)
Definition hasOwnProperty (members : list (string * JSON)) (key : string)
  : result bool :=
  if has_own "hasOwnProperty" members then Throw TypeError else Ok true.

(** The function assigns into the object it was given and returns it;
    on a parsed tree, which shares nothing, the value returned is the
    tree built here. An exception leaves the loops at once. The call
    stack is taken to be deep enough for the tree here;
    [TilesetStack.replaceB3dmWithGlb_on] below is the same function on a
    stack of limited size. *)
Fixpoint replaceB3dmWithGlb (obj : JSON) : result JSON :=
  match obj with
  | JString s => Ok (JString (replace_b3dm s))
  | JArray items =>
    let* items' :=
      (fix map_items (l : list JSON) : result (list JSON) :=
         match l with
         | [] => Ok []
         | item :: rest =>
           let* item' := replaceB3dmWithGlb item in
           let* rest' := map_items rest in
           Ok (item' :: rest')
         end) items in
    Ok (JArray items')
  | JObject members =>
    let* members' :=
      (fix for_in (l : list (string * JSON)) : result (list (string * JSON)) :=
         match l with
         | [] => Ok []
         | (key, value) :: rest =>
           let* own := hasOwnProperty members key in
           let* value' :=
             if own then replaceB3dmWithGlb value else Ok value in
           let* rest' := for_in rest in
           Ok ((key, value') :: rest')
         end) members in
    Ok (JObject members')
  | _ => Ok obj
  end.

(** The rewriting that the specification describes, to compare the
    source with: all occurrences of the stale pattern are replaced in
    strings, lists are mapped element by element, mappings are
    rewritten value by value under the same keys, every other scalar
    passes through. *)
Fixpoint rewrite_node (stalePattern replacement : string) (node : JSON) : JSON :=
  match node with
  | JString s => JString (JsString.replaceAll stalePattern replacement s)
  | JArray items => JArray (map (rewrite_node stalePattern replacement) items)
  | JObject members =>
    JObject (map (fun kv => match kv with
                            | (key, value) =>
                              (key, rewrite_node stalePattern replacement value)
                            end) members)
  | _ => node
  end.

(** No object of the tree has an own property called
    ["hasOwnProperty"]. *)
Fixpoint ordinary (obj : JSON) : bool :=
  match obj with
  | JArray items => forallb ordinary items
  | JObject members =>
    negb (has_own "hasOwnProperty" members)
    && forallb (fun kv => match kv with (_, value) => ordinary value end) members
  | _ => true
  end.

Definition keys (members : list (string * JSON)) : list string :=
  map fst members.

(** Occurrences of [".b3dm"] in the string leaves of a tree. *)
Fixpoint count_in_string (s : string) : nat :=
  match s with
  | EmptyString => 0
  | String _ rest =>
    ((if prefix ".b3dm" s then 1 else 0) + count_in_string rest)%nat
  end.

Fixpoint stale_count (obj : JSON) : nat :=
  match obj with
  | JString s => count_in_string s
  | JArray items => fold_right (fun v n => (stale_count v + n)%nat) 0%nat items
  | JObject members =>
    fold_right (fun kv n => match kv with
                            | (_, v) => (stale_count v + n)%nat
                            end) 0%nat members
  | _ => 0%nat
  end.

End Json.

Arguments JNull {number}.
Arguments JBool {number} b.
Arguments JNumber {number} n.
Arguments JString {number} s.
Arguments JArray {number} items.
Arguments JObject {number} members.
Arguments replaceB3dmWithGlb {number} obj.
Arguments rewrite_node {number} stalePattern replacement node.
Arguments ordinary {number} obj.
Arguments has_own {number} name members.
Arguments keys {number} members.
Arguments stale_count {number} obj.

End Tileset.

(** ** What the specification calls a valid container *)

Module ContainerSpec.

Import Buffer.

(** The bytes of [buf] from [start], [len] of them. *)
Definition segment (buf : Buffer.t) (start len : Z) : Buffer.t :=
  firstn (Z.to_nat len) (skipn (Z.to_nat start) buf).

(** The specification's data model: a 28-byte header, four table
    lengths that are lengths, and
    [payloadStart <= payloadEnd <= bufferLength] where [payloadEnd]
    is the header's total length. *)
Definition valid (arrayBuffer : Buffer.t) : bool :=
  match Compress.decode arrayBuffer with
  | Ok c =>
    (0 <=? Compress.featureTableJSONByteLength c)
    && (0 <=? Compress.featureTableBinaryByteLength c)
    && (0 <=? Compress.batchTableJSONByteLength c)
    && (0 <=? Compress.batchTableBinaryByteLength c)
    && (Compress.glbStart c <=? Compress.byteLength c)
    && (Compress.byteLength c <=? Buffer.byteLength arrayBuffer)
  | Throw _ => false
  end.

(** A 28-byte header with the given fields. *)
Definition header_bytes (magic version total fj fb bj bb : Z) : Buffer.t :=
  int32_bytes magic ++ int32_bytes version ++ int32_bytes total
  ++ int32_bytes fj ++ int32_bytes fb ++ int32_bytes bj ++ int32_bytes bb.

(** ['b3dm'] read as a little-endian integer. *)
Definition b3dm_magic : Z := 1835283298.

(** Scenario A: feature table JSON of 10 bytes, nothing else in the
    tables, a payload of 100 bytes. *)
Definition scenario_A : Buffer.t :=
  header_bytes b3dm_magic 1 138 10 0 0 0 ++ repeat x7b 10 ++ repeat x67 100.

(** A header that declares a feature table of 10 bytes, to be
    assembled with side tables that hold no bytes at all. *)
Definition short_tables_header : Compress.Header :=
  {| Compress.h_magic := b3dm_magic;
     Compress.h_version := 1;
     Compress.h_featureTableJSONByteLength := 10;
     Compress.h_featureTableBinaryByteLength := 0;
     Compress.h_batchTableJSONByteLength := 0;
     Compress.h_batchTableBinaryByteLength := 0 |}.

(** A file whose header declares a feature table of -4 bytes and a
    batch table of 4 bytes, followed by a payload of 8 bytes. *)
Definition negative_table : Buffer.t :=
  header_bytes b3dm_magic 1 36 (-4) 0 4 0
  ++ [x01; x02; x03; x04; x05; x06; x07; x08].

(** A bare header that declares tables and a total far beyond the 28
    bytes that are there. *)
Definition overdeclared : Buffer.t :=
  header_bytes b3dm_magic 1 1000 500 0 0 0.

End ContainerSpec.

(** ** Inputs of the scenarios *)

Module Scenarios.

#[local] Open Scope string_scope.

(** Scenario B: the version 2 identifier, then 256 and 128 at offsets
    20 and 24, and other numbers (7 and 9) at offsets 36 and 40. *)
Definition ktx2_image : Buffer.t :=
  (Worker.KTX2
   ++ repeat x00 8
   ++ Buffer.int32_bytes 256 ++ Buffer.int32_bytes 128
   ++ repeat x00 8
   ++ Buffer.int32_bytes 7 ++ Buffer.int32_bytes 9)%list.

(** The same layout under the version 1 identifier. *)
Definition ktx1_image : Buffer.t :=
  (Worker.KTX1
   ++ repeat x00 8
   ++ Buffer.int32_bytes 256 ++ Buffer.int32_bytes 128
   ++ repeat x00 8
   ++ Buffer.int32_bytes 7 ++ Buffer.int32_bytes 9)%list.


(** A scene with one PNG texture and one mesh of twelve triangles. *)
Definition png_scene : Worker.Document :=
  {| Worker.extensionsUsed := [];
     Worker.textures :=
       [ {| Worker.image := Some [x89; x50; x4e; x47];
            Worker.mimeType := "image/png";
            Worker.loaded := Some (64, 64)%Z |} ];
     Worker.meshes :=
       [ [ {| Worker.mode := Worker.TRIANGLES;
              Worker.indices := Some 36%Z |} ] ] |}.

(** Scenario C: a scene that already declares the Draco extension. *)
Definition draco_scene : Worker.Document :=
  {| Worker.extensionsUsed := ["KHR_draco_mesh_compression"];
     Worker.textures := [];
     Worker.meshes :=
       [ [ {| Worker.mode := Worker.TRIANGLES;
              Worker.indices := Some 36%Z |} ] ] |}.

(** Scenario D: five files, two workers at a time; the third file's
    worker reports an error, the others report success. *)
Definition batch_D : list string :=
  ["a.b3dm"; "b.b3dm"; "c.b3dm"; "d.b3dm"; "e.b3dm"].

Definition events_D : list Scheduler.event :=
  [ Scheduler.Message 0 ", Execution time: 1.00s. KTX Applied. Draco Applied";
    Scheduler.Message 1 ", Execution time: 1.10s. KTX Applied. Draco Applied";
    Scheduler.Message 2 "Error processing c.b3dm: TransformError";
    Scheduler.Message 3 ", Execution time: 0.90s. KTX Applied. Draco Applied";
    Scheduler.Message 4 ", Execution time: 1.20s. KTX Applied. Draco Applied" ].

(** Scenario E: a tileset with nested lists and objects; three of its
    strings end in [".b3dm"]. Its numbers are integers. *)
Definition tileset_E : Tileset.JSON Z :=
  Tileset.JObject
    [ ("asset", Tileset.JObject [("version", Tileset.JString "1.0")]);
      ("geometricError", Tileset.JNumber 500%Z);
      ("root",
       Tileset.JObject
         [ ("content", Tileset.JObject [("uri", Tileset.JString "tiles/0.b3dm")]);
           ("refine", Tileset.JString "ADD");
           ("children",
            Tileset.JArray
              [ Tileset.JObject
                  [ ("content",
                     Tileset.JObject [("uri", Tileset.JString "tiles/1.b3dm")]);
                    ("boundingVolume", Tileset.JNull) ];
                Tileset.JObject
                  [ ("content",
                     Tileset.JObject [("uri", Tileset.JString "tiles/2.b3dm")]);
                    ("transform",
                     Tileset.JArray [Tileset.JNumber 1%Z; Tileset.JNumber 0%Z]);
                    ("visible", Tileset.JBool true) ];
                Tileset.JString "notes.txt" ]) ]) ].

(** A tileset whose [extras] happen to have a key ["hasOwnProperty"]. *)
Definition tileset_own_key : Tileset.JSON Z :=
  Tileset.JObject
    [ ("root",
       Tileset.JObject
         [ ("content", Tileset.JObject [("uri", Tileset.JString "tiles/0.b3dm")]);
           ("extras",
            Tileset.JObject [("hasOwnProperty", Tileset.JString "tiles/0.b3dm")])
         ]) ].

(** What the rewriter is to return on it. *)
Definition tileset_E_rewritten : Tileset.JSON Z :=
  Tileset.JObject
    [ ("asset", Tileset.JObject [("version", Tileset.JString "1.0")]);
      ("geometricError", Tileset.JNumber 500%Z);
      ("root",
       Tileset.JObject
         [ ("content", Tileset.JObject [("uri", Tileset.JString "tiles/0.glb")]);
           ("refine", Tileset.JString "ADD");
           ("children",
            Tileset.JArray
              [ Tileset.JObject
                  [ ("content",
                     Tileset.JObject [("uri", Tileset.JString "tiles/1.glb")]);
                    ("boundingVolume", Tileset.JNull) ];
                Tileset.JObject
                  [ ("content",
                     Tileset.JObject [("uri", Tileset.JString "tiles/2.glb")]);
                    ("transform",
                     Tileset.JArray [Tileset.JNumber 1%Z; Tileset.JNumber 0%Z]);
                    ("visible", Tileset.JBool true) ];
                Tileset.JString "notes.txt" ]) ]) ].

End Scenarios.

(** ** Strings, continued: file names and command lines *)

Module JsText.

#[local] Open Scope string_scope.

(** [s.endsWith(suffix)]. *)
Fixpoint endsWith (suffix s : string) : bool :=
  if (s =? suffix)%string then true
  else match s with
       | EmptyString => false
       | String _ rest => endsWith suffix rest
       end.

(** [s.replace(pat, rep)] with a string as pattern: the first
    occurrence only. ([rep] holds no [$] in the sources, so it is taken
    as it is.) *)
Fixpoint replaceFirst (pat rep s : string) : string :=
  if prefix pat s then rep ++ JsString.drop (String.length pat) s
  else match s with
       | EmptyString => EmptyString
       | String c rest => String c (replaceFirst pat rep rest)
       end.

(** [s.split(sep)] for a separator of one character. *)
Fixpoint split (sep : ascii) (s : string) : list string :=
  match s with
  | EmptyString => [EmptyString]
  | String c rest =>
    if ascii_dec c sep then EmptyString :: split sep rest
    else match split sep rest with
         | piece :: pieces => String c piece :: pieces
         | [] => [String c EmptyString]
         end
  end.

End JsText.

(** ** The command line of [B3DM_Extract/src/app-02.js] *)

Module CommandLine.

Import JsText.
#[local] Open Scope string_scope.

(** A property of [args]: [true] for a flag, or the text after [=]. *)
Inductive value : Type :=
| flag
| text (s : string).

(** The object [args], as the list of its own properties. *)
Definition Args : Type := list (string * value).

Fixpoint set (key : string) (v : value) (args : Args) : Args :=
  match args with
  | [] => [(key, v)]
  | (k, old) :: rest =>
    if (k =? key)%string then (k, v) :: rest
    else (k, old) :: set key v rest
  end.

(** [args[key] = v]. On an object made by [{}] the key ["__proto__"]
    is the accessor of [Object.prototype]: its setter ignores a string
    and a boolean, and no own property is made. *)
Definition assign (key : string) (v : value) (args : Args) : Args :=
  if (key =? "__proto__")%string then args else set key v args.

(** [args[key]] for a key that [Object.prototype] does not define;
    [None] is [undefined]. *)
Definition get (key : string) (args : Args) : option value :=
  match find (fun kv => (fst kv =? key)%string) args with
  | Some kv => Some (snd kv)
  | None => None
  end.

(** What the callback of lines 90 to 98 does with one argument. The
    destructuring [[key, value]] takes the first two pieces of the
    split; an argument that includes [=] has at least two. *)
Definition step (args : Args) (arg : string) : Args :=
  if JsString.includes "=" arg then
    match split "=" arg with
    | key :: v :: _ => assign key (text v) args
    | _ => args
    end
  else assign arg flag args.

(** Lines 88 to 100, on [process.argv.slice(2)]. *)
Definition getCommandLineArguments (argv : list string) : Args :=
  fold_left step argv [].

Definition tilesetRoot (argv : list string) : option value :=
  get "--folder" (getCommandLineArguments argv).

(** Lines 103 to 117: the two checks before the directory is looked
    at. [!tilesetRoot] holds for [undefined] and for the empty string. *)
Inductive startup : Type :=
| usage_error
| not_a_string
| access (folder : string).

Definition main (argv : list string) : startup :=
  match tilesetRoot argv with
  | None => usage_error
  | Some flag => not_a_string
  | Some (text EmptyString) => usage_error
  | Some (text folder) => access folder
  end.

End CommandLine.

(** ** The worker script as a whole *)

Module WorkerRun.

Import JsText Worker.
#[local] Open Scope string_scope.

(** What the script does to the outside, in order: a message to the
    coordinator that forked it ([process.send]), a file written or
    deleted (a call that returned), and the exit. *)
Inductive effect : Type :=
| Send (text : string)
| WriteFile (path : string) (data : Buffer.t)
| Unlink (path : string)
| Exit (code : Z).

(** A call into the file system: it returns, or throws an [Error] with
    a message. *)
Inductive outcome (A : Type) : Type :=
| returns (a : A)
| throws (message : string).

Arguments returns {A} a.
Arguments throws {A} message.

(** What the outside answers during one run. The scene library's
    promises are followed by [.catch(e => console.log(...))] in the
    source, so a rejection is [None] ([undefined]); [transform] gives
    the document as the transforms leave it, whether or not they
    failed. *)
Record World : Type := {
  existsSync : bool;
  readFileSync : outcome Buffer.t;
  readBinary : Buffer.t -> option Document;
  read : option Document;
  transform : list Transform -> Document -> Document;
  writeBinary : Document -> option Buffer.t;
  writeFileSync : outcome unit;
  unlinkSync : outcome unit;
  executionTime : string;
  rangeErrorMessage : string
}.

(** Line 197. *)
Definition outputFilePath (file : string) : string :=
  if endsWith ".b3dm" file then replaceFirst ".b3dm" ".glb" file else file.

(** The [catch] of line 217. *)
Definition caught (file message : string) : list effect :=
  [Send ("Error processing " ++ file ++ ": " ++ message); Exit 1].

(** Line 205. *)
Definition success (w : World) (ktxApplied dracoApplied : bool) : string :=
  ", Execution time: " ++ executionTime w ++ "s. "
  ++ (if ktxApplied then "KTX Applied" else "KTX Not Applied") ++ ". "
  ++ (if dracoApplied then "Draco Applied" else "Draco Not Applied").

(** Lines 152 to 162: [document], or the exception that leaves
    [compress]. *)
Definition load (file : string) (w : World) : outcome (option Document) :=
  if endsWith ".b3dm" file then
    match readFileSync w with
    | throws message => throws message
    | returns arrayBuffer =>
      match Worker.glbBytes arrayBuffer with
      | Throw _ => throws (rangeErrorMessage w)
      | Ok glbBytes => returns (readBinary w glbBytes)
      end
    end
  else if endsWith ".glb" file || endsWith ".gltf" file then returns (read w)
  else returns None.

(** Lines 144 to 207, with the [catch] of lines 217 to 221 around it. *)
Definition compress (file : string) (dracoCompression ktx : bool) (w : World)
  : list effect :=
  if negb (existsSync w) then
    [Send ("Error processing " ++ file ++ ": File does not exist."); Exit 1]
  else
    match load file w with
    | throws message => caught file message
    | returns None =>
      [Send ("Error processing " ++ file ++ ": Failed to read the file."); Exit 1]
    | returns (Some document) =>
      let originalStats := getModelStatistics document in
      let hasKTXTexture := hasKTXTexture originalStats in
      let ktxApplied := ktx && negb hasKTXTexture in
      let dracoApplied :=
        dracoCompression && negb (Worker.dracoCompression originalStats) in
      let transforms := transforms originalStats dracoCompression ktx in
      let document :=
        if (0 <? List.length transforms)%nat
        then transform w transforms document else document in
      match writeBinary w document with
      | None =>
        [Send ("Error processing " ++ file ++ ": Failed to write GLB file.");
         Exit 1]
      | Some glbBuffer =>
        match writeFileSync w with
        | throws message => caught file message
        | returns _ =>
          WriteFile (outputFilePath file) glbBuffer
          :: (if endsWith ".b3dm" file then
                match unlinkSync w with
                | throws message => caught file message
                | returns _ =>
                  [Unlink file; Send (success w ktxApplied dracoApplied); Exit 0]
                end
              else [Send (success w ktxApplied dracoApplied); Exit 0])
        end
      end
    end.

(** Lines 209 to 221, on [process.argv]. *)
Definition main (argv : list string) (w : World) : list effect :=
  if (List.length argv <? 5)%nat then [Exit 1]
  else compress (nth 2 argv "")
                (nth 3 argv "" =? "true")%string
                (nth 4 argv "" =? "true")%string
                w.

(** The shape of every run of [compress]: what is written and deleted
    first, then one message, then the exit. *)
Inductive shaped (file : string) : list effect -> Prop :=
| failed (reason : string) :
    shaped file [Send ("Error processing " ++ file ++ ": " ++ reason); Exit 1]
| failed_after_write (data : Buffer.t) (reason : string) :
    shaped file [WriteFile (outputFilePath file) data;
                 Send ("Error processing " ++ file ++ ": " ++ reason); Exit 1]
| converted (data : Buffer.t) (text : string) :
    endsWith ".b3dm" file = true ->
    prefix "Error processing " text = false ->
    shaped file [WriteFile (outputFilePath file) data; Unlink file;
                 Send text; Exit 0]
| rewritten (data : Buffer.t) (text : string) :
    endsWith ".b3dm" file = false ->
    prefix "Error processing " text = false ->
    shaped file [WriteFile (outputFilePath file) data; Send text; Exit 0].

Definition is_send (e : effect) : bool :=
  match e with
  | Send _ => true
  | _ => false
  end.

Definition is_exit (e : effect) : bool :=
  match e with
  | Exit _ => true
  | _ => false
  end.

End WorkerRun.

(** ** The prompt of [compress/src/compress.js] *)

Module Prompt.

Import JsText.
#[local] Open Scope string_scope.

(** Characters are code units below 256. [\s] of a regular expression
    and [trim] agree on them: tab, line feed, vertical tab, form feed,
    carriage return, space and the no-break space. *)
Definition is_space (c : ascii) : bool :=
  let n := nat_of_ascii c in
  ((n =? 9) || (n =? 10) || (n =? 11) || (n =? 12) || (n =? 13)
   || (n =? 32) || (n =? 160))%nat.

(** What [.] does not match. *)
Definition is_line_terminator (c : ascii) : bool :=
  let n := nat_of_ascii c in ((n =? 10) || (n =? 13))%nat.

(** The double quote. *)
Definition quote : ascii := ascii_of_nat 34.

Fixpoint all (p : ascii -> bool) (s : string) : bool :=
  match s with
  | EmptyString => true
  | String c rest => p c && all p rest
  end.

(** [.*?] and the closing quote, after an opening quote: the text up
    to the first quote, when no line terminator comes before it. *)
Fixpoint closing (s : string) : option string :=
  match s with
  | EmptyString => None
  | String c rest =>
    if ascii_dec c quote then Some EmptyString
    else if is_line_terminator c then None
    else match closing rest with
         | Some body => Some (String c body)
         | None => None
         end
  end.

(** [\S+]: the longest run of characters that are no space. *)
Fixpoint run (s : string) : string :=
  match s with
  | EmptyString => EmptyString
  | String c rest => if is_space c then EmptyString else String c (run rest)
  end.

(** The match of [(".*?"|\S+)] that begins at the head of [s]. *)
Definition token_at (s : string) : option string :=
  match s with
  | EmptyString => None
  | String c rest =>
    if ascii_dec c quote then
      match closing rest with
      | Some body => Some (String quote (body ++ String quote EmptyString))
      | None => Some (run s)
      end
    else if is_space c then None
    else Some (run s)
  end.

(** The matches from left to right; after a match the search resumes
    behind it ([skip] counts the characters of the match still to be
    passed over). *)
Fixpoint scan (skip : nat) (s : string) : list string :=
  match s with
  | EmptyString => []
  | String c rest =>
    match skip with
    | S skip' => scan skip' rest
    | O =>
      match token_at s with
      | Some token => token :: scan (String.length token - 1) rest
      | None => scan 0 rest
      end
    end
  end.

(** [input.match(/(".*?"|\S+)/g)]: [null] when nothing matches. *)
Definition match_all (input : string) : option (list string) :=
  match scan 0 input with
  | [] => None
  | tokens => Some tokens
  end.

(** [s.substring(a, b)]: the two indices are swapped when [a > b]. *)
Definition substring (a b : nat) (s : string) : string :=
  String.substring (Nat.min a b) (Nat.max a b - Nat.min a b) s.

(** An argument after the [map]: a boolean or a string. *)
Inductive value : Type :=
| boolean (b : bool)
| str (s : string).

(** Lines 29 to 37, the function mapped over the matches. *)
Definition convert (arg : string) : value :=
  match String.get 0 arg, String.get (String.length arg - 1) arg with
  | Some first, Some last =>
    if ascii_dec first quote then
      if ascii_dec last quote
      then str (substring 1 (String.length arg - 1) arg)
      else if (arg =? "true")%string then boolean true
      else if (arg =? "false")%string then boolean false
      else str arg
    else if (arg =? "true")%string then boolean true
    else if (arg =? "false")%string then boolean false
    else str arg
  | _, _ =>
    if (arg =? "true")%string then boolean true
    else if (arg =? "false")%string then boolean false
    else str arg
  end.

(** What [if (x)] takes for true; [None] is [undefined]. *)
Definition truthy (v : option value) : bool :=
  match v with
  | None => false
  | Some (boolean b) => b
  | Some (str s) => negb (s =? "")%string
  end.

Inductive Step : Type :=
| dedup
| flatten
| join
| toktx
| backfaceCulling
| draco.

(** What [compress] goes on to do with the file. *)
Inductive job : Type :=
| container (file : string) (transforms : list Step)
| scene (file : string) (transforms : list Step)
| nothing.

(** Lines 45 to 61 and 99: the transforms, then the choice by the end
    of the file name. [file.endsWith] is no function when [file] is a
    boolean. *)
Definition compress (file dracoCompression ktx doubleSided : option value)
  : result job :=
  let transforms :=
    ([dedup; flatten; join]
     ++ (if truthy ktx then [toktx] else [])
     ++ (if truthy doubleSided then [backfaceCulling] else [])
     ++ (if truthy dracoCompression then [draco] else []))%list in
  match file with
  | Some (str file) =>
    if endsWith ".b3dm" file then Ok (container file transforms)
    else if endsWith ".glb" file || endsWith ".gltf" file
         then Ok (scene file transforms)
         else Ok nothing
  | _ => Throw TypeError
  end.

Fixpoint trimStart (s : string) : string :=
  match s with
  | EmptyString => EmptyString
  | String c rest => if is_space c then trimStart rest else s
  end.

Fixpoint trimEnd (s : string) : string :=
  match s with
  | EmptyString => EmptyString
  | String c rest =>
    match trimEnd rest with
    | EmptyString => if is_space c then EmptyString else String c EmptyString
    | kept => String c kept
    end
  end.

Definition trim (s : string) : string := trimEnd (trimStart s).

(** [toLowerCase], on the letters A to Z; the result is only compared
    with ['exit']. *)
Definition lower (c : ascii) : ascii :=
  let n := nat_of_ascii c in
  if ((65 <=? n) && (n <=? 90))%nat then ascii_of_nat (n + 32) else c.

Fixpoint toLowerCase (s : string) : string :=
  match s with
  | EmptyString => EmptyString
  | String c rest => String (lower c) (toLowerCase rest)
  end.

(** The callback of [rl.question] (lines 23 to 41) on one line. *)
Inductive answer : Type :=
| closed
| ran (outcome : result job).

Definition prompt (input : string) : answer :=
  if (toLowerCase (trim input) =? "exit")%string then closed
  else
    match match_all input with
    | None => ran (Throw TypeError)
    | Some tokens =>
      let args := map convert tokens in
      ran (compress (nth_error args 0) (nth_error args 1)
                    (nth_error args 2) (nth_error args 3))
    end.

(** A word as one types it without quotes: not empty, no space in it,
    and no quote in front. *)
Definition plain (word : string) : bool :=
  match word with
  | EmptyString => false
  | String c _ =>
    (if ascii_dec c quote then false else true)
    && all (fun x => negb (is_space x)) word
  end.

End Prompt.

(** ** The tileset rewriter on a call stack of limited size *)

Module TilesetStack.

Import Tileset.
#[local] Open Scope string_scope.

(** A loop over a list that stops at the first exception. *)
Definition traverse {A B : Type} (f : A -> result B)
  : list A -> result (list B) :=
  fix go (l : list A) : result (list B) :=
    match l with
    | [] => Ok []
    | x :: rest =>
      let* y := f x in
      let* ys := go rest in
      Ok (y :: ys)
    end.

Section Frames.

Variable number : Type.

(** The stack that one call of [replaceB3dmWithGlb] takes, with what it
    calls besides itself: [map] and its callback on an array,
    [hasOwnProperty] on an object, [replace] on a string. The sizes are
    the engine's; they are left open. *)
Variable array_frame object_frame leaf_frame : nat.

Definition frame (obj : JSON number) : nat :=
  match obj with
  | JArray _ => array_frame
  | JObject _ => object_frame
  | _ => leaf_frame
  end.

(** [replaceB3dmWithGlb] with [stack] left: the function calls itself
    once per level of nesting, and a call that does not fit is a
    RangeError (the engine's stack overflow). Otherwise it proceeds as
    [Tileset.replaceB3dmWithGlb] does. *)
Fixpoint replaceB3dmWithGlb_on (obj : JSON number) (stack : nat)
  : result (JSON number) :=
  if (stack <? frame obj)%nat then Throw RangeError
  else
    let stack' := (stack - frame obj)%nat in
    match obj with
    | JString s => Ok (JString (replace_b3dm s))
    | JArray items =>
      let* items' :=
        traverse (fun item => replaceB3dmWithGlb_on item stack') items in
      Ok (JArray items')
    | JObject members =>
      let* members' :=
        traverse
          (fun kv : string * JSON number =>
             match kv with
             | (key, value) =>
               let* own := hasOwnProperty number members key in
               let* value' :=
                 if own then replaceB3dmWithGlb_on value stack'
                 else Ok value in
               Ok (key, value')
             end) members in
      Ok (JObject members')
    | _ => Ok obj
    end.

(** The stack that the deepest chain of calls on [obj] takes. *)
Fixpoint needs (obj : JSON number) : nat :=
  (frame obj
   + match obj with
     | JArray items => fold_right (fun v n => Nat.max (needs v) n) 0 items
     | JObject members =>
       fold_right (fun kv n => match kv with
                               | (_, v) => Nat.max (needs v) n
                               end) 0 members
     | _ => 0
     end)%nat.

End Frames.

Arguments frame {number} array_frame object_frame leaf_frame obj.
Arguments replaceB3dmWithGlb_on {number} array_frame object_frame leaf_frame
  obj stack.
Arguments needs {number} array_frame object_frame leaf_frame obj.

(** [depth] arrays, one inside the other, around [inner]. *)
Fixpoint nested (depth : nat) (inner : JSON Z) : JSON Z :=
  match depth with
  | O => inner
  | S depth' => JArray [nested depth' inner]
  end.

End TilesetStack.

(** ** Runs of the coordinator in which workers may exit silently *)

Module SchedulerRuns.

Import Scheduler.

(** The exits of workers that had sent nothing. *)
Definition silent_exits (evs : list event) : nat :=
  List.length (filter (fun ev => negb (is_signal ev)) evs).

Definition signals (evs : list event) : nat :=
  List.length (filter is_signal evs).

Section Lost.

Variable files : list string.
Variable numCPUs : Z.

(** The invariant of the coordinator with [lost] workers gone without
    a signal: each of them is still counted as active. *)
Definition accounted (lost : nat) (s : State) : Prop :=
  activeProcesses s = Z.of_nat (List.length (children s) + lost)
  /\ (completedTasks s <= totalFiles files)%nat
  /\ forked s = firstn (completedTasks s) files
  /\ (List.length (progress s) + List.length (children s) + lost
      = completedTasks s)%nat
  /\ (activeProcesses s <= numCPUs)%Z
  /\ NoDup (map pid (children s))
  /\ (forall c, In c (children s) -> (pid c < List.length (forked s))%nat).

(** The counters that the progress lines show: the [n]-th line says
    [n] processed and [totalFiles - n] remaining. *)
Definition counted (s : State) : Prop :=
  map processed (progress s)
  = map Z.of_nat (seq 1 (List.length (progress s)))
  /\ map remainingFiles (progress s)
     = map (fun n => Z.of_nat (totalFiles files) - Z.of_nat n)%Z
           (seq 1 (List.length (progress s))).

End Lost.

End SchedulerRuns.

(** ** Further inputs *)

Module Samples.

Import WorkerRun CommandLine.
#[local] Open Scope string_scope.

(** A world in which everything succeeds on a b3dm tile holding a
    scene with one PNG texture. *)
Definition fine : World :=
  {| existsSync := true;
     readFileSync := returns ContainerSpec.scenario_A;
     readBinary := fun _ => Some Scenarios.png_scene;
     read := Some Scenarios.png_scene;
     transform := fun steps document => Worker.applyPlan document steps;
     writeBinary := fun _ => Some (repeat x67 8);
     writeFileSync := returns tt;
     unlinkSync := returns tt;
     executionTime := "0.42";
     rangeErrorMessage := "out of range" |}.

Definition worker_argv : list string :=
  ["node"; "worker.js"; "tiles/0/0.b3dm"; "true"; "true"].

(** A file of 40 bytes whose header declares no tables and a total
    length of 0. *)
Definition zero_total : Buffer.t :=
  (ContainerSpec.header_bytes ContainerSpec.b3dm_magic 1 0 0 0 0 0
   ++ repeat x67 12)%list.

End Samples.

(** * Facts *)

(** ** Bytes and 32-bit little-endian integers *)

Module BufferFacts.

Import Buffer.

Lemma byte_val_range (b : byte) : 0 <= byte_val b < 256.
Proof.
  unfold byte_val.
  pose proof (Byte.to_N_bounded b) as H.
  lia.
Qed.

Lemma byte_of_Z_val (b : byte) : byte_of_Z (byte_val b) = b.
Proof.
  unfold byte_of_Z.
  rewrite Z.mod_small by apply byte_val_range.
  unfold byte_val. rewrite N2Z.id, Byte.of_to_N. reflexivity.
Qed.

Lemma byte_of_Z_shift (z k : Z) : byte_of_Z (z + k * 256) = byte_of_Z z.
Proof.
  unfold byte_of_Z. rewrite Z.mod_add by lia. reflexivity.
Qed.

Lemma byte_val_of_Z (z : Z) : byte_val (byte_of_Z z) = z mod 256.
Proof.
  unfold byte_of_Z, byte_val.
  pose proof (Z.mod_pos_bound z 256 ltac:(lia)) as Hr.
  destruct (Byte.of_N (Z.to_N (z mod 256))) as [b|] eqn:E.
  - apply Byte.to_of_N in E. rewrite E. lia.
  - apply Byte.of_N_None_iff in E. lia.
Qed.

Lemma le32_range (b0 b1 b2 b3 : byte) : 0 <= le32 b0 b1 b2 b3 < 2 ^ 32.
Proof.
  unfold le32.
  pose proof (byte_val_range b0). pose proof (byte_val_range b1).
  pose proof (byte_val_range b2). pose proof (byte_val_range b3).
  lia.
Qed.

Lemma toInt32_range (u : Z) :
  0 <= u < 2 ^ 32 -> - 2 ^ 31 <= toInt32 u <= 2 ^ 31 - 1.
Proof.
  unfold toInt32. destruct (u <? 2 ^ 31) eqn:E.
  - apply Z.ltb_lt in E. lia.
  - apply Z.ltb_ge in E. lia.
Qed.

(** The stored bytes only depend on the value modulo 2^32. *)
Lemma int32_bytes_wrap (v k : Z) :
  int32_bytes (v + k * 2 ^ 32) = int32_bytes v.
Proof.
  unfold int32_bytes.
  rewrite !Z.shiftr_div_pow2 by lia.
  replace (v + k * 2 ^ 32) with (v + (k * 2 ^ 24) * 256) at 1 by lia.
  rewrite byte_of_Z_shift.
  replace ((v + k * 2 ^ 32) / 2 ^ 8) with (v / 2 ^ 8 + (k * 2 ^ 16) * 256)
    by (replace (v + k * 2 ^ 32) with (v + (k * 2 ^ 24) * 2 ^ 8) by lia;
        rewrite Z.div_add by lia; lia).
  rewrite byte_of_Z_shift.
  replace ((v + k * 2 ^ 32) / 2 ^ 16) with (v / 2 ^ 16 + (k * 2 ^ 8) * 256)
    by (replace (v + k * 2 ^ 32) with (v + (k * 2 ^ 16) * 2 ^ 16) by lia;
        rewrite Z.div_add by lia; lia).
  rewrite byte_of_Z_shift.
  replace ((v + k * 2 ^ 32) / 2 ^ 24) with (v / 2 ^ 24 + k * 256)
    by (replace (v + k * 2 ^ 32) with (v + (k * 2 ^ 8) * 2 ^ 24) by lia;
        rewrite Z.div_add by lia; lia).
  rewrite byte_of_Z_shift.
  reflexivity.
Qed.

Lemma int32_bytes_le32 (b0 b1 b2 b3 : byte) :
  int32_bytes (le32 b0 b1 b2 b3) = [b0; b1; b2; b3].
Proof.
  unfold int32_bytes, le32.
  rewrite !Z.shiftr_div_pow2 by lia.
  pose proof (byte_val_range b0) as H0. pose proof (byte_val_range b1) as H1.
  pose proof (byte_val_range b2) as H2. pose proof (byte_val_range b3) as H3.
  set (v0 := byte_val b0) in *. set (v1 := byte_val b1) in *.
  set (v2 := byte_val b2) in *. set (v3 := byte_val b3) in *.
  replace (v0 + v1 * 2 ^ 8 + v2 * 2 ^ 16 + v3 * 2 ^ 24)
    with (v0 + (v1 + v2 * 2 ^ 8 + v3 * 2 ^ 16) * 256) at 1 by lia.
  rewrite byte_of_Z_shift.
  replace ((v0 + v1 * 2 ^ 8 + v2 * 2 ^ 16 + v3 * 2 ^ 24) / 2 ^ 8)
    with (v1 + (v2 + v3 * 2 ^ 8) * 256)
    by (apply Z.div_unique with (r := v0); lia).
  rewrite byte_of_Z_shift.
  replace ((v0 + v1 * 2 ^ 8 + v2 * 2 ^ 16 + v3 * 2 ^ 24) / 2 ^ 16)
    with (v2 + v3 * 256)
    by (apply Z.div_unique with (r := v0 + v1 * 2 ^ 8); lia).
  rewrite byte_of_Z_shift.
  replace ((v0 + v1 * 2 ^ 8 + v2 * 2 ^ 16 + v3 * 2 ^ 24) / 2 ^ 24)
    with v3
    by (apply Z.div_unique with (r := v0 + v1 * 2 ^ 8 + v2 * 2 ^ 16); lia).
  subst v0 v1 v2 v3. rewrite !byte_of_Z_val. reflexivity.
Qed.

(** Writing back what [readInt32LE] read restores the four bytes. *)
Lemma int32_bytes_toInt32 (b0 b1 b2 b3 : byte) :
  int32_bytes (toInt32 (le32 b0 b1 b2 b3)) = [b0; b1; b2; b3].
Proof.
  unfold toInt32. destruct (le32 b0 b1 b2 b3 <? 2 ^ 31).
  - apply int32_bytes_le32.
  - replace (le32 b0 b1 b2 b3 - 2 ^ 32)
      with (le32 b0 b1 b2 b3 + (-1) * 2 ^ 32) by lia.
    rewrite int32_bytes_wrap. apply int32_bytes_le32.
Qed.

(** Reading back what [writeInt32LE] stored restores the value. *)
Lemma toInt32_int32_bytes (v : Z) :
  - 2 ^ 31 <= v <= 2 ^ 31 - 1 ->
  match int32_bytes v with
  | [b0; b1; b2; b3] => toInt32 (le32 b0 b1 b2 b3) = v
  | _ => False
  end.
Proof.
  intros Hv. unfold int32_bytes, le32.
  rewrite !byte_val_of_Z, !Z.shiftr_div_pow2 by lia.
  unfold toInt32.
  assert (Hdec : v mod 256 + (v / 2 ^ 8) mod 256 * 2 ^ 8
                 + (v / 2 ^ 16) mod 256 * 2 ^ 16
                 + (v / 2 ^ 24) mod 256 * 2 ^ 24 = v mod 2 ^ 32).
  { pose proof (Z.div_mod v 256 ltac:(lia)) as E0.
    pose proof (Z.div_mod (v / 256) 256 ltac:(lia)) as E1.
    pose proof (Z.div_mod (v / 256 / 256) 256 ltac:(lia)) as E2.
    pose proof (Z.div_mod (v / 256 / 256 / 256) 256 ltac:(lia)) as E3.
    pose proof (Z.mod_pos_bound v 256 ltac:(lia)).
    pose proof (Z.mod_pos_bound (v / 256) 256 ltac:(lia)).
    pose proof (Z.mod_pos_bound (v / 256 / 256) 256 ltac:(lia)).
    pose proof (Z.mod_pos_bound (v / 256 / 256 / 256) 256 ltac:(lia)).
    replace (v / 2 ^ 8) with (v / 256) by reflexivity.
    replace (v / 2 ^ 16) with (v / 256 / 256)
      by (rewrite Z.div_div by lia; reflexivity).
    replace (v / 2 ^ 24) with (v / 256 / 256 / 256)
      by (rewrite !Z.div_div by lia; reflexivity).
    apply Z.mod_unique with (q := v / 256 / 256 / 256 / 256); lia. }
  rewrite Hdec.
  pose proof (Z.mod_pos_bound v (2 ^ 32) ltac:(lia)) as Hm.
  destruct (Z_lt_dec v 0) as [Hneg|Hpos].
  - assert (v mod 2 ^ 32 = v + 2 ^ 32)
      by (symmetry; apply Z.mod_unique with (q := -1); lia).
    destruct (v mod 2 ^ 32 <? 2 ^ 31) eqn:E;
      [apply Z.ltb_lt in E | apply Z.ltb_ge in E]; lia.
  - rewrite Z.mod_small by lia.
    destruct (v <? 2 ^ 31) eqn:E;
      [apply Z.ltb_lt in E | apply Z.ltb_ge in E]; lia.
Qed.

End BufferFacts.

Module CodecFacts.

Import Buffer BufferFacts.

Lemma range_check (v : Z) :
  ((v <? - 2 ^ 31) || (2 ^ 31 - 1 <? v) = false) <-> in_int32 v.
Proof.
  unfold in_int32. rewrite orb_false_iff, !Z.ltb_ge. lia.
Qed.

Lemma writeInt32LE_inv (buf buf' : Buffer.t) (v : Z) (off : nat) :
  writeInt32LE buf v off = Ok buf' ->
  in_int32 v /\ (off + 4 <= List.length buf)%nat
  /\ buf' = firstn off buf ++ int32_bytes v ++ skipn (off + 4) buf.
Proof.
  unfold writeInt32LE.
  destruct ((v <? - 2 ^ 31) || (2 ^ 31 - 1 <? v)) eqn:R; [discriminate|].
  destruct (List.length buf <? off + 4)%nat eqn:L; [discriminate|].
  intros [= <-]. apply range_check in R. apply Nat.ltb_ge in L. auto.
Qed.

Lemma writeInt32LE_ok (buf : Buffer.t) (v : Z) (off : nat) :
  in_int32 v -> (off + 4 <= List.length buf)%nat ->
  writeInt32LE buf v off
  = Ok (firstn off buf ++ int32_bytes v ++ skipn (off + 4) buf).
Proof.
  intros R L. unfold writeInt32LE.
  apply range_check in R. rewrite R.
  apply Nat.ltb_ge in L. rewrite L. reflexivity.
Qed.

Lemma int32_bytes_cons (v : Z) :
  exists a b c d, int32_bytes v = [a; b; c; d].
Proof. unfold int32_bytes. eauto. Qed.

(** The header buffer after the seven writes. *)
Lemma write_header_ok (h : Compress.Header) (glb : Buffer.t) :
  in_int32 (Compress.h_magic h) ->
  in_int32 (Compress.h_version h) ->
  in_int32 (Compress.totalLength h glb) ->
  in_int32 (Compress.h_featureTableJSONByteLength h) ->
  in_int32 (Compress.h_featureTableBinaryByteLength h) ->
  in_int32 (Compress.h_batchTableJSONByteLength h) ->
  in_int32 (Compress.h_batchTableBinaryByteLength h) ->
  Compress.write_header h glb
  = Ok (ContainerSpec.header_bytes
          (Compress.h_magic h) (Compress.h_version h)
          (Compress.totalLength h glb)
          (Compress.h_featureTableJSONByteLength h)
          (Compress.h_featureTableBinaryByteLength h)
          (Compress.h_batchTableJSONByteLength h)
          (Compress.h_batchTableBinaryByteLength h)).
Proof.
  intros R1 R2 R3 R4 R5 R6 R7.
  unfold Compress.write_header, ContainerSpec.header_bytes.
  destruct (int32_bytes_cons (Compress.h_magic h)) as (a1 & a2 & a3 & a4 & E1).
  destruct (int32_bytes_cons (Compress.h_version h)) as (b1 & b2 & b3 & b4 & E2).
  destruct (int32_bytes_cons (Compress.totalLength h glb))
    as (c1 & c2 & c3 & c4 & E3).
  destruct (int32_bytes_cons (Compress.h_featureTableJSONByteLength h))
    as (d1 & d2 & d3 & d4 & E4).
  destruct (int32_bytes_cons (Compress.h_featureTableBinaryByteLength h))
    as (e1 & e2 & e3 & e4 & E5).
  destruct (int32_bytes_cons (Compress.h_batchTableJSONByteLength h))
    as (f1 & f2 & f3 & f4 & E6).
  destruct (int32_bytes_cons (Compress.h_batchTableBinaryByteLength h))
    as (g1 & g2 & g3 & g4 & E7).
  rewrite (writeInt32LE_ok _ _ _ R1) by (cbn; lia).
  rewrite E1. cbn [bind alloc repeat firstn skipn app Nat.add].
  rewrite (writeInt32LE_ok _ _ _ R2) by (cbn; lia).
  rewrite E2. cbn [bind firstn skipn app Nat.add].
  rewrite (writeInt32LE_ok _ _ _ R3) by (cbn; lia).
  rewrite E3. cbn [bind firstn skipn app Nat.add].
  rewrite (writeInt32LE_ok _ _ _ R4) by (cbn; lia).
  rewrite E4. cbn [bind firstn skipn app Nat.add].
  rewrite (writeInt32LE_ok _ _ _ R5) by (cbn; lia).
  rewrite E5. cbn [bind firstn skipn app Nat.add].
  rewrite (writeInt32LE_ok _ _ _ R6) by (cbn; lia).
  rewrite E6. cbn [bind firstn skipn app Nat.add].
  rewrite (writeInt32LE_ok _ _ _ R7) by (cbn; lia).
  rewrite E7. cbn [bind firstn skipn app Nat.add].
  reflexivity.
Qed.

Lemma write_header_inv (h : Compress.Header) (glb header : Buffer.t) :
  Compress.write_header h glb = Ok header ->
  in_int32 (Compress.h_magic h)
  /\ in_int32 (Compress.h_version h)
  /\ in_int32 (Compress.totalLength h glb)
  /\ in_int32 (Compress.h_featureTableJSONByteLength h)
  /\ in_int32 (Compress.h_featureTableBinaryByteLength h)
  /\ in_int32 (Compress.h_batchTableJSONByteLength h)
  /\ in_int32 (Compress.h_batchTableBinaryByteLength h).
Proof.
  unfold Compress.write_header.
  repeat match goal with
         | |- context [writeInt32LE ?b ?v ?o] =>
           let E := fresh "E" in
           destruct (writeInt32LE b v o) eqn:E;
           [apply writeInt32LE_inv in E; destruct E as (? & _ & _)
           | discriminate];
           cbn [bind]
         end.
  intros _. repeat match goal with |- _ /\ _ => split end; assumption.
Qed.

Lemma header_bytes_length (m v t fj fb bj bb : Z) :
  List.length (ContainerSpec.header_bytes m v t fj fb bj bb) = 28%nat.
Proof. reflexivity. Qed.

(** Reading the fields back from a written header. *)
Lemma read_header_bytes (m v t fj fb bj bb : Z) (rest : Buffer.t) :
  in_int32 m -> in_int32 v -> in_int32 t -> in_int32 fj -> in_int32 fb ->
  in_int32 bj -> in_int32 bb ->
  let buf := ContainerSpec.header_bytes m v t fj fb bj bb ++ rest in
  readInt32LE buf 0 = Ok m /\ readInt32LE buf 4 = Ok v
  /\ readInt32LE buf 8 = Ok t /\ readInt32LE buf 12 = Ok fj
  /\ readInt32LE buf 16 = Ok fb /\ readInt32LE buf 20 = Ok bj
  /\ readInt32LE buf 24 = Ok bb.
Proof.
  intros R1 R2 R3 R4 R5 R6 R7 buf. subst buf.
  pose proof (toInt32_int32_bytes m R1) as T1.
  pose proof (toInt32_int32_bytes v R2) as T2.
  pose proof (toInt32_int32_bytes t R3) as T3.
  pose proof (toInt32_int32_bytes fj R4) as T4.
  pose proof (toInt32_int32_bytes fb R5) as T5.
  pose proof (toInt32_int32_bytes bj R6) as T6.
  pose proof (toInt32_int32_bytes bb R7) as T7.
  unfold ContainerSpec.header_bytes.
  destruct (int32_bytes m) as [|? [|? [|? [|? [|]]]]]; try contradiction.
  destruct (int32_bytes v) as [|? [|? [|? [|? [|]]]]]; try contradiction.
  destruct (int32_bytes t) as [|? [|? [|? [|? [|]]]]]; try contradiction.
  destruct (int32_bytes fj) as [|? [|? [|? [|? [|]]]]]; try contradiction.
  destruct (int32_bytes fb) as [|? [|? [|? [|? [|]]]]]; try contradiction.
  destruct (int32_bytes bj) as [|? [|? [|? [|? [|]]]]]; try contradiction.
  destruct (int32_bytes bb) as [|? [|? [|? [|? [|]]]]]; try contradiction.
  unfold readInt32LE, readUInt32LE.
  cbn [app skipn bind].
  rewrite T1, T2, T3, T4, T5, T6, T7. repeat split; reflexivity.
Qed.

End CodecFacts.

Module SliceFacts.

Import Buffer BufferFacts CodecFacts.

Lemma firstn_add_app {A : Type} (a b : nat) (l : list A) :
  firstn (a + b) l = firstn a l ++ firstn b (skipn a l).
Proof.
  revert l. induction a as [|a IH]; intros l.
  - reflexivity.
  - destruct l as [|x l].
    + cbn. rewrite firstn_nil. reflexivity.
    + cbn. rewrite IH. reflexivity.
Qed.

Ltac unbool :=
  repeat match goal with
         | H : (_ =? _) = true |- _ => apply Z.eqb_eq in H
         | H : (_ =? _) = false |- _ => apply Z.eqb_neq in H
         | H : (_ <? _) = true |- _ => apply Z.ltb_lt in H
         | H : (_ <? _) = false |- _ => apply Z.ltb_ge in H
         end.

Lemma adjustOffset_inside (o len : Z) :
  0 <= o <= len -> adjustOffset o len = o.
Proof.
  intros H. unfold adjustOffset.
  destruct (o =? 0) eqn:E0; unbool; [lia|].
  destruct (o <? 0) eqn:E1; unbool; [lia|].
  destruct (o <? len) eqn:E2; unbool; lia.
Qed.

Lemma adjustOffset_beyond (o len : Z) :
  0 <= len <= o -> adjustOffset o len = len.
Proof.
  intros H. unfold adjustOffset.
  destruct (o =? 0) eqn:E0; unbool; [lia|].
  destruct (o <? 0) eqn:E1; unbool; [lia|].
  destruct (o <? len) eqn:E2; unbool; lia.
Qed.

(** Whatever the index, the normalised one lies inside the buffer. *)
Lemma adjustOffset_clamped (o len : Z) :
  0 <= len -> 0 <= adjustOffset o len <= len.
Proof.
  intros H. unfold adjustOffset.
  destruct (o =? 0) eqn:E0; unbool; [lia|].
  destruct (o <? 0) eqn:E1; unbool.
  - destruct (0 <? o + len) eqn:E3; unbool; lia.
  - destruct (o <? len) eqn:E2; unbool; lia.
Qed.

Lemma byteLength_nonneg (buf : Buffer.t) : 0 <= Buffer.byteLength buf.
Proof. unfold Buffer.byteLength. lia. Qed.

Lemma subarray_inside (buf : Buffer.t) (s e : Z) :
  0 <= s <= e -> e <= Buffer.byteLength buf ->
  subarray buf s e = firstn (Z.to_nat (e - s)) (skipn (Z.to_nat s) buf).
Proof.
  intros Hs He. unfold subarray.
  rewrite !adjustOffset_inside by lia.
  destruct (s <? e) eqn:E; unbool.
  - reflexivity.
  - replace (e - s) with 0 by lia. reflexivity.
Qed.

Lemma subarray_beyond (buf : Buffer.t) (s e : Z) :
  Buffer.byteLength buf <= s -> subarray buf s e = [].
Proof.
  intros Hs. unfold subarray.
  pose proof (byteLength_nonneg buf) as Hn.
  rewrite (adjustOffset_beyond s) by lia.
  unfold Buffer.byteLength. rewrite Nat2Z.id, skipn_all, firstn_nil.
  reflexivity.
Qed.

Lemma subarray_clamped (buf : Buffer.t) (s e : Z) :
  0 <= s <= Buffer.byteLength buf -> Buffer.byteLength buf <= e ->
  subarray buf s e = skipn (Z.to_nat s) buf.
Proof.
  intros Hs He. unfold subarray.
  rewrite adjustOffset_inside, adjustOffset_beyond by lia.
  apply firstn_all2. rewrite length_skipn.
  unfold Buffer.byteLength in *.
  destruct (s <? Z.of_nat (List.length buf)) eqn:E; unbool; lia.
Qed.

Lemma subarray_from_inside (buf : Buffer.t) (s : Z) :
  0 <= s <= Buffer.byteLength buf ->
  subarray_from buf s = skipn (Z.to_nat s) buf.
Proof.
  intros Hs. unfold subarray_from.
  rewrite adjustOffset_inside by lia.
  apply firstn_all2. rewrite length_skipn.
  unfold Buffer.byteLength in *.
  destruct (s <? Z.of_nat (List.length buf)) eqn:E; unbool; lia.
Qed.

Lemma subarray_from_beyond (buf : Buffer.t) (s : Z) :
  Buffer.byteLength buf <= s -> subarray_from buf s = [].
Proof.
  intros Hs. unfold subarray_from.
  pose proof (byteLength_nonneg buf) as Hn.
  rewrite (adjustOffset_beyond s) by lia.
  unfold Buffer.byteLength. rewrite Nat2Z.id, skipn_all, firstn_nil.
  reflexivity.
Qed.

(** A slice never reaches outside the buffer. *)
Lemma subarray_length (buf : Buffer.t) (s e : Z) :
  (List.length (subarray buf s e) <= List.length buf)%nat.
Proof.
  unfold subarray. rewrite length_firstn, length_skipn. lia.
Qed.

(** Each read either succeeds, on four bytes that are there, or throws
    a RangeError. *)
Lemma readInt32LE_cases (buf : Buffer.t) (off : nat) :
  ((off + 4 <= List.length buf)%nat
   /\ exists v, readInt32LE buf off = Ok v /\ in_int32 v
                /\ firstn 4 (skipn off buf) = int32_bytes v)
  \/ ((List.length buf < off + 4)%nat
      /\ readInt32LE buf off = Throw RangeError).
Proof.
  unfold readInt32LE, readUInt32LE.
  pose proof (length_skipn off buf) as L.
  destruct (skipn off buf) as [|b0 [|b1 [|b2 [|b3 r]]]]; cbn in L;
    try (right; split; [lia | reflexivity]).
  left. split; [lia|].
  exists (toInt32 (le32 b0 b1 b2 b3)). cbn [bind firstn].
  split; [reflexivity|]. split.
  - apply toInt32_range, le32_range.
  - symmetry. apply int32_bytes_toInt32.
Qed.

Lemma readInt32LE_short (buf : Buffer.t) (off : nat) :
  (List.length buf < off + 4)%nat -> readInt32LE buf off = Throw RangeError.
Proof.
  intros H. destruct (readInt32LE_cases buf off) as [[L _]|[_ E]];
    [lia | exact E].
Qed.

Lemma readInt32LE_long (buf : Buffer.t) (off : nat) :
  (off + 4 <= List.length buf)%nat ->
  exists v, readInt32LE buf off = Ok v /\ in_int32 v
            /\ firstn 4 (skipn off buf) = int32_bytes v.
Proof.
  intros H. destruct (readInt32LE_cases buf off) as [[_ E]|[L _]];
    [exact E | lia].
Qed.

Lemma readInt32LE_throws (buf : Buffer.t) (off : nat) (e : error) :
  readInt32LE buf off = Throw e -> e = RangeError.
Proof.
  intros H. destruct (readInt32LE_cases buf off) as [[_ (v & E & _)]|[_ E]];
    congruence.
Qed.

End SliceFacts.

(** ** The container codec *)

Module CodecTheorems.

Import Buffer BufferFacts CodecFacts SliceFacts.

Ltac read_or_throw B o :=
  destruct (readInt32LE_cases B o) as [[_ (? & -> & _ & _)] | [_ ->]];
  cbn [bind]; [ | reflexivity].

Lemma compress_decode_short (B : Buffer.t) :
  (List.length B < 28)%nat -> Compress.decode B = Throw RangeError.
Proof.
  intros H. unfold Compress.decode.
  read_or_throw B 0%nat. read_or_throw B 4%nat. read_or_throw B 8%nat.
  read_or_throw B 12%nat. read_or_throw B 16%nat. read_or_throw B 20%nat.
  rewrite readInt32LE_short by lia. reflexivity.
Qed.

Lemma extract_decode_short (B : Buffer.t) :
  (List.length B < 28)%nat -> Extract.decode B = Throw RangeError.
Proof.
  intros H. unfold Extract.decode.
  read_or_throw B 4%nat. read_or_throw B 8%nat.
  read_or_throw B 12%nat. read_or_throw B 16%nat. read_or_throw B 20%nat.
  rewrite readInt32LE_short by lia. reflexivity.
Qed.

Lemma worker_glbBytes_short (B : Buffer.t) :
  (List.length B < 28)%nat -> Worker.glbBytes B = Throw RangeError.
Proof.
  intros H. unfold Worker.glbBytes, Worker.glbStart.
  read_or_throw B 12%nat. read_or_throw B 16%nat. read_or_throw B 20%nat.
  rewrite readInt32LE_short by lia. reflexivity.
Qed.

(** What a successful [decode] of [compress.js] has read and computed. *)
Lemma compress_decode_long (B : Buffer.t) :
  (28 <= List.length B)%nat ->
  exists m v t fj fb bj bb,
    in_int32 m /\ in_int32 v /\ in_int32 t /\ in_int32 fj /\ in_int32 fb
    /\ in_int32 bj /\ in_int32 bb
    /\ firstn 28 B = ContainerSpec.header_bytes m v t fj fb bj bb
    /\ readInt32LE B 8 = Ok t
    /\ Compress.decode B
       = Ok {| Compress.magic := m;
               Compress.version := v;
               Compress.byteLength := t;
               Compress.featureTableJSONByteLength := fj;
               Compress.featureTableBinaryByteLength := fb;
               Compress.batchTableJSONByteLength := bj;
               Compress.batchTableBinaryByteLength := bb;
               Compress.featureTableStart := 28;
               Compress.featureTableLength := fj + fb;
               Compress.featureTable := subarray B 28 (28 + (fj + fb));
               Compress.batchTableStart := 28 + fj + fb;
               Compress.batchTableLength := bj + bb;
               Compress.batchTable :=
                 subarray B (28 + fj + fb) (28 + fj + fb + (bj + bb));
               Compress.glbStart := 28 + fj + fb + (bj + bb);
               Compress.glbBytes := subarray B (28 + fj + fb + (bj + bb)) t |}.
Proof.
  intros H.
  destruct (readInt32LE_long B 0) as (m & E0 & R0 & F0); [lia|].
  destruct (readInt32LE_long B 4) as (v & E1 & R1 & F1); [lia|].
  destruct (readInt32LE_long B 8) as (t & E2 & R2 & F2); [lia|].
  destruct (readInt32LE_long B 12) as (fj & E3 & R3 & F3); [lia|].
  destruct (readInt32LE_long B 16) as (fb & E4 & R4 & F4); [lia|].
  destruct (readInt32LE_long B 20) as (bj & E5 & R5 & F5); [lia|].
  destruct (readInt32LE_long B 24) as (bb & E6 & R6 & F6); [lia|].
  exists m, v, t, fj, fb, bj, bb.
  repeat match goal with |- _ /\ _ => split end; try assumption.
  - unfold ContainerSpec.header_bytes.
    rewrite <- F0, <- F1, <- F2, <- F3, <- F4, <- F5, <- F6.
    change 28%nat with (4 + (4 + (4 + (4 + (4 + (4 + 4))))))%nat.
    rewrite (firstn_add_app 4). f_equal.
    rewrite (firstn_add_app 4), skipn_skipn. f_equal.
    rewrite (firstn_add_app 4), !skipn_skipn. f_equal.
    rewrite (firstn_add_app 4), !skipn_skipn. f_equal.
    rewrite (firstn_add_app 4), !skipn_skipn. f_equal.
    rewrite (firstn_add_app 4), !skipn_skipn. f_equal.
  - unfold Compress.decode. rewrite E0, E1, E2, E3, E4, E5, E6.
    reflexivity.
Qed.

Lemma extract_decode_long (B : Buffer.t) :
  (28 <= List.length B)%nat ->
  exists v t fj fb bj bb,
    readInt32LE B 8 = Ok t
    /\ Extract.decode B
       = Ok {| Extract.version := v;
               Extract.byteLength := t;
               Extract.featureTableJSONByteLength := fj;
               Extract.featureTableBinaryByteLength := fb;
               Extract.batchTableJSONByteLength := bj;
               Extract.batchTableBinaryByteLength := bb;
               Extract.featureTableStart := 28;
               Extract.featureTableLength := fj + fb;
               Extract.batchTableStart := 28 + fj + fb;
               Extract.batchTableLength := bj + bb;
               Extract.glbStart := 28 + fj + fb + (bj + bb);
               Extract.glbBytes := subarray B (28 + fj + fb + (bj + bb)) t |}.
Proof.
  intros H.
  destruct (readInt32LE_long B 4) as (v & E1 & _); [lia|].
  destruct (readInt32LE_long B 8) as (t & E2 & _); [lia|].
  destruct (readInt32LE_long B 12) as (fj & E3 & _); [lia|].
  destruct (readInt32LE_long B 16) as (fb & E4 & _); [lia|].
  destruct (readInt32LE_long B 20) as (bj & E5 & _); [lia|].
  destruct (readInt32LE_long B 24) as (bb & E6 & _); [lia|].
  exists v, t, fj, fb, bj, bb. split; [exact E2|].
  unfold Extract.decode. rewrite E1, E2, E3, E4, E5, E6. reflexivity.
Qed.

Lemma worker_glbBytes_long (B : Buffer.t) :
  (28 <= List.length B)%nat ->
  exists fj fb bj bb,
    readInt32LE B 12 = Ok fj /\ readInt32LE B 16 = Ok fb
    /\ readInt32LE B 20 = Ok bj /\ readInt32LE B 24 = Ok bb
    /\ Worker.glbStart B = Ok (28 + fj + fb + bj + bb)
    /\ Worker.glbBytes B = Ok (subarray_from B (28 + fj + fb + bj + bb)).
Proof.
  intros H.
  destruct (readInt32LE_long B 12) as (fj & E3 & _); [lia|].
  destruct (readInt32LE_long B 16) as (fb & E4 & _); [lia|].
  destruct (readInt32LE_long B 20) as (bj & E5 & _); [lia|].
  destruct (readInt32LE_long B 24) as (bb & E6 & _); [lia|].
  exists fj, fb, bj, bb.
  unfold Worker.glbBytes, Worker.glbStart.
  rewrite E3, E4, E5, E6. cbn [bind].
  repeat match goal with |- _ /\ _ => split end; reflexivity.
Qed.

End CodecTheorems.

Module ContainerCodec.

Import Buffer BufferFacts CodecFacts SliceFacts CodecTheorems.

(** C5 as the claim states it is refuted here: a 28-byte file whose
    header declares 500 bytes of feature table and a total of 1000
    bytes is decoded without any error; every slice comes back empty. *)
Lemma decode_accepts_overdeclared :
  let B := ContainerSpec.overdeclared in
  List.length B = 28%nat
  /\ exists p,
      Extract.decode B = Ok p
      /\ Extract.featureTableStart p + Extract.featureTableLength p
         > Buffer.byteLength B
      /\ Extract.glbStart p > Buffer.byteLength B
      /\ Extract.byteLength p <> Buffer.byteLength B
      /\ Extract.glbBytes p = [].
Proof.
  cbv zeta. split; [reflexivity|].
  eexists. split; [vm_compute; reflexivity|].
  cbn [Extract.featureTableStart Extract.featureTableLength
       Extract.glbStart Extract.byteLength Extract.glbBytes].
  unfold Buffer.byteLength.
  change (List.length ContainerSpec.overdeclared) with 28%nat.
  repeat split; try lia; discriminate.
Qed.

(** C5, amended: decoding fails exactly on buffers of fewer than 28
    bytes, and then with the RangeError of a header read; on every
    buffer of 28 bytes or more it succeeds, whatever the header
    declares. This holds for the three readers of the repository. *)
Theorem decode_fails_iff_short (B : Buffer.t) :
  (Extract.decode B = Throw RangeError <-> (List.length B < 28)%nat)
  /\ ((exists p, Extract.decode B = Ok p) <-> (28 <= List.length B)%nat)
  /\ (Compress.decode B = Throw RangeError <-> (List.length B < 28)%nat)
  /\ ((exists c, Compress.decode B = Ok c) <-> (28 <= List.length B)%nat)
  /\ (Worker.glbBytes B = Throw RangeError <-> (List.length B < 28)%nat)
  /\ ((exists g, Worker.glbBytes B = Ok g) <-> (28 <= List.length B)%nat).
Proof.
  destruct (Nat.lt_ge_cases (List.length B) 28) as [Hs|Hl].
  - pose proof (extract_decode_short B Hs) as E1.
    pose proof (compress_decode_short B Hs) as E2.
    pose proof (worker_glbBytes_short B Hs) as E3.
    rewrite E1, E2, E3.
    repeat match goal with |- _ /\ _ => split end;
      split; intros H; try assumption; try reflexivity; try lia;
      destruct H; discriminate.
  - destruct (extract_decode_long B Hl) as (v & t & fj & fb & bj & bb & _ & E1).
    destruct (compress_decode_long B Hl)
      as (m' & v' & t' & fj' & fb' & bj' & bb' & _ & _ & _ & _ & _ & _ & _ & _ & _ & E2).
    destruct (worker_glbBytes_long B Hl) as (a & b & c & d & _ & _ & _ & _ & _ & E3).
    rewrite E1, E2, E3.
    repeat match goal with |- _ /\ _ => split end;
      split; intros H; try assumption; try lia; try discriminate;
      eexists; reflexivity.
Qed.

(** C10: on a buffer of at least 28 bytes decoding always succeeds.
    The payload is the clamped slice from [glbStart] to the header's
    total length: it never reaches outside the buffer, it is empty when
    [glbStart] lies at or beyond the end, and it is everything from
    [glbStart] to the physical end when the total length lies beyond
    the end. The worker slices from [glbStart] to the physical end and
    does not depend on the four bytes of the total length at all. *)
Theorem decode_total_and_clamping (B : Buffer.t) :
  (28 <= List.length B)%nat ->
  (exists p,
      Extract.decode B = Ok p
      /\ Extract.glbBytes p
         = subarray B (Extract.glbStart p) (Extract.byteLength p)
      /\ (List.length (Extract.glbBytes p) <= List.length B)%nat
      /\ (Buffer.byteLength B <= Extract.glbStart p ->
          Extract.glbBytes p = [])
      /\ (0 <= Extract.glbStart p <= Buffer.byteLength B ->
          Buffer.byteLength B <= Extract.byteLength p ->
          Extract.glbBytes p = skipn (Z.to_nat (Extract.glbStart p)) B))
  /\ (exists s,
         Worker.glbStart B = Ok s
         /\ Worker.glbBytes B = Ok (subarray_from B s)
         /\ (Buffer.byteLength B <= s -> subarray_from B s = [])
         /\ (0 <= s <= Buffer.byteLength B ->
             subarray_from B s = skipn (Z.to_nat s) B)
         /\ forall t0 t1 t2 t3 : byte,
             let B' := firstn 8 B ++ [t0; t1; t2; t3] ++ skipn 12 B in
             Worker.glbStart B' = Ok s
             /\ Worker.glbBytes B' = Ok (subarray_from B' s)).
Proof.
  intros Hl. split.
  - destruct (extract_decode_long B Hl) as (v & t & fj & fb & bj & bb & _ & E).
    eexists. split; [exact E|].
    cbn [Extract.glbBytes Extract.glbStart Extract.byteLength].
    split; [reflexivity|]. split; [apply subarray_length|]. split.
    + apply subarray_beyond.
    + apply subarray_clamped.
  - destruct (worker_glbBytes_long B Hl)
      as (fj & fb & bj & bb & E3 & E4 & E5 & E6 & Es & Eg).
    exists (28 + fj + fb + bj + bb).
    split; [exact Es|]. split; [exact Eg|].
    split; [apply subarray_from_beyond|].
    split; [apply subarray_from_inside|].
    intros t0 t1 t2 t3 B'.
    assert (Hsk : forall off, (12 <= off)%nat -> skipn off B' = skipn off B).
    { intros off Hoff. subst B'.
      remember (skipn 12 B) as tail eqn:Et.
      rewrite skipn_app, length_firstn, Nat.min_l by lia.
      rewrite (skipn_all2 (firstn 8 B)) by (rewrite length_firstn; lia).
      cbn [app].
      replace (off - 8)%nat with (4 + (off - 12))%nat by lia.
      cbn [skipn Nat.add]. subst tail.
      rewrite skipn_skipn. f_equal. lia. }
    assert (Hrd : forall off, (12 <= off)%nat ->
                              readInt32LE B' off = readInt32LE B off).
    { intros off Hoff. unfold readInt32LE, readUInt32LE.
      rewrite Hsk by exact Hoff. reflexivity. }
    unfold Worker.glbBytes, Worker.glbStart.
    rewrite !Hrd by lia. rewrite E3, E4, E5, E6. cbn [bind].
    split; reflexivity.
Qed.

Lemma decode_total_and_clamping_witness :
  exists p, Extract.decode ContainerSpec.overdeclared = Ok p
            /\ Extract.glbBytes p = [].
Proof.
  destruct (decode_total_and_clamping ContainerSpec.overdeclared)
    as [(p & Hp & _ & _ & Hempty & _) _].
  - apply Nat.leb_le. reflexivity.
  - exists p. split; [exact Hp|].
    apply Hempty.
    vm_compute in Hp. injection Hp as <-. vm_compute. intros H. discriminate H.
Defined.

End ContainerCodec.

Module Reassembly.

Import Buffer BufferFacts CodecFacts SliceFacts CodecTheorems.

Lemma encode_inv (h : Compress.Header) (ft bt glb out : Buffer.t) :
  Compress.encode h ft bt glb = Ok out ->
  exists header,
    Compress.write_header h glb = Ok header
    /\ 0 <= Compress.totalLength h glb
    /\ out = firstn (Z.to_nat (Compress.totalLength h glb))
                    (header ++ ft ++ bt ++ glb)
             ++ repeat x00 (Z.to_nat (Compress.totalLength h glb)
                            - List.length (header ++ ft ++ bt ++ glb)).
Proof.
  unfold Compress.encode.
  destruct (Compress.write_header h glb) as [header|e] eqn:W;
    cbn [bind]; [|discriminate].
  unfold concat.
  destruct (Compress.totalLength h glb <? 0) eqn:N; [discriminate|].
  apply Z.ltb_ge in N. intros [= <-].
  exists header. cbn [List.concat]. rewrite app_nil_r. auto.
Qed.

Lemma encode_ok (h : Compress.Header) (ft bt glb header : Buffer.t) :
  Compress.write_header h glb = Ok header ->
  0 <= Compress.totalLength h glb ->
  Compress.encode h ft bt glb
  = Ok (firstn (Z.to_nat (Compress.totalLength h glb))
               (header ++ ft ++ bt ++ glb)
        ++ repeat x00 (Z.to_nat (Compress.totalLength h glb)
                       - List.length (header ++ ft ++ bt ++ glb))).
Proof.
  intros W N. unfold Compress.encode. rewrite W. cbn [bind].
  unfold concat. apply Z.ltb_ge in N. rewrite N.
  cbn [List.concat]. rewrite app_nil_r. reflexivity.
Qed.

Lemma slices_join {A : Type} (B : list A) (a b g : nat) :
  firstn 28 B ++ firstn a (skipn 28 B) ++ firstn b (skipn (28 + a) B)
  ++ firstn g (skipn (28 + a + b) B)
  = firstn (28 + a + b + g) B.
Proof.
  rewrite (firstn_add_app (28 + a + b) g).
  rewrite (firstn_add_app (28 + a) b).
  rewrite (firstn_add_app 28 a).
  rewrite <- !app_assoc. reflexivity.
Qed.

Lemma segment_of_prefix {A : Type} (B : list A) (T s n : nat) :
  (s + n <= T)%nat ->
  firstn n (skipn s (firstn T B)) = firstn n (skipn s B).
Proof.
  intros H. rewrite skipn_firstn_comm, firstn_firstn, Nat.min_l by lia.
  reflexivity.
Qed.

(** C3: for a valid container, decoding and re-assembling with the
    payload as it was read gives the first [byteLength] bytes of the
    file back; decoding that output yields the same feature table, the
    same batch table and the same payload, and these are the segments
    of the input at the offsets the header gives. *)
Theorem roundtrip_preserves_segments (B : Buffer.t) :
  ContainerSpec.valid B = true ->
  exists c out c',
    Compress.decode B = Ok c
    /\ Compress.reencode B = Ok out
    /\ out = firstn (Z.to_nat (Compress.byteLength c)) B
    /\ Compress.decode out = Ok c'
    /\ Compress.featureTable c' = Compress.featureTable c
    /\ Compress.batchTable c' = Compress.batchTable c
    /\ Compress.glbBytes c' = Compress.glbBytes c
    /\ Compress.featureTable c
       = ContainerSpec.segment B 28 (Compress.featureTableLength c)
    /\ Compress.batchTable c
       = ContainerSpec.segment B (Compress.batchTableStart c)
                               (Compress.batchTableLength c)
    /\ Compress.glbBytes c
       = ContainerSpec.segment B (Compress.glbStart c)
                               (Compress.byteLength c - Compress.glbStart c).
Proof.
  intros V. unfold ContainerSpec.valid in V.
  destruct (Nat.lt_ge_cases (List.length B) 28) as [Hs|Hl];
    [rewrite compress_decode_short in V by exact Hs; discriminate|].
  destruct (compress_decode_long B Hl)
    as (m & v & t & fj & fb & bj & bb
        & Rm & Rv & Rt & Rfj & Rfb & Rbj & Rbb & Hhead & _ & E).
  rewrite E in V.
  cbn [Compress.featureTableJSONByteLength Compress.featureTableBinaryByteLength
       Compress.batchTableJSONByteLength Compress.batchTableBinaryByteLength
       Compress.glbStart Compress.byteLength] in V.
  rewrite !andb_true_iff, !Z.leb_le in V.
  destruct V as (((((Vfj & Vfb) & Vbj) & Vbb) & Vgs) & Vt).
  unfold Buffer.byteLength in Vt.
  set (a := Z.to_nat (fj + fb)). set (b := Z.to_nat (bj + bb)).
  set (g := Z.to_nat (t - (28 + fj + fb + (bj + bb)))).
  assert (Ht : Z.to_nat t = (28 + a + b + g)%nat) by (subst a b g; lia).
  assert (HT : (28 + a + b + g <= List.length B)%nat) by lia.
  assert (Hft : subarray B 28 (28 + (fj + fb)) = firstn a (skipn 28 B)).
  { rewrite subarray_inside by (unfold Buffer.byteLength; lia).
    subst a. f_equal. lia. }
  assert (Hbt : subarray B (28 + fj + fb) (28 + fj + fb + (bj + bb))
                = firstn b (skipn (28 + a) B)).
  { rewrite subarray_inside by (unfold Buffer.byteLength; lia).
    subst a b. f_equal; [lia|]. f_equal. lia. }
  assert (Hglb : subarray B (28 + fj + fb + (bj + bb)) t
                 = firstn g (skipn (28 + a + b) B)).
  { rewrite subarray_inside by (unfold Buffer.byteLength; lia).
    subst a b g. f_equal. f_equal. lia. }
  assert (Lglb : List.length (firstn g (skipn (28 + a + b) B)) = g)
    by (rewrite length_firstn, length_skipn; lia).
  set (c := {| Compress.magic := m |}) in E.
  set (h := Compress.header_of c).
  assert (Htot : Compress.totalLength h (Compress.glbBytes c) = t).
  { unfold Compress.totalLength, h, c.
    cbn [Compress.header_of Compress.h_featureTableJSONByteLength
         Compress.h_featureTableBinaryByteLength
         Compress.h_batchTableJSONByteLength
         Compress.h_batchTableBinaryByteLength
         Compress.featureTableJSONByteLength
         Compress.featureTableBinaryByteLength
         Compress.batchTableJSONByteLength
         Compress.batchTableBinaryByteLength Compress.glbBytes].
    rewrite Hglb. unfold Buffer.byteLength. rewrite Lglb. subst g. lia. }
  assert (W : Compress.write_header h (Compress.glbBytes c) = Ok (firstn 28 B)).
  { rewrite Hhead, write_header_ok; rewrite ?Htot; try assumption.
    reflexivity. }
  assert (Hout : Compress.reencode B = Ok (firstn (28 + a + b + g) B)).
  { unfold Compress.reencode. rewrite E. cbn [bind]. fold h.
    rewrite (encode_ok _ _ _ _ _ W) by (rewrite Htot; lia).
    rewrite Htot, Ht. unfold c.
    cbn [Compress.featureTable Compress.batchTable Compress.glbBytes].
    rewrite Hft, Hbt, Hglb, slices_join.
    rewrite firstn_firstn, Nat.min_id, length_firstn.
    replace (28 + a + b + g - Nat.min (28 + a + b + g) (List.length B))%nat
      with 0%nat by lia.
    cbn [repeat]. rewrite app_nil_r. reflexivity. }
  set (out := firstn (28 + a + b + g) B) in *.
  assert (Lout : List.length out = (28 + a + b + g)%nat)
    by (unfold out; rewrite length_firstn; lia).
  assert (Hsplit : out
                   = ContainerSpec.header_bytes m v t fj fb bj bb
                     ++ skipn 28 out).
  { rewrite <- Hhead.
    replace (firstn 28 B) with (firstn 28 out)
      by (unfold out; rewrite firstn_firstn; f_equal; lia).
    symmetry. apply firstn_skipn. }
  destruct (read_header_bytes m v t fj fb bj bb (skipn 28 out)
                              Rm Rv Rt Rfj Rfb Rbj Rbb)
    as (E0 & E1 & E2 & E3 & E4 & E5 & E6).
  rewrite <- Hsplit in E0, E1, E2, E3, E4, E5, E6.
  exists c. exists out. eexists.
  split; [exact E|]. split; [exact Hout|].
  split; [cbn [Compress.byteLength c]; rewrite Ht; reflexivity|].
  split.
  { unfold Compress.decode. rewrite E0, E1, E2, E3, E4, E5, E6.
    cbn [bind]. reflexivity. }
  cbn [Compress.featureTable Compress.batchTable Compress.glbBytes
       Compress.featureTableLength Compress.batchTableStart
       Compress.batchTableLength Compress.glbStart Compress.byteLength c].
  unfold ContainerSpec.segment.
  rewrite Hft, Hbt, Hglb.
  rewrite !subarray_inside by (unfold Buffer.byteLength; lia).
  replace (Z.to_nat (28 + (fj + fb) - 28)) with a by lia.
  replace (Z.to_nat (28 + fj + fb + (bj + bb) - (28 + fj + fb)))
    with b by lia.
  replace (Z.to_nat (t - (28 + fj + fb + (bj + bb)))) with g by reflexivity.
  replace (Z.to_nat 28) with 28%nat by reflexivity.
  replace (Z.to_nat (28 + fj + fb)) with (28 + a)%nat by lia.
  replace (Z.to_nat (28 + fj + fb + (bj + bb))) with (28 + a + b)%nat by lia.
  replace (Z.to_nat (fj + fb)) with a by reflexivity.
  replace (Z.to_nat (bj + bb)) with b by reflexivity.
  unfold out.
  rewrite !segment_of_prefix by lia.
  repeat split; reflexivity.
Qed.

Lemma roundtrip_preserves_segments_witness :
  exists out, Compress.reencode ContainerSpec.scenario_A = Ok out.
Proof.
  destruct (roundtrip_preserves_segments ContainerSpec.scenario_A)
    as (c & out & c' & _ & H & _).
  - vm_compute. reflexivity.
  - exists out. exact H.
Defined.

End Reassembly.

Module HeaderArithmetic.

Import Buffer BufferFacts CodecFacts SliceFacts CodecTheorems Reassembly.

(** C4 as the claim states it is refuted here: the header declares a
    feature table of 10 bytes, the side tables supplied hold none and
    the payload holds 4 bytes. The total written is 28 + 10 + 0 + 4 = 42,
    not the 32 that the supplied bytes add up to: the table lengths
    are taken from the header fields, not measured. The same happens on
    a file: with a declared feature table of -4 bytes the slices hold 0
    and 4 bytes, the payload 8, and the total written is 36, not 40. *)
Lemma encode_total_uses_declared_lengths :
  (let h := ContainerSpec.short_tables_header in
   let glb := repeat x67 4 in
   exists out,
     Compress.encode h [] [] glb = Ok out
     /\ readInt32LE out 8 = Ok 42
     /\ 28 + Buffer.byteLength [] + Buffer.byteLength []
        + Buffer.byteLength glb = 32)
  /\ (exists c out,
         Compress.decode ContainerSpec.negative_table = Ok c
         /\ Compress.encode (Compress.header_of c) (Compress.featureTable c)
                            (Compress.batchTable c) (Compress.glbBytes c)
            = Ok out
         /\ readInt32LE out 8 = Ok 36
         /\ 28 + Buffer.byteLength (Compress.featureTable c)
            + Buffer.byteLength (Compress.batchTable c)
            + Buffer.byteLength (Compress.glbBytes c) = 40).
Proof.
  split.
  - cbv zeta. eexists.
    split; [vm_compute; reflexivity|].
    split; vm_compute; reflexivity.
  - eexists. eexists.
    split; [vm_compute; reflexivity|].
    split; [vm_compute; reflexivity|].
    split; vm_compute; reflexivity.
Qed.

(** C4, amended: whenever the re-assembly succeeds, the total it
    writes at offset 8 is 28 plus the two table lengths that the input
    header declares plus the measured length of the payload; the four
    table length fields (and magic and version) are written as given;
    the output has exactly that many bytes. When the side tables have
    the lengths the header declares, the total is the sum of the
    actual lengths and the output is header, tables and payload. *)
Theorem encode_recomputes_total
        (h : Compress.Header) (ft bt glb out : Buffer.t) :
  Compress.encode h ft bt glb = Ok out ->
  let total :=
    28 + (Compress.h_featureTableJSONByteLength h
          + Compress.h_featureTableBinaryByteLength h)
    + (Compress.h_batchTableJSONByteLength h
       + Compress.h_batchTableBinaryByteLength h)
    + Buffer.byteLength glb in
  exists header,
    Compress.write_header h glb = Ok header
    /\ List.length header = 28%nat
    /\ readInt32LE header 0 = Ok (Compress.h_magic h)
    /\ readInt32LE header 4 = Ok (Compress.h_version h)
    /\ readInt32LE header 8 = Ok total
    /\ readInt32LE header 12 = Ok (Compress.h_featureTableJSONByteLength h)
    /\ readInt32LE header 16 = Ok (Compress.h_featureTableBinaryByteLength h)
    /\ readInt32LE header 20 = Ok (Compress.h_batchTableJSONByteLength h)
    /\ readInt32LE header 24 = Ok (Compress.h_batchTableBinaryByteLength h)
    /\ Buffer.byteLength out = total
    /\ out = firstn (Z.to_nat total) (header ++ ft ++ bt ++ glb)
             ++ repeat x00 (Z.to_nat total
                            - List.length (header ++ ft ++ bt ++ glb))
    /\ (Buffer.byteLength ft
        = Compress.h_featureTableJSONByteLength h
          + Compress.h_featureTableBinaryByteLength h ->
        Buffer.byteLength bt
        = Compress.h_batchTableJSONByteLength h
          + Compress.h_batchTableBinaryByteLength h ->
        out = header ++ ft ++ bt ++ glb
        /\ readInt32LE out 8
           = Ok (28 + Buffer.byteLength ft + Buffer.byteLength bt
                 + Buffer.byteLength glb)).
Proof.
  intros He total.
  destruct (encode_inv _ _ _ _ _ He) as (header & W & N & Hout).
  destruct (write_header_inv _ _ _ W) as (R1 & R2 & R3 & R4 & R5 & R6 & R7).
  pose proof (write_header_ok h glb R1 R2 R3 R4 R5 R6 R7) as W'.
  rewrite W in W'. injection W' as Hh.
  fold (Compress.totalLength h glb) in total.
  destruct (read_header_bytes _ _ _ _ _ _ _ [] R1 R2 R3 R4 R5 R6 R7)
    as (E0 & E1 & E2 & E3 & E4 & E5 & E6).
  rewrite app_nil_r, <- Hh in E0, E1, E2, E3, E4, E5, E6.
  assert (Lh : List.length header = 28%nat) by (rewrite Hh; reflexivity).
  exists header.
  repeat match goal with |- _ /\ _ => split end; try assumption.
  - rewrite Hout. unfold Buffer.byteLength.
    rewrite length_app, length_firstn, repeat_length. subst total. lia.
  - intros Hft Hbt.
    assert (Ld : Z.of_nat (List.length (header ++ ft ++ bt ++ glb)) = total).
    { rewrite !length_app, Lh. unfold Buffer.byteLength in *.
      subst total. unfold Compress.totalLength. unfold Buffer.byteLength. lia. }
    assert (Eo : out = header ++ ft ++ bt ++ glb).
    { rewrite Hout. rewrite firstn_all2 by (subst total; lia).
      replace (Z.to_nat (Compress.totalLength h glb)
               - List.length (header ++ ft ++ bt ++ glb))%nat
        with 0%nat by (subst total; lia).
      apply app_nil_r. }
    split; [exact Eo|].
    destruct (read_header_bytes _ _ _ _ _ _ _ (ft ++ bt ++ glb)
                                R1 R2 R3 R4 R5 R6 R7)
      as (_ & _ & E2' & _).
    rewrite <- Hh, <- Eo in E2'. rewrite E2'. f_equal.
    unfold Compress.totalLength. lia.
Qed.

Lemma encode_recomputes_total_witness :
  exists header,
    Compress.write_header ContainerSpec.short_tables_header (repeat x67 4)
    = Ok header
    /\ readInt32LE header 8 = Ok 42.
Proof.
  edestruct (encode_recomputes_total
               ContainerSpec.short_tables_header [] [] (repeat x67 4))
    as (header & W & _ & _ & _ & E & _).
  - vm_compute. reflexivity.
  - exists header. split; [exact W | exact E].
Defined.

End HeaderArithmetic.

Module Offsets.

Import Buffer BufferFacts CodecFacts SliceFacts CodecTheorems.



End Offsets.

(** ** The inspector *)

Module InspectorFacts.

Import Buffer Worker.

Lemma identify_fold (buffer : Buffer.t) (l : list nat) (f1 f2 : bool) :
  fold_left
    (fun '(isKTX1, isKTX2) i =>
       (if differs buffer KTX1 i then false else isKTX1,
        if differs buffer KTX2 i then false else isKTX2))
    l (f1, f2)
  = (f1 && forallb (fun i => negb (differs buffer KTX1 i)) l,
     f2 && forallb (fun i => negb (differs buffer KTX2 i)) l).
Proof.
  revert f1 f2. induction l as [|i l IH]; intros f1 f2.
  - cbn. rewrite !andb_true_r. reflexivity.
  - cbn [fold_left forallb]. rewrite IH.
    destruct (differs buffer KTX1 i), (differs buffer KTX2 i);
      cbn [negb andb]; rewrite ?andb_false_r; reflexivity.
Qed.

(** No index below [length id] differs exactly when the buffer starts
    with [id]. *)
Lemma agree_iff_prefix (id buffer : list byte) :
  forallb (fun i => negb (differs buffer id i)) (seq 0 (List.length id)) = true
  <-> firstn (List.length id) buffer = id.
Proof.
  rewrite forallb_forall.
  revert buffer. induction id as [|x id IH]; intros buffer.
  - cbn. split; [reflexivity | intros _ i []].
  - cbn [List.length]. split.
    + intros H. destruct buffer as [|b buffer].
      * specialize (H 0%nat). cbn in H.
        assert (false = true) by (apply H; left; reflexivity). discriminate.
      * cbn [firstn]. f_equal.
        -- specialize (H 0%nat). cbn in H.
           apply Byte.byte_dec_bl.
           rewrite negb_involutive in H. apply H. left. reflexivity.
        -- apply IH. intros i Hi. apply in_seq in Hi.
           apply (H (S i)). apply in_seq. lia.
    + intros H i Hi. apply in_seq in Hi.
      destruct buffer as [|b buffer]; [discriminate|].
      cbn [firstn] in H. injection H as -> H.
      destruct i as [|i].
      * cbn. rewrite Byte.byte_dec_lb by reflexivity. reflexivity.
      * apply (proj2 (IH buffer) H i). apply in_seq. lia.
Qed.

Lemma isKTX1_iff (buffer : Buffer.t) :
  isKTX1 buffer = true <-> firstn 12 buffer = KTX1.
Proof.
  unfold isKTX1, identify. rewrite identify_fold. cbn [fst andb].
  apply (agree_iff_prefix KTX1).
Qed.

Lemma isKTX2_iff (buffer : Buffer.t) :
  isKTX2 buffer = true <-> firstn 12 buffer = KTX2.
Proof.
  unfold isKTX2, identify. rewrite identify_fold. cbn [snd andb].
  apply (agree_iff_prefix KTX2).
Qed.

(** C7: a buffer is taken for version 1 exactly when its first 12
    bytes are the version 1 identifier, and for version 2 exactly when
    they are the version 2 identifier. Under version 1 the width and
    the height are the little-endian unsigned 32-bit values at offsets
    36 and 40, under version 2 those at offsets 20 and 24; with
    neither identifier the result is [null]. *)
Theorem ktx_version_detection (buffer : Buffer.t) :
  (isKTX1 buffer = true <-> firstn 12 buffer = KTX1)
  /\ (isKTX2 buffer = true <-> firstn 12 buffer = KTX2)
  /\ (firstn 12 buffer = KTX1 ->
      parseKTXHeader buffer
      = (let* w := readUInt32LE buffer 36 in
         let* h := readUInt32LE buffer 40 in
         Ok (Some {| pixelWidth := w; pixelHeight := h |})))
  /\ (firstn 12 buffer = KTX2 ->
      parseKTXHeader buffer
      = (let* w := readUInt32LE buffer 20 in
         let* h := readUInt32LE buffer 24 in
         Ok (Some {| pixelWidth := w; pixelHeight := h |})))
  /\ (firstn 12 buffer <> KTX1 -> firstn 12 buffer <> KTX2 ->
      parseKTXHeader buffer = Ok None)
  /\ (forall (off : nat) (b0 b1 b2 b3 : byte) (rest : list byte),
         skipn off buffer = b0 :: b1 :: b2 :: b3 :: rest ->
         readUInt32LE buffer off
         = Ok (byte_val b0 + byte_val b1 * 2 ^ 8 + byte_val b2 * 2 ^ 16
               + byte_val b3 * 2 ^ 24)).
Proof.
  pose proof (isKTX1_iff buffer) as H1.
  pose proof (isKTX2_iff buffer) as H2.
  split; [exact H1|]. split; [exact H2|].
  unfold parseKTXHeader.
  split; [|split; [|split]].
  - intros E. apply H1 in E. rewrite E. reflexivity.
  - intros E.
    assert (N : isKTX1 buffer = false).
    { destruct (isKTX1 buffer); [|reflexivity].
      rewrite (proj1 H1 eq_refl) in E. discriminate E. }
    apply H2 in E. rewrite N, E. reflexivity.
  - intros N1 N2.
    destruct (isKTX1 buffer); [exfalso; apply N1, H1; reflexivity|].
    destruct (isKTX2 buffer); [exfalso; apply N2, H2; reflexivity|].
    reflexivity.
  - intros off b0 b1 b2 b3 rest E. unfold readUInt32LE. rewrite E.
    reflexivity.
Qed.

(** Scenario B, run: under the version 2 identifier the result is the
    pair stored at 20 and 24; the same bytes under the version 1
    identifier give the pair stored at 36 and 40. *)
Example scenario_B_version2 :
  parseKTXHeader Scenarios.ktx2_image
  = Ok (Some {| pixelWidth := 256; pixelHeight := 128 |})
  /\ parseKTXHeader Scenarios.ktx1_image
     = Ok (Some {| pixelWidth := 7; pixelHeight := 9 |}).
Proof. split; vm_compute; reflexivity. Qed.

(** A version 2 image cut off before offset 28 makes the read throw. *)
Example short_ktx2_throws :
  parseKTXHeader (firstn 24 Scenarios.ktx2_image) = Throw RangeError.
Proof. vm_compute. reflexivity. Qed.

End InspectorFacts.

(** ** The choice of transforms *)

Module PlannerFacts.

Import Worker.
#[local] Open Scope string_scope.

Lemma hasKTXTexture_false_iff (stats : Statistics) :
  hasKTXTexture stats = false
  <-> forall texture, In texture (stat_textures stats) ->
                      format texture <> "KTX".
Proof.
  unfold hasKTXTexture. split.
  - intros H texture Hin E.
    assert (T : existsb (fun t => format t =? "KTX") (stat_textures stats) = true).
    { apply existsb_exists. exists texture. split; [exact Hin|].
      apply String.eqb_eq. exact E. }
    rewrite T in H. discriminate H.
  - intros H.
    destruct (existsb (fun t => format t =? "KTX") (stat_textures stats)) eqn:T;
      [|reflexivity].
    apply existsb_exists in T. destruct T as (texture & Hin & E).
    apply String.eqb_eq in E. exfalso. exact (H texture Hin E).
Qed.

Lemma In_transforms_toktx (stats : Statistics) (dracoRequested ktx : bool) :
  In toktx (transforms stats dracoRequested ktx)
  <-> ktx && negb (hasKTXTexture stats) = true.
Proof.
  unfold transforms. rewrite in_app_iff.
  destruct (ktx && negb (hasKTXTexture stats)),
           (dracoRequested && negb (dracoCompression stats));
    cbn; intuition (discriminate || auto).
Qed.

Lemma In_transforms_draco (stats : Statistics) (dracoRequested ktx : bool) :
  In draco (transforms stats dracoRequested ktx)
  <-> dracoRequested && negb (dracoCompression stats) = true.
Proof.
  unfold transforms. rewrite in_app_iff.
  destruct (ktx && negb (hasKTXTexture stats)),
           (dracoRequested && negb (dracoCompression stats));
    cbn; intuition (discriminate || auto).
Qed.

Lemma dracoCompression_declared (document : Document) :
  dracoCompression (getModelStatistics document) = true
  <-> In "KHR_draco_mesh_compression" (extensionsUsed document).
Proof.
  cbn [getModelStatistics dracoCompression]. rewrite existsb_exists. split.
  - intros (ext & Hin & E). apply String.eqb_eq in E. subst ext. exact Hin.
  - intros Hin. exists "KHR_draco_mesh_compression".
    split; [exact Hin | apply String.eqb_refl].
Qed.

(** C8: the list of transforms holds the Draco step exactly when Draco
    is requested and the statistics do not report Draco, and the KTX
    step exactly when KTX is requested and no texture of the
    statistics has the format ['KTX']; a document that already
    declares the Draco extension gets no Draco step however it is
    requested. *)
Theorem transform_selection
        (originalStats : Statistics) (dracoRequested ktx : bool) :
  (In draco (transforms originalStats dracoRequested ktx)
   <-> dracoRequested = true /\ dracoCompression originalStats = false)
  /\ (In toktx (transforms originalStats dracoRequested ktx)
      <-> ktx = true
          /\ forall texture, In texture (stat_textures originalStats) ->
                             format texture <> "KTX")
  /\ (forall document,
         In "KHR_draco_mesh_compression" (extensionsUsed document) ->
         ~ In draco (plan document dracoRequested ktx))
  /\ plan Scenarios.draco_scene true ktx
     = (if ktx then [toktx] else []).
Proof.
  split; [|split; [|split]].
  - rewrite In_transforms_draco, andb_true_iff, negb_true_iff. reflexivity.
  - rewrite In_transforms_toktx, andb_true_iff, negb_true_iff,
      hasKTXTexture_false_iff. reflexivity.
  - intros document Hin Hd. unfold plan in Hd.
    apply In_transforms_draco in Hd.
    apply dracoCompression_declared in Hin.
    rewrite Hin, andb_false_r in Hd. discriminate Hd.
  - destruct ktx; reflexivity.
Qed.

(** *** Planning again after the plan was applied *)












End PlannerFacts.

(** ** Global replacement in strings *)

Module StringFacts.

Import JsString Tileset.
#[local] Open Scope string_scope.

Lemma append_assoc (a b c : string) : (a ++ b) ++ c = a ++ (b ++ c).
Proof. induction a as [|x a IH]; cbn; [|rewrite IH]; reflexivity. Qed.

Lemma append_nil_r (a : string) : a ++ "" = a.
Proof. induction a as [|x a IH]; cbn; [|rewrite IH]; reflexivity. Qed.

Lemma length_append (a b : string) :
  String.length (a ++ b) = (String.length a + String.length b)%nat.
Proof. induction a as [|x a IH]; cbn; [|rewrite IH]; reflexivity. Qed.

Lemma drop_append (a b : string) : drop (String.length a) (a ++ b) = b.
Proof. induction a as [|x a IH]; cbn; [destruct b|]; auto. Qed.

Lemma length_drop (n : nat) (s : string) :
  String.length (drop n s) = (String.length s - n)%nat.
Proof.
  revert s. induction n as [|n IH]; intros [|x s]; cbn; auto.
Qed.

Lemma prefix_nil (s : string) : prefix "" s = true.
Proof. destruct s; reflexivity. Qed.

Lemma prefix_append (p s : string) : prefix p (p ++ s) = true.
Proof.
  induction p as [|x p IH]; cbn.
  - apply prefix_nil.
  - destruct (ascii_dec x x) as [_|N]; [exact IH | contradiction].
Qed.

(** A string that starts with [p] is [p] followed by the rest. *)
Lemma prefix_split (p s : string) :
  prefix p s = true -> s = p ++ drop (String.length p) s.
Proof.
  revert s. induction p as [|x p IH]; intros s H.
  - destruct s; reflexivity.
  - destruct s as [|y s]; cbn in H; [discriminate|].
    destruct (ascii_dec x y) as [->|N]; [|discriminate].
    cbn. f_equal. apply IH. exact H.
Qed.

(** Once the pattern fits into [a], what follows [a] does not matter. *)
Lemma prefix_long (p a b : string) :
  (String.length p <= String.length a)%nat ->
  prefix p (a ++ b) = prefix p a.
Proof.
  revert a. induction p as [|x p IH]; intros a H.
  - rewrite !prefix_nil. reflexivity.
  - destruct a as [|y a]; cbn in H; [lia|].
    cbn. destruct (ascii_dec x y); [apply IH; lia | reflexivity].
Qed.

Lemma replace_from_drop (pat rep : string) (k : nat) (s : string) :
  replace_from pat rep k s = replace_from pat rep 0 (drop k s).
Proof.
  revert k. induction s as [|c s IH]; intros k.
  - destruct k; reflexivity.
  - destruct k as [|k]; [reflexivity|].
    cbn [replace_from drop]. apply IH.
Qed.

(** The scan, one step at a time. *)
Lemma replaceAll_step (pat rep s : string) :
  pat <> "" ->
  replaceAll pat rep s
  = if prefix pat s
    then rep ++ replaceAll pat rep (drop (String.length pat) s)
    else match s with
         | EmptyString => EmptyString
         | String c rest => String c (replaceAll pat rep rest)
         end.
Proof.
  intros Hp. unfold replaceAll. destruct s as [|c s].
  - destruct pat; [contradiction | reflexivity].
  - cbn [replace_from].
    destruct (prefix pat (String c s)); [|reflexivity].
    rewrite replace_from_drop. f_equal. f_equal.
    destruct pat as [|x pat]; [contradiction|].
    cbn [String.length drop Nat.sub]. rewrite Nat.sub_0_r. reflexivity.
Qed.

Lemma replaceAll_match (pat rep s : string) :
  pat <> "" ->
  replaceAll pat rep (pat ++ s) = rep ++ replaceAll pat rep s.
Proof.
  intros Hp. rewrite replaceAll_step by exact Hp.
  rewrite prefix_append, drop_append. reflexivity.
Qed.

Lemma includes_false_inv (pat : string) (c : ascii) (s : string) :
  includes pat (String c s) = false ->
  prefix pat (String c s) = false /\ includes pat s = false.
Proof.
  cbn [includes]. destruct (prefix pat (String c s)); [discriminate|].
  auto.
Qed.

(** A string without the pattern is returned as it is. *)
Lemma replaceAll_absent (pat rep s : string) :
  includes pat s = false -> replaceAll pat rep s = s.
Proof.
  unfold replaceAll. induction s as [|c s IH]; intros H; [reflexivity|].
  apply includes_false_inv in H. destruct H as [Hp Hi].
  cbn [replace_from]. rewrite Hp. f_equal. apply IH. exact Hi.
Qed.

(** *** The pattern of the tileset rewriter *)

Lemma stale_nonempty : stale <> "".
Proof. discriminate. Qed.

Lemma prefix_cons (x y : ascii) (p s : string) :
  prefix (String x p) (String y s)
  = if ascii_dec x y then prefix p s else false.
Proof. reflexivity. Qed.

Lemma includes_cons (p : string) (c : ascii) (s : string) :
  includes p (String c s)
  = if prefix p (String c s) then true else includes p s.
Proof. reflexivity. Qed.

(** Comparisons of characters, decided one after the other. *)
Ltac decide_chars :=
  repeat (rewrite ?prefix_cons, ?prefix_nil in *;
          match goal with
          | H : context [ascii_dec ?x ?y] |- _ =>
            destruct (ascii_dec x y) as [?E|?N];
            [try discriminate; try subst
            |try (exfalso; apply N; reflexivity)]
          | |- context [ascii_dec ?x ?y] =>
            destruct (ascii_dec x y) as [?E|?N];
            [try discriminate; try subst
            |try (exfalso; apply N; reflexivity)]
          end).

(** The pattern cannot begin inside [a] and run into a following
    occurrence: its only dot is its first character. *)
Lemma stale_no_overlap (c : ascii) (a b : string) :
  prefix stale (String c a) = false ->
  prefix stale (String c a ++ stale ++ b) = false.
Proof.
  intros H.
  destruct (Nat.le_gt_cases 5 (String.length (String c a))) as [L|L].
  - rewrite prefix_long by exact L. exact H.
  - clear H. unfold stale.
    destruct a as [|c2 [|c3 [|c4 [|c5 a]]]]; cbn [String.length] in L;
      try lia; cbn [append]; decide_chars; reflexivity.
Qed.

Lemma includes_after_fresh (t : string) :
  includes stale (fresh ++ t) = includes stale t.
Proof.
  unfold fresh, stale. cbn [append].
  rewrite !includes_cons. decide_chars. reflexivity.
Qed.

(** Every occurrence is replaced: around any occurrence, the result is
    the results of the two sides with the new text in between. *)
Lemma replace_around_occurrence (a b : string) :
  replaceAll stale fresh (a ++ stale ++ b)
  = replaceAll stale fresh a ++ fresh ++ replaceAll stale fresh b.
Proof.
  remember (String.length a) as n eqn:Hn.
  revert a Hn. induction n as [n IH] using lt_wf_ind. intros a Hn.
  destruct (prefix stale a) eqn:P.
  - pose proof (prefix_split _ _ P) as Ea.
    set (a' := drop (String.length stale) a) in *.
    rewrite Ea, append_assoc.
    rewrite !(replaceAll_match stale fresh) by exact stale_nonempty.
    rewrite append_assoc. f_equal.
    apply (IH (String.length a')); [|reflexivity].
    subst n a'. rewrite length_drop.
    rewrite Ea, length_append. cbn. lia.
  - destruct a as [|c a].
    + cbn [append]. rewrite replaceAll_match by exact stale_nonempty.
      reflexivity.
    + rewrite (replaceAll_step stale fresh (String c a ++ _))
        by exact stale_nonempty.
      rewrite stale_no_overlap by exact P.
      rewrite (replaceAll_step stale fresh (String c a))
        by exact stale_nonempty.
      rewrite P. cbn [append]. f_equal.
      apply (IH (String.length a)); [|reflexivity].
      subst n. cbn. lia.
Qed.

(** A text without dots that begins the result begins the input. *)
Lemma dotless_prefix_of_result (q r : string) :
  has_char "." q = false ->
  prefix q (replaceAll stale fresh r) = true -> prefix q r = true.
Proof.
  revert r. induction q as [|x q IH]; intros r Hq H.
  - apply prefix_nil.
  - cbn [has_char] in Hq.
    destruct (ascii_dec "." x) as [E|N]; [discriminate|].
    rewrite replaceAll_step in H by exact stale_nonempty.
    destruct (prefix stale r) eqn:P.
    + exfalso. unfold fresh in H. cbn [append] in H.
      rewrite prefix_cons in H.
      destruct (ascii_dec x "."); [congruence | discriminate].
    + destruct r as [|c r]; [discriminate H|].
      rewrite prefix_cons in H |- *.
      destruct (ascii_dec x c); [|discriminate].
      apply IH; assumption.
Qed.

(** Nothing of the old pattern is left in the result. *)
Lemma replace_leaves_none (s : string) :
  includes stale (replaceAll stale fresh s) = false.
Proof.
  remember (String.length s) as n eqn:Hn.
  revert s Hn. induction n as [n IH] using lt_wf_ind. intros s Hn.
  rewrite replaceAll_step by exact stale_nonempty.
  destruct (prefix stale s) eqn:P.
  - pose proof (prefix_split _ _ P) as Es.
    set (s' := drop (String.length stale) s) in *.
    assert (Hs' : includes stale (replaceAll stale fresh s') = false).
    { apply (IH (String.length s')); [|reflexivity].
      subst n s'. rewrite length_drop. rewrite Es, length_append. cbn. lia. }
    rewrite includes_after_fresh. exact Hs'.
  - destruct s as [|c s]; [reflexivity|].
    assert (Hs : includes stale (replaceAll stale fresh s) = false).
    { apply (IH (String.length s)); [|reflexivity]. subst n. cbn. lia. }
    rewrite includes_cons, Hs.
    destruct (prefix stale (String c (replaceAll stale fresh s))) eqn:Q;
      [|reflexivity].
    exfalso. unfold stale in P, Q. rewrite prefix_cons in P, Q.
    destruct (ascii_dec "." c); [|discriminate].
    apply (dotless_prefix_of_result "b3dm") in Q; [|reflexivity].
    rewrite Q in P. discriminate.
Qed.

End StringFacts.

(** ** The tileset rewriter *)

Module TilesetFacts.

Import JsString Tileset StringFacts.
#[local] Open Scope string_scope.

(** Induction over a parsed tree: the elements of an array and the
    values of an object come with the property. *)
Lemma JSON_induction {number : Type} (P : JSON number -> Prop) :
  P JNull ->
  (forall b, P (JBool b)) ->
  (forall n, P (JNumber n)) ->
  (forall s, P (JString s)) ->
  (forall items, Forall P items -> P (JArray items)) ->
  (forall members, Forall (fun kv => P (snd kv)) members -> P (JObject members)) ->
  forall obj, P obj.
Proof.
  intros HNull HBool HNumber HString HArray HObject.
  fix IH 1. intros obj.
  destruct obj as [|b|n|s|items|members].
  - exact HNull.
  - apply HBool.
  - apply HNumber.
  - apply HString.
  - apply HArray. induction items as [|v items IHitems].
    + constructor.
    + constructor; [apply IH | exact IHitems].
  - apply HObject. induction members as [|[k v] members IHmembers].
    + constructor.
    + constructor; [apply IH | exact IHmembers].
Qed.

Lemma count_zero_iff (s : string) :
  count_in_string s = 0%nat <-> includes stale s = false.
Proof.
  induction s as [|c s IH].
  - split; reflexivity.
  - cbn [count_in_string]. rewrite includes_cons. fold stale.
    destruct (prefix stale (String c s)).
    + split; [lia | discriminate].
    + cbn [Nat.add]. exact IH.
Qed.

Lemma rewritten_has_none {number : Type} (obj : JSON number) :
  stale_count (rewrite_node stale fresh obj) = 0%nat.
Proof.
  induction obj as [| | | s | items IH | members IH] using JSON_induction;
    try reflexivity.
  - cbn [rewrite_node stale_count]. apply count_zero_iff.
    apply replace_leaves_none.
  - cbn [rewrite_node stale_count].
    induction IH as [|v items Hv _ IHitems]; [reflexivity|].
    cbn [map fold_right]. rewrite Hv, IHitems. reflexivity.
  - cbn [rewrite_node stale_count].
    induction IH as [|[k v] members Hv _ IHmembers]; [reflexivity|].
    cbn [map fold_right]. cbn [snd] in Hv. rewrite Hv, IHmembers. reflexivity.
Qed.

Lemma untouched_without_stale {number : Type} (obj : JSON number) :
  stale_count obj = 0%nat -> rewrite_node stale fresh obj = obj.
Proof.
  induction obj as [| | | s | items IH | members IH] using JSON_induction;
    try reflexivity.
  - cbn [rewrite_node stale_count]. intros H. f_equal.
    apply replaceAll_absent, count_zero_iff, H.
  - cbn [rewrite_node stale_count]. intros H. f_equal.
    induction IH as [|v items Hv _ IHitems]; [reflexivity|].
    cbn [map fold_right] in H |- *.
    rewrite Hv by lia. rewrite IHitems by lia. reflexivity.
  - cbn [rewrite_node stale_count]. intros H. f_equal.
    induction IH as [|[k v] members Hv _ IHmembers]; [reflexivity|].
    cbn [map fold_right] in H |- *. cbn [snd] in Hv.
    rewrite Hv by lia. rewrite IHmembers by lia. reflexivity.
Qed.

Lemma object_keys_kept {number : Type} (members : list (string * JSON number)) :
  exists members',
    rewrite_node stale fresh (JObject members) = JObject members'
    /\ keys members' = keys members
    /\ map snd members' = map (rewrite_node stale fresh) (map snd members).
Proof.
  eexists. split; [reflexivity|]. unfold keys. split.
  - induction members as [|[k v] members IH]; [reflexivity|].
    cbn [map fst]. f_equal. exact IH.
  - induction members as [|[k v] members IH]; [reflexivity|].
    cbn [map snd]. f_equal. exact IH.
Qed.

(** The specified rewriting with the pattern and the replacement of the
    source: every occurrence of [".b3dm"] in every string is replaced
    by [".glb"] (around any occurrence the result is the result of the
    two sides with [".glb"] in between, nothing of the pattern is left,
    and a string without it is returned as it is); an array is mapped
    element by element; an object keeps its keys, in order, and has its
    values rewritten; numbers, booleans and [null] come back unchanged.
    A tree without the pattern comes back as it was, and the tree of
    scenario E, with three such strings, has exactly these three
    rewritten. *)
Theorem rewrite_semantics (number : Type) :
  (forall s, rewrite_node stale fresh (JString s : JSON number)
             = JString (replaceAll stale fresh s))
  /\ (forall a b,
         replaceAll stale fresh (a ++ stale ++ b)
         = replaceAll stale fresh a ++ fresh ++ replaceAll stale fresh b)
  /\ (forall s, includes stale (replaceAll stale fresh s) = false)
  /\ (forall s, includes stale s = false -> replaceAll stale fresh s = s)
  /\ (forall items : list (JSON number),
         rewrite_node stale fresh (JArray items)
         = JArray (map (rewrite_node stale fresh) items))
  /\ (forall members : list (string * JSON number),
         exists members',
           rewrite_node stale fresh (JObject members) = JObject members'
           /\ keys members' = keys members
           /\ map snd members' = map (rewrite_node stale fresh) (map snd members))
  /\ (forall n, rewrite_node stale fresh (JNumber n : JSON number) = JNumber n)
  /\ (forall b, rewrite_node stale fresh (JBool b : JSON number) = JBool b)
  /\ rewrite_node stale fresh (JNull : JSON number) = JNull
  /\ (forall obj : JSON number, stale_count (rewrite_node stale fresh obj) = 0%nat)
  /\ (forall obj : JSON number,
         stale_count obj = 0%nat -> rewrite_node stale fresh obj = obj)
  /\ stale_count Scenarios.tileset_E = 3%nat
  /\ rewrite_node stale fresh Scenarios.tileset_E = Scenarios.tileset_E_rewritten.
Proof.
  repeat match goal with |- _ /\ _ => split end; try reflexivity.
  - apply replace_around_occurrence.
  - apply replace_leaves_none.
  - intros s. apply replaceAll_absent.
  - apply object_keys_kept.
  - apply rewritten_has_none.
  - apply untouched_without_stale.
Qed.

(** The second pass of the specified rewriting changes nothing. *)
Lemma rewrite_idempotent {number : Type} (obj : JSON number) :
  rewrite_node stale fresh (rewrite_node stale fresh obj)
  = rewrite_node stale fresh obj.
Proof. apply untouched_without_stale, rewritten_has_none. Qed.

(** The source against the specified rewriting: on a tree in which no
    object has an own property ["hasOwnProperty"] the function returns
    what the specification describes; on every other tree it throws a
    TypeError. *)
Lemma replaceB3dmWithGlb_refines {number : Type} (obj : JSON number) :
  replaceB3dmWithGlb obj
  = if ordinary obj then Ok (rewrite_node stale fresh obj)
    else Throw TypeError.
Proof.
  induction obj as [| | | s | items IH | members IH] using JSON_induction;
    try reflexivity.
  - cbn [replaceB3dmWithGlb ordinary rewrite_node].
    match goal with
    | |- bind (?F items) _ = _ =>
      assert (HF : F items
                   = if forallb ordinary items
                     then Ok (map (rewrite_node stale fresh) items)
                     else Throw TypeError)
    end.
    { induction IH as [|v items Hv _ IHitems]; [reflexivity|].
      cbn [forallb map]. rewrite Hv.
      destruct (ordinary v); cbn [bind andb]; [|reflexivity].
      rewrite IHitems.
      destruct (forallb ordinary items); reflexivity. }
    rewrite HF. destruct (forallb ordinary items); reflexivity.
  - cbn [replaceB3dmWithGlb ordinary rewrite_node].
    destruct (has_own "hasOwnProperty" members) eqn:Own; cbn [negb andb].
    + destruct members as [|[k v] members]; [discriminate Own|].
      unfold hasOwnProperty. rewrite Own. reflexivity.
    + match goal with
      | |- bind (?F members) _ = _ =>
        assert (HF : F members
                     = if forallb (fun kv : string * JSON number =>
                                     match kv with
                                     | (_, value) => ordinary value
                                     end) members
                       then Ok (map (fun kv : string * JSON number =>
                                       match kv with
                                       | (key, value) =>
                                         (key, rewrite_node stale fresh value)
                                       end) members)
                       else Throw TypeError)
      end.
      { unfold hasOwnProperty. rewrite Own. clear Own. cbn [bind].
        induction IH as [|[k v] rest Hv _ IHrest]; [reflexivity|].
        cbn [forallb map bind]. cbn [snd] in Hv. rewrite Hv.
        destruct (ordinary v); cbn [bind andb]; [|reflexivity].
        rewrite IHrest.
        match goal with
        | |- context [forallb ?g rest] => destruct (forallb g rest)
        end; reflexivity. }
      rewrite HF.
      match goal with
      | |- context [forallb ?g members] => destruct (forallb g members)
      end; reflexivity.
Qed.

(** C9, where the source departs from it: an object with a key
    ["hasOwnProperty"] makes [obj.hasOwnProperty(key)] a call of a
    string. On this tileset the function throws a TypeError, where the
    rewriting of the specification replaces both references. *)
Theorem own_key_hasOwnProperty_throws :
  replaceB3dmWithGlb Scenarios.tileset_own_key = Throw TypeError
  /\ stale_count Scenarios.tileset_own_key = 2%nat
  /\ stale_count (rewrite_node stale fresh Scenarios.tileset_own_key) = 0%nat
  /\ replaceB3dmWithGlb Scenarios.tileset_E = Ok Scenarios.tileset_E_rewritten.
Proof. repeat split; vm_compute; reflexivity. Qed.

End TilesetFacts.

(** ** The coordinator *)

Module SchedulerFacts.

Import Scheduler.

Lemma skipn_cons_inv {A : Type} (n : nat) (l : list A) (x : A) (r : list A) :
  skipn n l = x :: r ->
  firstn (S n) l = firstn n l ++ [x] /\ skipn (S n) l = r
  /\ (n < List.length l)%nat.
Proof.
  revert l. induction n as [|n IH]; intros l H.
  - cbn in H. subst l.
    split; [reflexivity | split; [reflexivity | cbn; lia]].
  - destruct l as [|y l]; [discriminate|].
    cbn [skipn] in H. destruct (IH l H) as (F & S' & L).
    change (firstn (S (S n)) (y :: l)) with (y :: firstn (S n) l).
    rewrite F.
    split; [reflexivity | split; [exact S' | cbn; lia]].
Qed.

Lemma filter_other_pids (p : nat) (l : list Child) (c : Child) :
  NoDup (map pid l) ->
  find (fun c => (pid c =? p)%nat) l = Some c ->
  (List.length (filter (fun c => negb (pid c =? p)%nat) l) + 1
   = List.length l)%nat.
Proof.
  induction l as [|x l IH]; intros ND F; [discriminate|].
  cbn [map] in ND. inversion ND as [|? ? Hx ND']; subst.
  cbn [find filter] in *.
  destruct (pid x =? p)%nat eqn:E.
  - cbn [negb List.length]. apply Nat.eqb_eq in E.
    assert (Hall : filter (fun c => negb (pid c =? p)%nat) l = l).
    { apply forallb_filter_id. apply forallb_forall. intros y Hy.
      apply negb_true_iff, Nat.eqb_neq. intros Ey. apply Hx.
      rewrite E, <- Ey. apply in_map. exact Hy. }
    rewrite Hall. lia.
  - cbn [negb List.length]. rewrite <- (IH ND' F). lia.
Qed.

Lemma NoDup_map_filter {A B : Type} (f : A -> B) (g : A -> bool) (l : list A) :
  NoDup (map f l) -> NoDup (map f (filter g l)).
Proof.
  induction l as [|x l IH]; intros ND; [constructor|].
  cbn [map] in ND. inversion ND as [|? ? Hx ND']; subst.
  cbn [filter]. destruct (g x); [|apply IH; exact ND'].
  cbn [map]. constructor; [|apply IH; exact ND'].
  intros Hin. apply Hx. apply in_map_iff in Hin.
  destruct Hin as (y & Ey & Hy). apply filter_In in Hy.
  rewrite <- Ey. apply in_map. apply Hy.
Qed.

Section Run.

Variable files : list string.
Variable numCPUs : Z.
Hypothesis at_least_one : (1 <= numCPUs)%Z.

Abbreviation K := (totalFiles files).
Abbreviation Inv := (invariant files numCPUs).
Abbreviation Sat := (saturated files numCPUs).

(** The loop of [runNextBatch] keeps the invariant, fills the slots and
    forks one child for every file it hands out. *)
Lemma runNextBatch_loop_spec (rest : list string) (s : State) :
  Inv s ->
  rest = skipn (completedTasks s) files ->
  let s' := runNextBatch_loop numCPUs rest s in
  Inv s' /\ Sat s'
  /\ progress s' = progress s /\ finished s' = finished s
  /\ (completedTasks s' + List.length (children s)
      = completedTasks s + List.length (children s'))%nat
  /\ (List.length (children s) <= List.length (children s'))%nat.
Proof.
  revert s. induction rest as [|f rest IH]; intros s I R.
  - cbn. pose proof I as (I1 & I2 & I3 & I4 & I5 & I6 & I7).
    assert (completedTasks s = K).
    { symmetry in R.
      assert (L := length_skipn (completedTasks s) files).
      rewrite R in L. cbn in L. unfold totalFiles in *. lia. }
    repeat match goal with |- _ /\ _ => split end;
      try assumption; try reflexivity; try lia.
    unfold saturated. intros _. assumption.
  - cbn [runNextBatch_loop].
    destruct (activeProcesses s <? numCPUs)%Z eqn:A.
    + apply Z.ltb_lt in A.
      destruct I as (I1 & I2 & I3 & I4 & I5 & I6 & I7).
      symmetry in R. destruct (skipn_cons_inv _ _ _ _ R) as (F & S' & L).
      set (s1 := runChildProcess f (advance s)).
      assert (I' : Inv s1).
      { unfold invariant, s1.
        cbn [runChildProcess advance activeProcesses children completedTasks
             forked progress].
        rewrite !length_app. cbn [List.length].
        repeat match goal with |- _ /\ _ => split end.
        - lia.
        - unfold totalFiles. lia.
        - rewrite F, I3. reflexivity.
        - lia.
        - lia.
        - rewrite map_app. cbn [map pid].
          apply NoDup_app; [exact I6 | repeat constructor; intros [] |].
          intros x Hx [Hy|[]]. subst x.
          apply in_map_iff in Hx. destruct Hx as (c & Ec & Hc).
          specialize (I7 c Hc). lia.
        - intros c Hc. apply in_app_or in Hc. destruct Hc as [Hc|[<-|[]]].
          + specialize (I7 c Hc). lia.
          + cbn [pid]. lia. }
      specialize (IH s1 I' (eq_sym S')).
      cbv zeta in IH |- *.
      destruct IH as (J & Sa & P & Fi & C & Lc).
      unfold s1 in *.
      cbn [runChildProcess advance progress finished completedTasks children]
        in P, Fi, C, Lc.
      rewrite length_app in C, Lc. cbn [List.length] in C, Lc.
      repeat match goal with |- _ /\ _ => split end;
        try assumption; try lia.
    + apply Z.ltb_ge in A. cbv zeta.
      repeat match goal with |- _ /\ _ => split end;
        try assumption; try reflexivity; try lia.
      unfold saturated. intros Hlt. lia.
Qed.

Lemma start_invariant :
  Inv (start files numCPUs) /\ Sat (start files numCPUs)
  /\ progress (start files numCPUs) = []
  /\ finished (start files numCPUs) = 0%nat.
Proof.
  unfold start, runNextBatch.
  assert (I : Inv initial).
  { unfold invariant, initial. cbn.
    repeat match goal with |- _ /\ _ => split end;
      try reflexivity; try lia; try constructor; try (intros c []). }
  destruct (runNextBatch_loop_spec _ initial I eq_refl)
    as (J & Sa & P & Fi & _).
  split; [exact J|]. split; [exact Sa|]. split; [exact P | exact Fi].
Qed.

(** One completion signal: the child is gone, one progress line is
    added, and the invariant holds again. *)
Lemma handleCompletion_spec (p : nat) (c : Child) (text : string) (s : State) :
  Inv s -> Sat s -> finished_in_time files s ->
  find_child p s = Some c ->
  let s' := handleCompletion files numCPUs text (drop_child p s) in
  Inv s' /\ Sat s' /\ finished_in_time files s'
  /\ List.length (progress s') = S (List.length (progress s))
  /\ exists line, progress s' = progress s ++ [line] /\ message line = text.
Proof.
  intros (I1 & I2 & I3 & I4 & I5 & I6 & I7) Sa Fi Fc.
  unfold find_child in Fc.
  pose proof (filter_other_pids p (children s) c I6 Fc) as Lf.
  set (s0 := updateProgress files text (decrement (drop_child p s))).
  assert (I0 : Inv s0).
  { unfold invariant, s0.
    cbn [updateProgress decrement drop_child activeProcesses children
         completedTasks forked progress].
    rewrite length_app. cbn [List.length].
    repeat match goal with |- _ /\ _ => split end;
      try assumption; try lia.
    - apply NoDup_map_filter. exact I6.
    - intros x Hx. apply filter_In in Hx. apply I7, Hx. }
  assert (P0 : progress s0
               = progress s
                 ++ [{| processed :=
                          Z.of_nat (completedTasks s) - (activeProcesses s - 1);
                        remainingFiles :=
                          Z.of_nat (totalFiles files)
                          - (Z.of_nat (completedTasks s)
                             - (activeProcesses s - 1));
                        message := text |}]) by reflexivity.
  assert (F0 : finished s0 = finished s) by reflexivity.
  assert (C0 : completedTasks s0 = completedTasks s) by reflexivity.
  assert (A0 : activeProcesses s0 = activeProcesses s - 1) by reflexivity.
  assert (L0 : (List.length (children s0) + 1 = List.length (children s))%nat)
    by exact Lf.
  assert (Fs : finished s = 0%nat).
  { unfold finished_in_time in Fi. rewrite Fi.
    destruct (List.length (progress s) =? totalFiles files)%nat eqn:E;
      [|rewrite andb_false_r; reflexivity].
    apply Nat.eqb_eq in E. lia. }
  unfold handleCompletion. fold s0. cbv zeta.
  destruct ((completedTasks s0 =? totalFiles files)%nat
            && (activeProcesses s0 =? 0)%Z) eqn:B.
  - apply andb_true_iff in B. destruct B as [B1 B2].
    apply Nat.eqb_eq in B1. apply Z.eqb_eq in B2.
    pose proof I0 as (J1 & J2 & J3 & J4 & J5 & J6 & J7).
    split; [exact I0|].
    split; [unfold saturated; intros _; exact B1|].
    split.
    { unfold finished_in_time.
      cbn [finishProcessing progress finished]. rewrite F0, Fs.
      rewrite P0, length_app. cbn [List.length].
      assert (E1 : (0 <? totalFiles files)%nat = true)
        by (apply Nat.ltb_lt; lia).
      assert (E2 : (List.length (progress s) + 1 =? totalFiles files)%nat = true)
        by (apply Nat.eqb_eq; lia).
      rewrite E1, E2. reflexivity. }
    cbn [finishProcessing progress].
    split; [rewrite P0, length_app; cbn [List.length]; lia|].
    eexists. split; [exact P0 | reflexivity].
  - assert (NotDone : ~ (completedTasks s0 = totalFiles files
                         /\ activeProcesses s0 = 0%Z)).
    { intros [N1 N2]. apply Nat.eqb_eq in N1. apply Z.eqb_eq in N2.
      rewrite N1, N2 in B. discriminate B. }
    destruct (activeProcesses s0 <? numCPUs)%Z eqn:A.
    + unfold runNextBatch.
      destruct (runNextBatch_loop_spec _ s0 I0 eq_refl)
        as (J & Sa' & P' & F' & C' & Lc').
      set (s' := runNextBatch_loop numCPUs (skipn (completedTasks s0) files) s0)
        in *.
      repeat match goal with |- _ /\ _ => split end; try assumption.
      * unfold finished_in_time. rewrite F', F0, Fs, P'.
        destruct (List.length (progress s0) =? totalFiles files)%nat eqn:E;
          [|rewrite andb_false_r; reflexivity].
        exfalso. apply Nat.eqb_eq in E. apply NotDone.
        destruct J as (J1 & J2 & J3 & J4 & J5 & J6 & J7).
        destruct I0 as (K1 & K2 & K3 & K4 & K5 & K6 & K7).
        rewrite P' in J4. lia.
      * rewrite P', P0, length_app. cbn [List.length]. lia.
      * eexists. rewrite P'. split; [exact P0 | reflexivity].
    + apply Z.ltb_ge in A.
      repeat match goal with |- _ /\ _ => split end; try assumption.
      * unfold saturated. intros Hlt. lia.
      * unfold finished_in_time. rewrite F0, Fs.
        destruct (List.length (progress s0) =? totalFiles files)%nat eqn:E;
          [|rewrite andb_false_r; reflexivity].
        exfalso. apply Nat.eqb_eq in E.
        destruct I0 as (K1 & K2 & K3 & K4 & K5 & K6 & K7). lia.
      * rewrite P0, length_app. cbn [List.length]. lia.
      * eexists. split; [exact P0 | reflexivity].
Qed.

Lemma handle_signal_spec (ev : event) (s s' : State) :
  Inv s -> Sat s -> finished_in_time files s ->
  is_signal ev = true ->
  handle files numCPUs ev s = Some s' ->
  Inv s' /\ Sat s' /\ finished_in_time files s'
  /\ exists line, progress s' = progress s ++ [line] /\ reported ev line.
Proof.
  intros I Sa Fi Sg H.
  destruct ev as [p text|p err|p code]; [| |discriminate Sg];
    cbn [handle] in H;
    destruct (find_child p s) as [c|] eqn:Fc; try discriminate H;
    injection H as <-.
  - destruct (handleCompletion_spec p c text s I Sa Fi Fc)
      as (I' & Sa' & Fi' & _ & line & P & M).
    split; [exact I'|]. split; [exact Sa'|]. split; [exact Fi'|].
    exists line. split; [exact P | exact M].
  - destruct (handleCompletion_spec
                p c ("Error processing " ++ file c ++ ": " ++ err)%string
                s I Sa Fi Fc)
      as (I' & Sa' & Fi' & _ & line & P & M).
    split; [exact I'|]. split; [exact Sa'|]. split; [exact Fi'|].
    exists line. split; [exact P|]. exists (file c). exact M.
Qed.

Lemma run_signals_spec (evs : list event) (s s' : State) :
  Inv s -> Sat s -> finished_in_time files s ->
  forallb is_signal evs = true ->
  run files numCPUs evs s = Some s' ->
  Inv s' /\ Sat s' /\ finished_in_time files s'
  /\ exists lines, progress s' = progress s ++ lines
                   /\ Forall2 reported evs lines.
Proof.
  revert s. induction evs as [|ev evs IH]; intros s I Sa Fi Sg H.
  - cbn in H. injection H as <-.
    split; [exact I|]. split; [exact Sa|]. split; [exact Fi|].
    exists []. split; [symmetry; apply app_nil_r | constructor].
  - cbn [forallb] in Sg. apply andb_true_iff in Sg. destruct Sg as [Sg1 Sg2].
    cbn [run] in H.
    destruct (handle files numCPUs ev s) as [s1|] eqn:H1; [|discriminate H].
    destruct (handle_signal_spec ev s s1 I Sa Fi Sg1 H1)
      as (I1 & Sa1 & Fi1 & line & P1 & R1).
    destruct (IH s1 I1 Sa1 Fi1 Sg2 H) as (I' & Sa' & Fi' & lines & P' & R').
    split; [exact I'|]. split; [exact Sa'|]. split; [exact Fi'|].
    exists (line :: lines). split.
    + rewrite P', P1, <- app_assoc. reflexivity.
    + constructor; assumption.
Qed.

(** C2, amended: take any list of files and any limit of at least one,
    and any run in which the workers deliver their completion signals
    (a message, or an ['error'] event). After [n] signals there are
    exactly [n] progress lines, one per signal and in the order of the
    signals, whatever they report; [n] never exceeds the number of
    files; the files handed out are the first [completedTasks] ones
    and at most [numCPUs] workers are active. As long as fewer than [K]
    signals have arrived some worker is still running, and the signal
    of any running worker is handled; when no worker is left there are
    [K] results; once [K] signals have arrived every file has been
    handed out and no worker is active.
    [finishProcessing] is called once, exactly when the [K]-th result is
    in, and then [completedTasks = K] and [activeProcesses = 0]. *)
Theorem scheduler_completion (evs : list event) (s : State) :
  forallb is_signal evs = true ->
  processFiles files numCPUs evs = Some s ->
  Forall2 reported evs (progress s)
  /\ List.length (progress s) = List.length evs
  /\ (List.length evs <= K)%nat
  /\ forked s = firstn (completedTasks s) files
  /\ (0 <= activeProcesses s <= numCPUs)%Z
  /\ ((List.length evs < K)%nat -> children s <> [])
  /\ (forall c text, In c (children s) ->
                     handle files numCPUs (Message (pid c) text) s <> None)
  /\ (children s = [] -> List.length (progress s) = K)
  /\ (List.length evs = K ->
      children s = [] /\ forked s = files
      /\ completedTasks s = K /\ activeProcesses s = 0%Z)
  /\ (finished s <= 1)%nat
  /\ (finished s = 1%nat <-> (0 < K)%nat /\ List.length evs = K)
  /\ (finished s = 1%nat ->
      completedTasks s = K /\ activeProcesses s = 0%Z).
Proof.
  intros Sg H. unfold processFiles in H.
  destruct start_invariant as (I0 & Sa0 & P0 & F0).
  assert (Fi0 : finished_in_time files (start files numCPUs)).
  { unfold finished_in_time. rewrite F0, P0. cbn [List.length].
    destruct (totalFiles files); reflexivity. }
  destruct (run_signals_spec evs _ s I0 Sa0 Fi0 Sg H)
    as (I & Sa & Fi & lines & P & R).
  rewrite P0 in P. cbn [app] in P. subst lines.
  pose proof (Forall2_length R) as Len. symmetry in Len.
  destruct I as (I1 & I2 & I3 & I4 & I5 & I6 & I7).
  unfold saturated in Sa. unfold finished_in_time in Fi.
  assert (Done : List.length evs = K ->
                 children s = [] /\ forked s = files
                 /\ completedTasks s = K /\ activeProcesses s = 0%Z).
  { intros E.
    assert (Hc : List.length (children s) = 0%nat) by lia.
    assert (Hk : completedTasks s = K) by lia.
    split; [destruct (children s); [reflexivity | discriminate Hc]|].
    split; [rewrite I3, Hk; apply firstn_all|].
    split; [exact Hk | lia]. }
  split; [exact R|]. split; [exact Len|]. split; [lia|].
  split; [exact I3|]. split; [lia|].
  split.
  { intros Hlt Hnil. rewrite Hnil in *. cbn [List.length] in *.
    assert (completedTasks s = K) by (apply Sa; lia). lia. }
  split.
  { intros c text Hc. cbn [handle]. unfold find_child.
    destruct (find (fun c0 => (pid c0 =? pid c)%nat) (children s)) eqn:Fc;
      [discriminate|].
    pose proof (find_none _ _ Fc c Hc) as N. cbn beta in N.
    rewrite Nat.eqb_refl in N. discriminate N. }
  split.
  { intros Hnil. rewrite Hnil in *. cbn [List.length] in *.
    assert (completedTasks s = K) by (apply Sa; lia). lia. }
  split; [exact Done|].
  rewrite Len in Fi.
  destruct (Nat.ltb_spec 0 K) as [E0|E0],
           (Nat.eqb_spec (List.length evs) K) as [E1|E1];
    cbn [andb] in Fi; rewrite Fi.
  - split; [lia|]. split; [tauto|]. intros _.
    destruct (Done E1) as (_ & _ & D1 & D2). split; assumption.
  - split; [lia|]. split; [split; [discriminate | lia]|]. discriminate.
  - split; [lia|]. split; [split; [discriminate | lia]|]. discriminate.
  - split; [lia|]. split; [split; [discriminate | lia]|]. discriminate.
Qed.

End Run.

(** The loop over the remaining files is the [while] loop of the
    source: one iteration under the loop's condition, on
    [files[completedTasks++]]. *)
Lemma runNextBatch_unfold (files : list string) (numCPUs : Z) (s : State) :
  runNextBatch files numCPUs s
  = if (activeProcesses s <? numCPUs)%Z
       && (completedTasks s <? totalFiles files)%nat
    then runNextBatch files numCPUs
           (runChildProcess (nth (completedTasks s) files ""%string)
                            (advance s))
    else s.
Proof.
  unfold runNextBatch at 1.
  destruct (skipn (completedTasks s) files) as [|f rest] eqn:R.
  - assert (L := length_skipn (completedTasks s) files).
    rewrite R in L. cbn [List.length] in L.
    assert (E : (completedTasks s <? totalFiles files)%nat = false)
      by (apply Nat.ltb_ge; unfold totalFiles; lia).
    rewrite E, andb_false_r. reflexivity.
  - destruct (skipn_cons_inv _ _ _ _ R) as (_ & S' & L).
    assert (E : (completedTasks s <? totalFiles files)%nat = true)
      by (apply Nat.ltb_lt; exact L).
    rewrite E, andb_true_r. cbn [runNextBatch_loop].
    destruct (activeProcesses s <? numCPUs)%Z; [|reflexivity].
    unfold runNextBatch.
    cbn [runChildProcess advance completedTasks]. rewrite S'.
    replace (nth (completedTasks s) files ""%string) with f; [reflexivity|].
    rewrite <- (firstn_skipn (completedTasks s) files) at 1.
    rewrite R, app_nth2 by (rewrite length_firstn; lia).
    rewrite length_firstn, Nat.min_l by lia.
    rewrite Nat.sub_diag. reflexivity.
Qed.

(** C2 as the claim states it is refuted here: one file, one worker,
    and the worker exits with code 1 without having sent anything. The
    ['exit'] handler only logs: no result is recorded for the file, the
    counter of active processes stays at 1, [finishProcessing] is never
    called, and no child is left that could still signal. *)
Lemma silent_exit_loses_the_result :
  let files := ["tile.b3dm"%string] in
  exists s,
    processFiles files 1 [Exit 0 1] = Some s
    /\ progress s = []
    /\ List.length (progress s) <> List.length files
    /\ children s = []
    /\ activeProcesses s = 1%Z
    /\ finished s = 0%nat
    /\ forall ev, handle files 1 ev s = None.
Proof.
  cbv zeta. eexists. split; [vm_compute; reflexivity|].
  cbn [progress children activeProcesses finished List.length].
  repeat match goal with |- _ /\ _ => split end;
    try reflexivity; try discriminate.
  intros [p text|p err|p code]; reflexivity.
Qed.

Lemma scheduler_completion_witness :
  exists s,
    processFiles Scenarios.batch_D 2 Scenarios.events_D = Some s
    /\ List.length (progress s) = List.length Scenarios.events_D.
Proof.
  eexists. split; [vm_compute; reflexivity|].
  refine (proj1 (proj2 (scheduler_completion
                          Scenarios.batch_D 2 _ Scenarios.events_D _ _ _))).
  - lia.
  - reflexivity.
  - vm_compute. reflexivity.
Defined.

(** Scenario D, run: five results, one of them the error of the third
    file; the fourth and fifth file are handed out after it, and the
    run finishes with no worker active. *)
Example scenario_D_run :
  exists s,
    processFiles Scenarios.batch_D 2 Scenarios.events_D = Some s
    /\ List.length (progress s) = 5%nat
    /\ map reports_error (progress s) = [false; false; true; false; false]
    /\ forked s = Scenarios.batch_D
    /\ completedTasks s = 5%nat
    /\ activeProcesses s = 0%Z
    /\ finished s = 1%nat.
Proof.
  eexists. split; [vm_compute; reflexivity|].
  repeat match goal with |- _ /\ _ => split end; reflexivity.
Qed.

End SchedulerFacts.

(** ** The container, written and read back; the three readers compared *)

Module Interchange.

Import Buffer BufferFacts CodecFacts SliceFacts CodecTheorems Reassembly.

Lemma skipn_exact {A : Type} (a b : list A) (n : nat) :
  List.length a = n -> skipn n (a ++ b) = b.
Proof.
  intros <-. rewrite skipn_app, skipn_all, Nat.sub_diag. reflexivity.
Qed.

Lemma firstn_exact {A : Type} (a b : list A) (n : nat) :
  List.length a = n -> firstn n (a ++ b) = a.
Proof.
  intros <-. rewrite firstn_app, firstn_all, Nat.sub_diag.
  cbn [firstn]. apply app_nil_r.
Qed.

Lemma write_header_total_out_of_range (h : Compress.Header) (glb : Buffer.t) :
  in_int32 (Compress.h_magic h) -> in_int32 (Compress.h_version h) ->
  ~ in_int32 (Compress.totalLength h glb) ->
  Compress.write_header h glb = Throw RangeError.
Proof.
  intros Hm Hv Ht. unfold Compress.write_header.
  rewrite (writeInt32LE_ok _ _ 0 Hm) by (cbn; lia). cbn [bind].
  rewrite writeInt32LE_ok; [|exact Hv|].
  2:{ rewrite !length_app, length_firstn, length_skipn. cbn. lia. }
  cbn [bind]. unfold writeInt32LE at 1.
  destruct ((Compress.totalLength h glb <? - 2 ^ 31)
            || (2 ^ 31 - 1 <? Compress.totalLength h glb)) eqn:E.
  - reflexivity.
  - exfalso. apply Ht. apply range_check. exact E.
Qed.

Lemma decode_header_in_range (B : Buffer.t) (c : Compress.Container) :
  Compress.decode B = Ok c ->
  (28 <= List.length B)%nat
  /\ in_int32 (Compress.magic c) /\ in_int32 (Compress.version c)
  /\ in_int32 (Compress.featureTableJSONByteLength c)
  /\ in_int32 (Compress.featureTableBinaryByteLength c)
  /\ in_int32 (Compress.batchTableJSONByteLength c)
  /\ in_int32 (Compress.batchTableBinaryByteLength c).
Proof.
  intros D.
  destruct (Nat.lt_ge_cases (List.length B) 28) as [S|L].
  - rewrite (compress_decode_short B S) in D. discriminate D.
  - destruct (compress_decode_long B L)
      as (m & v & t & fj & fb & bj & bb
          & Hm & Hv & Ht & Hfj & Hfb & Hbj & Hbb & _ & _ & E).
    rewrite E in D.
    match type of D with Ok ?r = Ok _ => assert (Hc : c = r) by congruence end.
    rewrite Hc.
    cbv [Compress.magic Compress.version Compress.featureTableJSONByteLength
         Compress.featureTableBinaryByteLength Compress.batchTableJSONByteLength
         Compress.batchTableBinaryByteLength].
    repeat match goal with |- _ /\ _ => split end; assumption.
Qed.

(** Re-assembly followed by reading: a header whose fields are 32-bit
    values, side tables as long as the header declares, and a total
    that fits in 32 bits give a buffer from which [decode] reads the
    same header fields, the same two tables and the same payload. *)
Lemma encode_then_decode (h : Compress.Header) (ft bt glb : Buffer.t) :
  in_int32 (Compress.h_magic h) -> in_int32 (Compress.h_version h) ->
  in_int32 (Compress.h_featureTableJSONByteLength h) ->
  in_int32 (Compress.h_featureTableBinaryByteLength h) ->
  in_int32 (Compress.h_batchTableJSONByteLength h) ->
  in_int32 (Compress.h_batchTableBinaryByteLength h) ->
  Buffer.byteLength ft
  = Compress.h_featureTableJSONByteLength h
    + Compress.h_featureTableBinaryByteLength h ->
  Buffer.byteLength bt
  = Compress.h_batchTableJSONByteLength h
    + Compress.h_batchTableBinaryByteLength h ->
  Compress.totalLength h glb <= 2 ^ 31 - 1 ->
  exists out c,
    Compress.encode h ft bt glb = Ok out
    /\ Compress.decode out = Ok c
    /\ Buffer.byteLength out = Compress.totalLength h glb
    /\ Compress.header_of c = h
    /\ Compress.byteLength c = Buffer.byteLength out
    /\ Compress.featureTable c = ft
    /\ Compress.batchTable c = bt
    /\ Compress.glbBytes c = glb.
Proof.
  destruct h as [m v fj fb bj bb].
  unfold Compress.totalLength.
  cbn [Compress.h_magic Compress.h_version
       Compress.h_featureTableJSONByteLength
       Compress.h_featureTableBinaryByteLength
       Compress.h_batchTableJSONByteLength
       Compress.h_batchTableBinaryByteLength].
  intros Hm Hv Hfj Hfb Hbj Hbb Lft Lbt Htot.
  set (h := {| Compress.h_magic := m; Compress.h_version := v;
               Compress.h_featureTableJSONByteLength := fj;
               Compress.h_featureTableBinaryByteLength := fb;
               Compress.h_batchTableJSONByteLength := bj;
               Compress.h_batchTableBinaryByteLength := bb |}).
  set (total := 28 + (fj + fb) + (bj + bb) + Buffer.byteLength glb) in *.
  pose proof (byteLength_nonneg ft) as Nft.
  pose proof (byteLength_nonneg bt) as Nbt.
  pose proof (byteLength_nonneg glb) as Nglb.
  assert (Ht : in_int32 total) by (unfold in_int32, total; lia).
  assert (Et : Compress.totalLength h glb = total) by reflexivity.
  set (header := ContainerSpec.header_bytes m v total fj fb bj bb).
  assert (W : Compress.write_header h glb = Ok header).
  { apply (write_header_ok h glb); cbn; try assumption. }
  assert (Lh : List.length header = 28%nat) by apply header_bytes_length.
  assert (Lall : List.length (header ++ ft ++ bt ++ glb) = Z.to_nat total).
  { rewrite !length_app, Lh. unfold total, Buffer.byteLength in *. lia. }
  exists (header ++ ft ++ bt ++ glb).
  assert (E : Compress.encode h ft bt glb = Ok (header ++ ft ++ bt ++ glb)).
  { rewrite (encode_ok h ft bt glb header W) by (rewrite Et; lia).
    rewrite Et, <- Lall, firstn_all, Nat.sub_diag. cbn [repeat].
    rewrite app_nil_r. reflexivity. }
  destruct (read_header_bytes m v total fj fb bj bb (ft ++ bt ++ glb)
              Hm Hv Ht Hfj Hfb Hbj Hbb)
    as (R0 & R4 & R8 & R12 & R16 & R20 & R24).
  fold header in R0, R4, R8, R12, R16, R20, R24.
  set (out := header ++ ft ++ bt ++ glb) in *.
  assert (Lout : Buffer.byteLength out = total).
  { unfold Buffer.byteLength. rewrite Lall. unfold total. lia. }
  eexists. split; [exact E|].
  split.
  { unfold Compress.decode.
    rewrite R0, R4, R8, R12, R16, R20, R24. cbn [bind]. reflexivity. }
  split; [exact Lout|].
  cbn [Compress.header_of Compress.magic Compress.version
       Compress.featureTableJSONByteLength
       Compress.featureTableBinaryByteLength
       Compress.batchTableJSONByteLength Compress.batchTableBinaryByteLength
       Compress.byteLength Compress.featureTable Compress.batchTable
       Compress.glbBytes].
  split; [reflexivity|]. split; [symmetry; exact Lout|].
  unfold Buffer.byteLength in Lft, Lbt.
  split; [|split].
  - rewrite subarray_inside by (rewrite ?Lout; unfold total; lia).
    replace (Z.to_nat 28) with 28%nat by reflexivity.
    unfold out. rewrite (skipn_exact header _ 28 Lh).
    apply firstn_exact. lia.
  - rewrite subarray_inside by (rewrite ?Lout; unfold total; lia).
    unfold out. rewrite app_assoc.
    rewrite (skipn_exact (header ++ ft)) by (rewrite length_app, Lh; lia).
    apply firstn_exact. lia.
  - rewrite subarray_inside by (rewrite ?Lout; unfold total; lia).
    unfold out.
    replace (header ++ ft ++ bt ++ glb) with ((header ++ ft ++ bt) ++ glb)
      by (rewrite <- !app_assoc; reflexivity).
    rewrite (skipn_exact (header ++ ft ++ bt))
      by (rewrite !length_app, Lh; lia).
    apply firstn_all2. unfold total, Buffer.byteLength. lia.
Qed.

(** X1. What [compress.js] does to a tile, with any new payload in place
    of the one it read. Take a file whose declared tables lie inside
    it; the total that its header declares does not matter. Then the
    re-assembly succeeds as long as the new total fits in 32 bits, the
    result is as long as its header says, and reading it back gives
    the header fields and the two side tables of the file that was
    read, and the new payload. *)
Theorem new_payload_keeps_tables
        (B : Buffer.t) (c : Compress.Container) (glb : Buffer.t) :
  Compress.decode B = Ok c ->
  0 <= Compress.featureTableLength c ->
  0 <= Compress.batchTableLength c ->
  Compress.glbStart c <= Buffer.byteLength B ->
  Compress.glbStart c + Buffer.byteLength glb <= 2 ^ 31 - 1 ->
  exists out c',
    Compress.encode (Compress.header_of c) (Compress.featureTable c)
                    (Compress.batchTable c) glb = Ok out
    /\ Compress.decode out = Ok c'
    /\ Buffer.byteLength out = Compress.glbStart c + Buffer.byteLength glb
    /\ Compress.byteLength c' = Buffer.byteLength out
    /\ Compress.header_of c' = Compress.header_of c
    /\ Compress.featureTable c' = Compress.featureTable c
    /\ Compress.batchTable c' = Compress.batchTable c
    /\ Compress.glbBytes c' = glb.
Proof.
  intros D.
  destruct (decode_header_in_range B c D)
    as (L & Hm & Hv & Hfj & Hfb & Hbj & Hbb).
  destruct (compress_decode_long B L)
    as (m & v & t & fj & fb & bj & bb & _ & _ & _ & _ & _ & _ & _ & _ & _ & E).
  rewrite E in D.
  match type of D with Ok ?r = Ok _ => assert (Hc : c = r) by congruence end.
  clear D E. subst c.
  cbn [Compress.featureTableLength Compress.batchTableLength
       Compress.glbStart Compress.featureTable Compress.batchTable
       Compress.header_of Compress.magic Compress.version
       Compress.featureTableJSONByteLength
       Compress.featureTableBinaryByteLength
       Compress.batchTableJSONByteLength Compress.batchTableBinaryByteLength]
    in *.
  intros Nf Nb Inside Fit.
  set (ft := subarray B 28 (28 + (fj + fb))).
  set (bt := subarray B (28 + fj + fb) (28 + fj + fb + (bj + bb))).
  set (h := {| Compress.h_magic := m; Compress.h_version := v;
               Compress.h_featureTableJSONByteLength := fj;
               Compress.h_featureTableBinaryByteLength := fb;
               Compress.h_batchTableJSONByteLength := bj;
               Compress.h_batchTableBinaryByteLength := bb |}).
  assert (Lft : Buffer.byteLength ft = fj + fb).
  { unfold ft. rewrite subarray_inside by lia.
    unfold Buffer.byteLength in *.
    rewrite length_firstn, length_skipn. lia. }
  assert (Lbt : Buffer.byteLength bt = bj + bb).
  { unfold bt. rewrite subarray_inside by lia.
    unfold Buffer.byteLength in *.
    rewrite length_firstn, length_skipn. lia. }
  destruct (encode_then_decode h ft bt glb Hm Hv Hfj Hfb Hbj Hbb Lft Lbt)
    as (out & c' & En & De & Len & Hh & Hl & Hf & Hb & Hg).
  { unfold Compress.totalLength, h.
    cbn [Compress.h_featureTableJSONByteLength
         Compress.h_featureTableBinaryByteLength
         Compress.h_batchTableJSONByteLength
         Compress.h_batchTableBinaryByteLength]. lia. }
  exists out, c'.
  split; [exact En|]. split; [exact De|].
  split.
  { rewrite Len. unfold Compress.totalLength, h.
    cbn [Compress.h_featureTableJSONByteLength
         Compress.h_featureTableBinaryByteLength
         Compress.h_batchTableJSONByteLength
         Compress.h_batchTableBinaryByteLength]. lia. }
  split; [exact Hl|]. split; [exact Hh|].
  split; [exact Hf|]. split; [exact Hb | exact Hg].
Qed.

Lemma new_payload_keeps_tables_witness :
  exists c out c',
    Compress.decode ContainerSpec.scenario_A = Ok c
    /\ Compress.encode (Compress.header_of c) (Compress.featureTable c)
                       (Compress.batchTable c) (repeat x67 4) = Ok out
    /\ Compress.decode out = Ok c'
    /\ Compress.glbBytes c' = repeat x67 4.
Proof.
  destruct (Compress.decode ContainerSpec.scenario_A) as [c|e] eqn:D;
    [|vm_compute in D; discriminate D].
  assert (Ec : Ok c = Compress.decode ContainerSpec.scenario_A)
    by (symmetry; exact D).
  vm_compute in Ec. injection Ec as Ec.
  destruct (new_payload_keeps_tables ContainerSpec.scenario_A c (repeat x67 4) D)
    as (out & c' & En & De & _ & _ & _ & _ & _ & G).
  1-4: rewrite Ec; vm_compute; discriminate.
  exists c, out, c'.
  split; [reflexivity|]. split; [exact En|]. split; [exact De | exact G].
Defined.

End Interchange.

Module ReassemblyErrors.

Import Buffer BufferFacts CodecFacts SliceFacts CodecTheorems Reassembly.
Import Interchange.

(** X2. When the re-assembly of [compress.js] fails. The header fields come
    from a file that was read, so each is a 32-bit value; whatever the
    tables and the payload are, the re-assembly throws a RangeError
    exactly when the total it computes is negative or above 2^31 - 1,
    and returns a buffer otherwise. *)
Theorem encode_fails_iff_total_out_of_range
        (B : Buffer.t) (c : Compress.Container) (ft bt glb : Buffer.t) :
  Compress.decode B = Ok c ->
  let total := Compress.totalLength (Compress.header_of c) glb in
  (Compress.encode (Compress.header_of c) ft bt glb = Throw RangeError
   <-> ~ 0 <= total <= 2 ^ 31 - 1)
  /\ ((exists out, Compress.encode (Compress.header_of c) ft bt glb = Ok out)
      <-> 0 <= total <= 2 ^ 31 - 1).
Proof.
  intros D total.
  destruct (decode_header_in_range B c D)
    as (_ & Hm & Hv & Hfj & Hfb & Hbj & Hbb).
  set (h := Compress.header_of c) in *.
  assert (Cases : (0 <= total <= 2 ^ 31 - 1
                   /\ exists out, Compress.encode h ft bt glb = Ok out)
                  \/ (~ 0 <= total <= 2 ^ 31 - 1
                      /\ Compress.encode h ft bt glb = Throw RangeError)).
  { destruct (Z_lt_ge_dec total 0) as [Neg|Pos].
    - right. split; [lia|].
      destruct (Z_lt_ge_dec total (- 2 ^ 31)) as [Low|High].
      + unfold Compress.encode.
        rewrite write_header_total_out_of_range; try assumption;
          [reflexivity|].
        unfold in_int32. fold total. lia.
      + assert (Ht : in_int32 (Compress.totalLength h glb))
          by (unfold in_int32; fold total; lia).
        unfold Compress.encode.
        rewrite (write_header_ok h glb Hm Hv Ht Hfj Hfb Hbj Hbb).
        cbn [bind]. unfold Buffer.concat. fold total.
        apply Z.ltb_lt in Neg. rewrite Neg. reflexivity.
    - destruct (Z_le_gt_dec total (2 ^ 31 - 1)) as [Fit|Big].
      + left. split; [lia|].
        assert (Ht : in_int32 (Compress.totalLength h glb))
          by (unfold in_int32; fold total; lia).
        eexists. apply encode_ok.
        * exact (write_header_ok h glb Hm Hv Ht Hfj Hfb Hbj Hbb).
        * fold total. lia.
      + right. split; [lia|].
        unfold Compress.encode.
        rewrite write_header_total_out_of_range; try assumption;
          [reflexivity|].
        unfold in_int32. fold total. lia. }
  destruct Cases as [[R [out E]]|[R E]].
  - split; split; intros H.
    + rewrite E in H. discriminate H.
    + contradiction.
    + exact R.
    + exists out. exact E.
  - split; split; intros H.
    + exact R.
    + exact E.
    + destruct H as [out H]. rewrite E in H. discriminate H.
    + contradiction.
Qed.

Lemma encode_fails_iff_total_out_of_range_witness :
  exists c,
    Compress.decode ContainerSpec.negative_table = Ok c
    /\ exists out,
        Compress.encode (Compress.header_of c) [] [] (repeat x67 4) = Ok out.
Proof.
  eexists. split; [vm_compute; reflexivity|].
  refine (proj2 (proj2 (encode_fails_iff_total_out_of_range
                          ContainerSpec.negative_table _ [] []
                          (repeat x67 4) eq_refl)) _).
  vm_compute. split; discriminate.
Defined.

End ReassemblyErrors.

Module Readers.

Import Buffer BufferFacts CodecFacts SliceFacts CodecTheorems.

Lemma worker_slice_from (B : Buffer.t) (s t : Z) :
  subarray_from B s
  = subarray B s t
    ++ skipn (Z.to_nat (Z.max (adjustOffset s (Buffer.byteLength B))
                              (adjustOffset t (Buffer.byteLength B)))) B.
Proof.
  pose proof (byteLength_nonneg B) as NB.
  pose proof (adjustOffset_clamped s _ NB) as Cs.
  pose proof (adjustOffset_clamped t _ NB) as Ct.
  unfold subarray, subarray_from.
  set (n := Buffer.byteLength B) in *.
  set (s' := adjustOffset s n) in *. set (t' := adjustOffset t n) in *.
  assert (Whole : firstn (Z.to_nat (if s' <? n then n - s' else 0))
                         (skipn (Z.to_nat s') B)
                  = skipn (Z.to_nat s') B).
  { apply firstn_all2. rewrite length_skipn.
    unfold n, Buffer.byteLength in *.
    destruct (s' <? Z.of_nat (List.length B)) eqn:E; unbool; lia. }
  rewrite Whole.
  destruct (s' <? t') eqn:E; unbool.
  - rewrite Z.max_r by lia.
    rewrite <- (firstn_skipn (Z.to_nat (t' - s')) (skipn (Z.to_nat s') B)) at 1.
    rewrite skipn_skipn. f_equal. f_equal. lia.
  - rewrite Z.max_l by lia. reflexivity.
Qed.

(** X3. The three readers on one file of at least 28 bytes. The extractor
    and [compress.js] take the same payload, from the same start. The
    worker starts there too but reads to the end of the file. In every
    case its payload is the payload of the other two followed by the
    rest of the file from the later of the start and the declared total
    on, both clamped to the file as [subarray] clamps them. So it is
    the same payload when the declared total is not below the length of
    the file; and for a start that lies between 0 and a declared total
    inside the file it is the declared payload followed by the bytes
    that trail the container. With a declared total between 0 and the
    start the other two get nothing and the worker gets the file from
    the start on. *)
Theorem readers_agree (B : Buffer.t) :
  (28 <= List.length B)%nat ->
  exists c p g,
    Compress.decode B = Ok c
    /\ Extract.decode B = Ok p
    /\ Worker.glbBytes B = Ok g
    /\ Extract.glbStart p = Compress.glbStart c
    /\ Worker.glbStart B = Ok (Compress.glbStart c)
    /\ Extract.byteLength p = Compress.byteLength c
    /\ Extract.glbBytes p = Compress.glbBytes c
    /\ (Buffer.byteLength B <= Compress.byteLength c ->
        g = Compress.glbBytes c)
    /\ (0 <= Compress.glbStart c <= Compress.byteLength c ->
        Compress.byteLength c <= Buffer.byteLength B ->
        g = Compress.glbBytes c
            ++ skipn (Z.to_nat (Compress.byteLength c)) B)
    /\ g = Compress.glbBytes c
           ++ skipn (Z.to_nat
                       (Z.max (adjustOffset (Compress.glbStart c)
                                            (Buffer.byteLength B))
                              (adjustOffset (Compress.byteLength c)
                                            (Buffer.byteLength B)))) B
    /\ (0 <= Compress.byteLength c <= Compress.glbStart c ->
        Compress.glbBytes c = []
        /\ g = skipn (Z.to_nat (adjustOffset (Compress.glbStart c)
                                             (Buffer.byteLength B))) B).
Proof.
  intros L.
  destruct (readInt32LE_long B 0) as (m & R0 & _); [lia|].
  destruct (readInt32LE_long B 4) as (v & R4 & _); [lia|].
  destruct (readInt32LE_long B 8) as (t & R8 & _); [lia|].
  destruct (readInt32LE_long B 12) as (fj & R12 & _); [lia|].
  destruct (readInt32LE_long B 16) as (fb & R16 & _); [lia|].
  destruct (readInt32LE_long B 20) as (bj & R20 & _); [lia|].
  destruct (readInt32LE_long B 24) as (bb & R24 & _); [lia|].
  eexists. eexists. eexists.
  split.
  { unfold Compress.decode. rewrite R0, R4, R8, R12, R16, R20, R24.
    cbn [bind]. reflexivity. }
  split.
  { unfold Extract.decode. rewrite R4, R8, R12, R16, R20, R24.
    cbn [bind]. reflexivity. }
  split.
  { unfold Worker.glbBytes, Worker.glbStart. rewrite R12, R16, R20, R24.
    cbn [bind]. reflexivity. }
  cbn [Extract.glbStart Compress.glbStart Extract.byteLength
       Compress.byteLength Extract.glbBytes Compress.glbBytes].
  assert (Es : 28 + fj + fb + bj + bb = 28 + fj + fb + (bj + bb)) by lia.
  split; [reflexivity|].
  split.
  { unfold Worker.glbStart. rewrite R12, R16, R20, R24. cbn [bind].
    rewrite Es. reflexivity. }
  split; [reflexivity|]. split; [reflexivity|].
  rewrite Es. set (s := 28 + fj + fb + (bj + bb)).
  pose proof (byteLength_nonneg B) as NB.
  split; [|split; [|split]].
  - intros Ht. unfold subarray, subarray_from.
    rewrite (adjustOffset_beyond t) by lia. reflexivity.
  - intros Hs Ht.
    rewrite subarray_from_inside by lia.
    rewrite subarray_inside by lia.
    rewrite <- (firstn_skipn (Z.to_nat (t - s)) (skipn (Z.to_nat s) B)) at 1.
    rewrite skipn_skipn. f_equal. f_equal. lia.
  - apply worker_slice_from.
  - intros Hts.
    pose proof (adjustOffset_clamped s _ NB) as Cs.
    pose proof (adjustOffset_clamped t _ NB) as Ct.
    assert (Mono : adjustOffset t (Buffer.byteLength B)
                   <= adjustOffset s (Buffer.byteLength B)).
    { unfold adjustOffset.
      destruct (t =? 0) eqn:T0, (s =? 0) eqn:S0,
               (t <? 0) eqn:T1, (s <? 0) eqn:S1,
               (0 <? t + Buffer.byteLength B) eqn:T2,
               (0 <? s + Buffer.byteLength B) eqn:S2,
               (t <? Buffer.byteLength B) eqn:T3,
               (s <? Buffer.byteLength B) eqn:S3; unbool; lia. }
    assert (Empty : subarray B s t = []).
    { unfold subarray.
      destruct (adjustOffset s (Buffer.byteLength B)
                <? adjustOffset t (Buffer.byteLength B)) eqn:E; unbool;
        [lia | reflexivity]. }
    split; [exact Empty|].
    rewrite (worker_slice_from B s t), Empty, Z.max_l by lia. reflexivity.
Qed.

(** A declared total of 0 on a file of 40 bytes: the extractor and
    [compress.js] get no payload, the worker gets the 12 bytes after
    the header. *)
Example declared_total_zero :
  Worker.glbBytes Samples.zero_total = Ok (repeat x67 12)
  /\ (exists c, Compress.decode Samples.zero_total = Ok c
                /\ Compress.glbBytes c = [])
  /\ (exists p, Extract.decode Samples.zero_total = Ok p
                /\ Extract.glbBytes p = []).
Proof.
  split; [vm_compute; reflexivity|].
  split; eexists; (split; [vm_compute; reflexivity | reflexivity]).
Qed.

Lemma readers_agree_witness :
  exists c g,
    Compress.decode ContainerSpec.scenario_A = Ok c
    /\ Worker.glbBytes ContainerSpec.scenario_A = Ok g
    /\ g = Compress.glbBytes c.
Proof.
  destruct (readers_agree ContainerSpec.scenario_A)
    as (c & p & g & D & _ & G & _ & _ & _ & _ & Same & _).
  - apply Nat.leb_le. reflexivity.
  - exists c, g. split; [exact D|]. split; [exact G|].
    apply Same.
    assert (E : Ok c = Compress.decode ContainerSpec.scenario_A)
      by (symmetry; exact D).
    vm_compute in E. injection E as ->.
    vm_compute. discriminate.
Defined.

End Readers.

(** ** The tileset rewriter: when it fails, and what a run leaves *)

Module RewriterFacts.

Import JsString Tileset StringFacts TilesetFacts.
#[local] Open Scope string_scope.

Lemma has_own_rewritten {number : Type} (name : string)
      (members : list (string * JSON number)) :
  has_own name
          (map (fun kv => match kv with
                          | (key, value) => (key, rewrite_node stale fresh value)
                          end) members)
  = has_own name members.
Proof.
  unfold has_own. induction members as [|[k v] members IH]; [reflexivity|].
  cbn [map existsb fst]. rewrite IH. reflexivity.
Qed.

Lemma ordinary_rewritten {number : Type} (obj : JSON number) :
  ordinary (rewrite_node stale fresh obj) = ordinary obj.
Proof.
  induction obj as [| | | |items IH|members IH] using JSON_induction;
    try reflexivity.
  - cbn [rewrite_node ordinary].
    induction IH as [|x l Hx _ IHl]; [reflexivity|].
    cbn [map forallb]. rewrite Hx, IHl. reflexivity.
  - cbn [rewrite_node ordinary]. rewrite has_own_rewritten. f_equal.
    induction IH as [|[k v] l Hx _ IHl]; [reflexivity|].
    cbn [map forallb]. cbn [snd] in Hx. rewrite Hx, IHl. reflexivity.
Qed.

(** *** The call stack *)

Lemma traverse_ext {A B : Type} (f g : A -> result B) (l : list A) :
  Forall (fun x => f x = g x) l ->
  TilesetStack.traverse f l = TilesetStack.traverse g l.
Proof.
  induction 1 as [|x l Hx _ IH]; [reflexivity|].
  cbn [TilesetStack.traverse] in *. rewrite Hx, IH. reflexivity.
Qed.

Lemma traverse_ok {A B : Type} (f : A -> result B) (l : list A)
      (ys : list B) :
  TilesetStack.traverse f l = Ok ys ->
  Forall (fun x => exists y, f x = Ok y) l.
Proof.
  revert ys. induction l as [|x l IH]; intros ys H; [constructor|].
  cbn [TilesetStack.traverse] in H.
  destruct (f x) as [y|e] eqn:Fx; [|discriminate H]. cbn [bind] in H.
  destruct (TilesetStack.traverse f l) as [ys'|e] eqn:Fl; [|discriminate H].
  constructor; [exists y; exact Fx | apply (IH ys'); reflexivity].
Qed.

Lemma traverse_throw {A B : Type} (f : A -> result B) (l : list A)
      (e : error) :
  TilesetStack.traverse f l = Throw e ->
  Exists (fun x => f x = Throw e) l.
Proof.
  induction l as [|x l IH]; intros H; [discriminate H|].
  cbn [TilesetStack.traverse] in H.
  destruct (f x) as [y|e'] eqn:Fx; cbn [bind] in H.
  - destruct (TilesetStack.traverse f l) as [ys'|e'] eqn:Fl;
      [discriminate H|].
    cbn [bind] in H. apply Exists_cons_tl. apply IH. exact H.
  - apply Exists_cons_hd. injection H as <-. exact Fx.
Qed.

Lemma bind_ok_inv {A B : Type} (r : result A) (k : A -> result B) (b : B) :
  bind r k = Ok b -> exists a, r = Ok a /\ k a = Ok b.
Proof.
  destruct r as [a|e]; [|discriminate]. intros H. exists a.
  split; [reflexivity | exact H].
Qed.

Lemma fold_max_le {A : Type} (g : A -> nat) (l : list A) (m : nat) :
  (fold_right (fun v n => Nat.max (g v) n) 0 l <= m)%nat
  <-> Forall (fun v => (g v <= m)%nat) l.
Proof.
  induction l as [|x l IH]; cbn [fold_right].
  - split; [constructor | lia].
  - split.
    + intros H. constructor; [lia | apply IH; lia].
    + intros H. inversion H as [|? ? Hx Hl]; subst.
      apply IH in Hl. lia.
Qed.

Section Stack.

Variable number : Type.
Variable array_frame object_frame leaf_frame : nat.

Abbreviation on_stack :=
  (TilesetStack.replaceB3dmWithGlb_on
     (number := number) array_frame object_frame leaf_frame).
Abbreviation needed :=
  (TilesetStack.needs (number := number) array_frame object_frame leaf_frame).

Lemma unbounded_array (items : list (JSON number)) :
  replaceB3dmWithGlb (JArray items)
  = (let* items' := TilesetStack.traverse replaceB3dmWithGlb items in
     Ok (JArray items')).
Proof. reflexivity. Qed.

Lemma unbounded_object (members : list (string * JSON number)) :
  replaceB3dmWithGlb (JObject members)
  = (let* members' :=
       TilesetStack.traverse
         (fun kv : string * JSON number =>
            match kv with
            | (key, value) =>
              let* own := hasOwnProperty number members key in
              let* value' :=
                if own then replaceB3dmWithGlb value else Ok value in
              Ok (key, value')
            end) members in
     Ok (JObject members')).
Proof.
  cbn [replaceB3dmWithGlb].
  match goal with
  | |- bind (?F members) _ = bind (?G members) _ =>
    assert (E : forall l, F l = G l)
  end.
  { induction l as [|[k v] l IHl]; [reflexivity|].
    cbn [TilesetStack.traverse]. rewrite <- IHl.
    destruct (hasOwnProperty number members k) as [own|e]; cbn [bind];
      [|reflexivity].
    destruct (if own then replaceB3dmWithGlb v else Ok v) as [value'|e];
      reflexivity. }
  rewrite E. reflexivity.
Qed.

Lemma needed_array (items : list (JSON number)) :
  needed (JArray items)
  = (array_frame + fold_right (fun v n => Nat.max (needed v) n) 0 items)%nat.
Proof. reflexivity. Qed.

Lemma needed_object (members : list (string * JSON number)) :
  needed (JObject members)
  = (object_frame
     + fold_right (fun kv n => Nat.max (needed (snd kv)) n) 0 members)%nat.
Proof.
  cbn [TilesetStack.needs TilesetStack.frame]. f_equal.
  induction members as [|[k v] members IH]; [reflexivity|].
  cbn [fold_right snd]. rewrite IH. reflexivity.
Qed.

(** With enough stack the function does what it does without a limit. *)
Lemma within_the_stack (obj : JSON number) :
  forall stack, (needed obj <= stack)%nat ->
                on_stack obj stack = replaceB3dmWithGlb obj.
Proof.
  induction obj as [| | | s | items IH | members IH] using JSON_induction;
    intros stack H.
  1-4: cbn [TilesetStack.needs TilesetStack.frame] in H;
       cbn [TilesetStack.replaceB3dmWithGlb_on TilesetStack.frame];
       destruct (stack <? leaf_frame)%nat eqn:E;
       [apply Nat.ltb_lt in E; lia | reflexivity].
  - rewrite needed_array in H. rewrite unbounded_array.
    cbn [TilesetStack.replaceB3dmWithGlb_on TilesetStack.frame].
    destruct (stack <? array_frame)%nat eqn:E;
      [apply Nat.ltb_lt in E; lia|].
    f_equal. apply traverse_ext.
    assert (Hl : Forall (fun v => (needed v <= stack - array_frame)%nat) items)
      by (apply fold_max_le; lia).
    clear H E. induction IH as [|v items Hv _ IHitems]; [constructor|].
    inversion Hl; subst. constructor; [apply Hv; assumption|].
    apply IHitems. assumption.
  - rewrite needed_object in H. rewrite unbounded_object.
    cbn [TilesetStack.replaceB3dmWithGlb_on TilesetStack.frame].
    destruct (stack <? object_frame)%nat eqn:E;
      [apply Nat.ltb_lt in E; lia|].
    f_equal. apply traverse_ext.
    assert (Hl : Forall (fun kv => (needed (snd kv) <= stack - object_frame)%nat)
                        members)
      by (apply (fold_max_le (fun kv => needed (snd kv))); lia).
    clear H E. generalize members at 1 2 as all.
    induction IH as [|[k v] rest Hv _ IHrest]; intros all; [constructor|].
    inversion Hl; subst. cbn [snd] in *. constructor.
    + rewrite Hv by assumption. reflexivity.
    + apply IHrest. assumption.
Qed.

(** A call that returns has had the stack for every call below it. *)
Lemma returned_within_the_stack (obj : JSON number) :
  forall stack obj', on_stack obj stack = Ok obj' ->
                     (needed obj <= stack)%nat.
Proof.
  induction obj as [| | | s | items IH | members IH] using JSON_induction;
    intros stack obj' H.
  1-4: cbn [TilesetStack.needs TilesetStack.frame];
       cbn [TilesetStack.replaceB3dmWithGlb_on TilesetStack.frame] in H;
       destruct (stack <? leaf_frame)%nat eqn:E;
       [discriminate H | apply Nat.ltb_ge in E; lia].
  - rewrite needed_array.
    cbn [TilesetStack.replaceB3dmWithGlb_on TilesetStack.frame] in H.
    destruct (stack <? array_frame)%nat eqn:E; [discriminate H|].
    apply Nat.ltb_ge in E.
    apply bind_ok_inv in H. destruct H as (items' & T & _).
    apply traverse_ok in T.
    assert (Hl : Forall (fun v => (needed v <= stack - array_frame)%nat) items).
    { clear E. induction IH as [|v items Hv _ IHitems]; [constructor|].
      inversion T as [|? ? [y Hy] Tl]; subst.
      constructor; [exact (Hv _ _ Hy) | apply IHitems; exact Tl]. }
    apply fold_max_le in Hl. lia.
  - rewrite needed_object.
    cbn [TilesetStack.replaceB3dmWithGlb_on TilesetStack.frame] in H.
    destruct (stack <? object_frame)%nat eqn:E; [discriminate H|].
    apply Nat.ltb_ge in E.
    apply bind_ok_inv in H. destruct H as (members' & T & _).
    apply traverse_ok in T.
    assert (Hl : Forall (fun kv => (needed (snd kv) <= stack - object_frame)%nat)
                        members).
    { clear E. revert T. generalize members at 1 as all. intros all T.
      induction IH as [|[k v] rest Hv _ IHrest]; [constructor|].
      inversion T as [|? ? [y Hy] Tl]; subst.
      constructor; [|apply IHrest; exact Tl].
      cbn [snd] in *.
      unfold hasOwnProperty in Hy.
      destruct (has_own "hasOwnProperty" all); [discriminate Hy|].
      cbn [bind] in Hy.
      apply bind_ok_inv in Hy. destruct Hy as (value' & Hy & _).
      exact (Hv _ _ Hy). }
    apply (fold_max_le (fun kv => needed (snd kv))) in Hl. lia.
Qed.

(** A TypeError comes from an own key and from nowhere else. *)
Lemma type_error_from_own_key (obj : JSON number) :
  forall stack, on_stack obj stack = Throw TypeError -> ordinary obj = false.
Proof.
  induction obj as [| | | s | items IH | members IH] using JSON_induction;
    intros stack H.
  1-4: cbn [TilesetStack.replaceB3dmWithGlb_on TilesetStack.frame] in H;
       destruct (stack <? leaf_frame)%nat; discriminate H.
  - cbn [TilesetStack.replaceB3dmWithGlb_on TilesetStack.frame] in H.
    destruct (stack <? array_frame)%nat; [discriminate H|].
    match type of H with
    | bind ?r _ = _ => destruct r as [items'|e] eqn:T; [discriminate H|]
    end.
    cbn [bind] in H. injection H as ->.
    apply traverse_throw in T. cbn [ordinary].
    induction IH as [|v items Hv _ IHitems]; [inversion T|].
    cbn [forallb]. inversion T as [? ? Hx|? ? Hl]; subst.
    + rewrite (Hv _ Hx). reflexivity.
    + rewrite (IHitems Hl). apply andb_false_r.
  - cbn [TilesetStack.replaceB3dmWithGlb_on TilesetStack.frame] in H.
    destruct (stack <? object_frame)%nat; [discriminate H|].
    match type of H with
    | bind ?r _ = _ => destruct r as [members'|e] eqn:T; [discriminate H|]
    end.
    cbn [bind] in H. injection H as ->.
    apply traverse_throw in T. cbn [ordinary].
    destruct (has_own "hasOwnProperty" members) eqn:Own; [reflexivity|].
    cbn [negb andb].
    unfold hasOwnProperty in T. rewrite Own in T. clear Own.
    induction IH as [|[k v] rest Hv _ IHrest]; [inversion T|].
    cbn [forallb]. inversion T as [? ? Hx|? ? Hl]; subst.
    + cbn [bind] in Hx. cbn [snd] in Hv.
      destruct (on_stack v (stack - object_frame)) as [value'|e] eqn:V;
        [discriminate Hx|].
      cbn [bind] in Hx. injection Hx as ->.
      rewrite (Hv _ V). reflexivity.
    + rewrite (IHrest Hl). apply andb_false_r.
Qed.

End Stack.

(** X4. The rewriter on a call stack of some size, where every call
    takes its frame and a call that does not fit is a RangeError. As
    long as the stack holds the deepest chain of calls on the tree, the
    rewriter throws exactly when some object of the tree has an own key
    called [hasOwnProperty], and then a TypeError; on every other tree
    it returns a tree. A tree without such a key that is nested too
    deeply for the stack gives a RangeError, and this is the only way
    in which such a tree fails. A tree with such a key never gives a
    result. *)
Theorem rewriter_fails_iff_own_key {number : Type}
        (array_frame object_frame leaf_frame : nat)
        (obj : JSON number) (stack : nat) :
  let run :=
    TilesetStack.replaceB3dmWithGlb_on array_frame object_frame leaf_frame
                                       obj stack in
  let needed :=
    TilesetStack.needs array_frame object_frame leaf_frame obj in
  ((needed <= stack)%nat ->
   run = replaceB3dmWithGlb obj
   /\ (run = Throw TypeError <-> ordinary obj = false)
   /\ ((exists obj', run = Ok obj') <-> ordinary obj = true)
   /\ run <> Throw RangeError)
  /\ (ordinary obj = true ->
      (run = Throw RangeError <-> (stack < needed)%nat)
      /\ run <> Throw TypeError)
  /\ (ordinary obj = false -> forall obj', run <> Ok obj')
  /\ (forall obj', run = Ok obj' ->
                   (needed <= stack)%nat /\ replaceB3dmWithGlb obj = Ok obj').
Proof.
  cbv zeta.
  set (run := TilesetStack.replaceB3dmWithGlb_on
                array_frame object_frame leaf_frame obj stack).
  set (needed := TilesetStack.needs array_frame object_frame leaf_frame obj).
  assert (Within : (needed <= stack)%nat -> run = replaceB3dmWithGlb obj)
    by apply within_the_stack.
  assert (Returned : forall obj', run = Ok obj' -> (needed <= stack)%nat)
    by apply returned_within_the_stack.
  assert (Typed : run = Throw TypeError -> ordinary obj = false)
    by apply type_error_from_own_key.
  pose proof (replaceB3dmWithGlb_refines obj) as Ref.
  split; [|split; [|split]].
  - intros H. specialize (Within H). rewrite Within, Ref.
    destruct (ordinary obj).
    + split; [reflexivity|]. split; [split; discriminate|].
      split; [|discriminate].
      split; [reflexivity|]. intros _. eexists. reflexivity.
    + split; [reflexivity|]. split; [split; reflexivity|].
      split; [|discriminate].
      split; [intros [obj' Q]; discriminate Q | discriminate].
  - intros O. split.
    + split.
      * intros R. destruct (Nat.lt_ge_cases stack needed) as [Lt|Ge];
          [exact Lt|].
        rewrite (Within Ge), Ref, O in R. discriminate R.
      * intros Lt. destruct run as [obj'|[|]] eqn:R.
        -- specialize (Returned obj' eq_refl). lia.
        -- reflexivity.
        -- specialize (Typed eq_refl). congruence.
    + intros T. specialize (Typed T). congruence.
  - intros O obj' R. pose proof (Returned obj' R) as Ge.
    rewrite (Within Ge), Ref, O in R. discriminate R.
  - intros obj' R. pose proof (Returned obj' R) as Ge.
    split; [exact Ge|]. rewrite <- (Within Ge). exact R.
Qed.

(** Arrays nested more deeply than the stack allows: the strings of
    the tree are plain, and the rewriter fails with a RangeError. *)
Example deep_nesting_overflows :
  ordinary (TilesetStack.nested 3000 (JString "tiles/0.b3dm")) = true
  /\ TilesetStack.replaceB3dmWithGlb_on
       3 2 2 (TilesetStack.nested 3000 (JString "tiles/0.b3dm")) 4000
     = Throw RangeError.
Proof.
  split; vm_compute; reflexivity.
Qed.

(** X5. What a successful run returns: no string of the result holds
    [".b3dm"] any more, a second run over the result returns it as it
    is, and a tree that held no [".b3dm"] comes back unchanged. *)
Theorem rewriter_result_is_final {number : Type} (obj obj' : JSON number) :
  replaceB3dmWithGlb obj = Ok obj' ->
  stale_count obj' = 0%nat
  /\ replaceB3dmWithGlb obj' = Ok obj'
  /\ (stale_count obj = 0%nat -> obj' = obj).
Proof.
  rewrite (replaceB3dmWithGlb_refines obj).
  destruct (ordinary obj) eqn:O; [|discriminate].
  intros E. injection E as <-.
  split; [apply rewritten_has_none|]. split.
  - rewrite (replaceB3dmWithGlb_refines (rewrite_node stale fresh obj)).
    rewrite ordinary_rewritten, O, rewrite_idempotent. reflexivity.
  - apply untouched_without_stale.
Qed.

Lemma rewriter_result_is_final_witness :
  stale_count (number := Z) Scenarios.tileset_E_rewritten = 0%nat
  /\ replaceB3dmWithGlb (number := Z) Scenarios.tileset_E_rewritten
     = Ok Scenarios.tileset_E_rewritten.
Proof.
  destruct (rewriter_result_is_final (number := Z) Scenarios.tileset_E
              Scenarios.tileset_E_rewritten) as (C & R & _).
  - vm_compute. reflexivity.
  - split; [exact C | exact R].
Defined.

End RewriterFacts.

(** ** The name of the output file *)

Module OutputPath.

Import JsString JsText Tileset StringFacts.
#[local] Open Scope string_scope.

Lemma endsWith_append (suffix a : string) : endsWith suffix (a ++ suffix) = true.
Proof.
  induction a as [|c a IH].
  - cbn [append]. destruct suffix as [|x suffix]; cbn [endsWith];
      rewrite String.eqb_refl; reflexivity.
  - cbn [append endsWith]. rewrite IH.
    destruct (String c (a ++ suffix) =? suffix)%string; reflexivity.
Qed.

Lemma endsWith_after (suffix a b : string) :
  endsWith suffix b = true -> endsWith suffix (a ++ b) = true.
Proof.
  intros E. induction a as [|c a IH]; [exact E|].
  cbn [append endsWith]. rewrite IH.
  destruct (String c (a ++ b) =? suffix)%string; reflexivity.
Qed.

Lemma prefix_refl (p : string) : prefix p p = true.
Proof.
  rewrite <- (append_nil_r p) at 2. apply prefix_append.
Qed.

Lemma endsWith_includes (suffix s : string) :
  endsWith suffix s = true -> includes suffix s = true.
Proof.
  induction s as [|c s IH]; intros E.
  - cbn [endsWith] in E. cbn [includes].
    destruct ("" =? suffix)%string eqn:Q; [|discriminate E].
    apply String.eqb_eq in Q. subst suffix. reflexivity.
  - cbn [endsWith] in E. rewrite includes_cons.
    destruct (String c s =? suffix)%string eqn:Q.
    + apply String.eqb_eq in Q. rewrite <- Q, prefix_refl. reflexivity.
    + rewrite (IH E). destruct (prefix suffix (String c s)); reflexivity.
Qed.

Lemma append_inv_head (a b c : string) : a ++ b = a ++ c -> b = c.
Proof.
  induction a as [|x a IH]; intros E; [exact E|].
  cbn [append] in E. injection E as E. apply IH. exact E.
Qed.

Lemma replaceFirst_unfold (pat rep s : string) :
  replaceFirst pat rep s
  = if prefix pat s then rep ++ drop (String.length pat) s
    else match s with
         | EmptyString => EmptyString
         | String c rest => String c (replaceFirst pat rep rest)
         end.
Proof.
  destruct s; reflexivity.
Qed.

(** The first occurrence is the one that is replaced. *)
Lemma replaceFirst_at_first_occurrence (a b : string) :
  includes stale a = false ->
  replaceFirst stale fresh (a ++ stale ++ b) = a ++ fresh ++ b.
Proof.
  induction a as [|c a IH]; intros N.
  - change ("" ++ stale ++ b) with (stale ++ b).
    rewrite replaceFirst_unfold, prefix_append, drop_append. reflexivity.
  - destruct (includes_false_inv _ _ _ N) as [P N'].
    rewrite replaceFirst_unfold, (stale_no_overlap c a b P).
    cbn [append]. rewrite (IH N'). reflexivity.
Qed.

(** X6. A file whose only [".b3dm"] is its extension: the worker and the
    extractor write to the stem followed by [".glb"], and this is the
    very string that the tileset rewriter makes of a reference to the
    file. *)
Theorem output_path_of_plain_name (stem : string) :
  includes ".b3dm" stem = false ->
  WorkerRun.outputFilePath (stem ++ ".b3dm") = stem ++ ".glb"
  /\ replaceFirst ".b3dm" ".glb" (stem ++ ".b3dm") = stem ++ ".glb"
  /\ replace_b3dm (stem ++ ".b3dm") = WorkerRun.outputFilePath (stem ++ ".b3dm").
Proof.
  intros N.
  assert (R : replaceFirst ".b3dm" ".glb" (stem ++ ".b3dm") = stem ++ ".glb").
  { pose proof (replaceFirst_at_first_occurrence stem "" N) as H.
    exact H. }
  assert (O : WorkerRun.outputFilePath (stem ++ ".b3dm") = stem ++ ".glb").
  { unfold WorkerRun.outputFilePath. rewrite endsWith_append. exact R. }
  split; [exact O|]. split; [exact R|].
  rewrite O. unfold replace_b3dm.
  pose proof (replace_around_occurrence stem "") as H.
  rewrite (replaceAll_absent _ _ stem N) in H.
  exact H.
Qed.

Lemma output_path_of_plain_name_witness :
  WorkerRun.outputFilePath "tiles/0/0.b3dm" = "tiles/0/0.glb".
Proof.
  refine (proj1 (output_path_of_plain_name "tiles/0/0" _)).
  reflexivity.
Defined.

(** X7. A file name in which [".b3dm"] occurs before the extension (in the
    name of a directory, say): only the first occurrence is replaced,
    so the output is written under a name that still ends in
    [".b3dm"], and the tileset rewriter, which replaces every
    occurrence, makes a different string of a reference to the file. *)
Theorem output_path_keeps_extension (a b : string) :
  includes ".b3dm" a = false ->
  endsWith ".b3dm" b = true ->
  WorkerRun.outputFilePath (a ++ ".b3dm" ++ b) = a ++ ".glb" ++ b
  /\ endsWith ".b3dm" (WorkerRun.outputFilePath (a ++ ".b3dm" ++ b)) = true
  /\ replace_b3dm (a ++ ".b3dm" ++ b)
     <> WorkerRun.outputFilePath (a ++ ".b3dm" ++ b).
Proof.
  intros N E.
  assert (O : WorkerRun.outputFilePath (a ++ ".b3dm" ++ b) = a ++ ".glb" ++ b).
  { unfold WorkerRun.outputFilePath.
    rewrite (endsWith_after ".b3dm" a (".b3dm" ++ b))
      by (apply (endsWith_after ".b3dm" ".b3dm" b); exact E).
    apply (replaceFirst_at_first_occurrence a b N). }
  split; [exact O|]. rewrite O. split.
  - apply endsWith_after. apply (endsWith_after ".b3dm" ".glb" b). exact E.
  - change (replaceAll stale fresh (a ++ stale ++ b) <> a ++ fresh ++ b).
    rewrite replace_around_occurrence, (replaceAll_absent _ _ a N).
    intros Q. apply append_inv_head, append_inv_head in Q.
    pose proof (replace_leaves_none b) as L.
    rewrite Q in L. change stale with ".b3dm" in L.
    rewrite (endsWith_includes _ _ E) in L. discriminate L.
Qed.

Lemma output_path_keeps_extension_witness :
  WorkerRun.outputFilePath "city.b3dm.d/0.b3dm" = "city.glb.d/0.b3dm".
Proof.
  refine (proj1 (output_path_keeps_extension "city" ".d/0.b3dm" _ _));
    reflexivity.
Defined.

End OutputPath.

(** ** The worker script: what it sends, writes and deletes *)

Module WorkerRunFacts.

Import JsText Worker WorkerRun StringFacts.
#[local] Open Scope string_scope.

Lemma error_text (file reason : string) :
  prefix "Error processing " ("Error processing " ++ file ++ ": " ++ reason)
  = true.
Proof.
  apply prefix_append.
Qed.

Lemma success_text (w : World) (ktxApplied dracoApplied : bool) :
  prefix "Error processing " (success w ktxApplied dracoApplied) = false.
Proof.
  reflexivity.
Qed.

Lemma compress_shaped (file : string) (dracoCompression ktx : bool) (w : World) :
  shaped file (compress file dracoCompression ktx w).
Proof.
  unfold compress.
  destruct (existsSync w); cbn [negb]; [|apply failed].
  destruct (load file w) as [[document|]|reason];
    [| apply failed | apply failed].
  cbv zeta.
  destruct (writeBinary w _) as [glbBuffer|]; [|apply failed].
  destruct (writeFileSync w) as [[]|reason]; [|apply failed].
  destruct (endsWith ".b3dm" file) eqn:E.
  - destruct (unlinkSync w) as [[]|reason].
    + apply converted; [exact E | apply success_text].
    + apply failed_after_write.
  - apply rewritten; [exact E | apply success_text].
Qed.

(** X8. Started with its three arguments, the worker sends exactly one
    message in every run, as the last thing before it exits; nothing is
    sent or exited before. The exit code is 0 or 1, and it is 1 exactly
    when the message begins with ["Error processing "]. *)
Theorem one_message_per_run (argv : list string) (w : World) :
  (5 <= List.length argv)%nat ->
  exists before text code,
    main argv w = (before ++ [Send text; Exit code])%list
    /\ forallb (fun e => negb (is_send e) && negb (is_exit e)) before = true
    /\ ((code = 0 /\ prefix "Error processing " text = false)
        \/ (code = 1 /\ prefix "Error processing " text = true)).
Proof.
  intros L. unfold main.
  assert (E : (List.length argv <? 5)%nat = false) by (apply Nat.ltb_ge; exact L).
  rewrite E.
  destruct (compress_shaped (nth 2 argv "")
                            (nth 3 argv "" =? "true")%string
                            (nth 4 argv "" =? "true")%string w)
    as [reason|data reason|data text B T|data text B T].
  - exists [], ("Error processing " ++ nth 2 argv "" ++ ": " ++ reason), 1.
    split; [reflexivity|]. split; [reflexivity|].
    right. split; [reflexivity | apply error_text].
  - exists [WriteFile (outputFilePath (nth 2 argv "")) data],
           ("Error processing " ++ nth 2 argv "" ++ ": " ++ reason), 1.
    split; [reflexivity|]. split; [reflexivity|].
    right. split; [reflexivity | apply error_text].
  - exists [WriteFile (outputFilePath (nth 2 argv "")) data;
            Unlink (nth 2 argv "")], text, 0.
    split; [reflexivity|]. split; [reflexivity|].
    left. split; [reflexivity | exact T].
  - exists [WriteFile (outputFilePath (nth 2 argv "")) data], text, 0.
    split; [reflexivity|]. split; [reflexivity|].
    left. split; [reflexivity | exact T].
Qed.

Lemma one_message_per_run_witness :
  exists before text code,
    main Samples.worker_argv Samples.fine
    = (before ++ [Send text; Exit code])%list.
Proof.
  destruct (one_message_per_run Samples.worker_argv Samples.fine)
    as (before & text & code & M & _).
  - apply Nat.leb_le. reflexivity.
  - exists before, text, code. exact M.
Defined.

(** X9. What the worker does to the files. It writes at most once, to
    [outputFilePath file], and before anything else. It deletes only
    the file it was given, only when that ends in [".b3dm"], and only
    right after the output was written. It exits with code 0 only
    after the output was written and, for a [".b3dm"] file, the input
    deleted. *)
Theorem input_deleted_only_after_write
        (file : string) (dracoCompression ktx : bool) (w : World) :
  let run := compress file dracoCompression ktx w in
  (forall path data,
      In (WriteFile path data) run ->
      path = outputFilePath file
      /\ exists rest, run = WriteFile path data :: rest
                      /\ forall p d, ~ In (WriteFile p d) rest)
  /\ (forall path,
         In (Unlink path) run ->
         path = file /\ endsWith ".b3dm" file = true
         /\ exists data rest,
             run = WriteFile (outputFilePath file) data :: Unlink file :: rest
             /\ forall p, ~ In (Unlink p) rest)
  /\ (In (Exit 0) run ->
      (exists data, In (WriteFile (outputFilePath file) data) run)
      /\ (endsWith ".b3dm" file = true -> In (Unlink file) run)).
Proof.
  cbv zeta.
  destruct (compress_shaped file dracoCompression ktx w)
    as [reason|data reason|data text B T|data text B T].
  - split; [|split].
    + intros path d [H|[H|[]]]; discriminate H.
    + intros path [H|[H|[]]]; discriminate H.
    + intros [H|[H|[]]]; discriminate H.
  - split; [|split].
    + intros path d [H|[H|[H|[]]]]; try discriminate H.
      injection H as <- <-. split; [reflexivity|].
      eexists. split; [reflexivity|].
      intros p d' [H|[H|[]]]; discriminate H.
    + intros path [H|[H|[H|[]]]]; discriminate H.
    + intros [H|[H|[H|[]]]]; discriminate H.
  - split; [|split].
    + intros path d [H|[H|[H|[H|[]]]]]; try discriminate H.
      injection H as <- <-. split; [reflexivity|].
      eexists. split; [reflexivity|].
      intros p d' [H|[H|[H|[]]]]; discriminate H.
    + intros path [H|[H|[H|[H|[]]]]]; try discriminate H.
      injection H as <-. split; [reflexivity|]. split; [exact B|].
      eexists. eexists. split; [reflexivity|].
      intros p [H|[H|[]]]; discriminate H.
    + intros _. split.
      * exists data. left. reflexivity.
      * intros _. right. left. reflexivity.
  - split; [|split].
    + intros path d [H|[H|[H|[]]]]; try discriminate H.
      injection H as <- <-. split; [reflexivity|].
      eexists. split; [reflexivity|].
      intros p d' [H|[H|[]]]; discriminate H.
    + intros path [H|[H|[H|[]]]]; discriminate H.
    + intros _. split.
      * exists data. left. reflexivity.
      * intros Q. rewrite B in Q. discriminate Q.
Qed.

End WorkerRunFacts.

(** ** The inspector: formats, and textures that cannot be read *)

Module TextureFacts.

Import Buffer Worker InspectorFacts.
#[local] Open Scope string_scope.

Lemma getTextureInfo_encoding (texture : Texture) :
  encoding (getTextureInfo texture)
  = if JsString.includes "jpeg" (mimeType texture) then "JPG"
    else if JsString.includes "png" (mimeType texture) then "PNG"
    else if JsString.includes "ktx" (mimeType texture) then "KTX"
    else "unknown".
Proof.
  destruct texture as [img mime ld]. unfold getTextureInfo.
  cbn [image mimeType loaded].
  destruct (mime =? "")%string eqn:Q.
  - apply String.eqb_eq in Q. subst mime.
    destruct img as [imageData|]; [|reflexivity].
    cbn. destruct ld as [[w h]|]; reflexivity.
  - destruct (JsString.includes "jpeg" mime),
             (JsString.includes "png" mime),
             (JsString.includes "ktx" mime);
      destruct img as [imageData|]; try reflexivity;
      try (destruct (parseKTXHeader imageData) as [[hd|]|e]; reflexivity);
      try (destruct ld as [[w h]|]; reflexivity).
Qed.

Lemma formats_of_statistics (document : Document) :
  map format (stat_textures (getModelStatistics document))
  = map (fun texture => encoding (getTextureInfo texture)) (textures document).
Proof.
  unfold getModelStatistics. cbn [stat_textures].
  rewrite !map_map. reflexivity.
Qed.

(** X10. The format that the statistics report for a texture is decided by
    its MIME type alone, in this order: JPG when the type includes
    ["jpeg"], else PNG when it includes ["png"], else KTX when it
    includes ["ktx"], else unknown. Neither the image bytes nor the
    outcome of reading them enter into it. *)
Theorem format_by_mime_type (document : Document) :
  map format (stat_textures (getModelStatistics document))
  = map (fun mime =>
           if JsString.includes "jpeg" mime then "JPG"
           else if JsString.includes "png" mime then "PNG"
           else if JsString.includes "ktx" mime then "KTX"
           else "unknown")
        (map mimeType (textures document)).
Proof.
  rewrite formats_of_statistics, map_map.
  apply map_ext. intros texture. apply getTextureInfo_encoding.
Qed.

Lemma hasKTXTexture_by_formats (stats : Statistics) :
  hasKTXTexture stats
  = existsb (fun f => (f =? "KTX")%string) (map format (stat_textures stats)).
Proof.
  unfold hasKTXTexture. induction (stat_textures stats) as [|t l IH];
    [reflexivity|].
  cbn [map existsb]. rewrite IH. reflexivity.
Qed.

(** X11. The choice of transforms looks at the names of the extensions and
    at the MIME types of the textures, and at nothing else: two
    documents that agree on these get the same plan, whatever their
    images are. *)
Theorem plan_ignores_image_bytes
        (d1 d2 : Document) (dracoRequested ktx : bool) :
  extensionsUsed d1 = extensionsUsed d2 ->
  map mimeType (textures d1) = map mimeType (textures d2) ->
  plan d1 dracoRequested ktx = plan d2 dracoRequested ktx.
Proof.
  intros E M. unfold plan, transforms.
  rewrite !hasKTXTexture_by_formats, !formats_of_statistics.
  assert (F : map (fun texture => encoding (getTextureInfo texture))
                  (textures d1)
              = map (fun texture => encoding (getTextureInfo texture))
                    (textures d2)).
  { rewrite (map_ext _ _ getTextureInfo_encoding (textures d1)).
    rewrite (map_ext _ _ getTextureInfo_encoding (textures d2)).
    rewrite <- (map_map mimeType
                  (fun mime =>
                     if JsString.includes "jpeg" mime then "JPG"
                     else if JsString.includes "png" mime then "PNG"
                     else if JsString.includes "ktx" mime then "KTX"
                     else "unknown") (textures d1)).
    rewrite <- (map_map mimeType
                  (fun mime =>
                     if JsString.includes "jpeg" mime then "JPG"
                     else if JsString.includes "png" mime then "PNG"
                     else if JsString.includes "ktx" mime then "KTX"
                     else "unknown") (textures d2)).
    rewrite M. reflexivity. }
  rewrite F.
  unfold getModelStatistics. cbn [dracoCompression]. rewrite E. reflexivity.
Qed.

Lemma plan_ignores_image_bytes_witness :
  plan {| extensionsUsed := [];
          textures := [{| image := Some Scenarios.ktx2_image;
                          mimeType := "image/png";
                          loaded := None |}];
          meshes := [] |} true true
  = plan Scenarios.png_scene true true.
Proof.
  apply plan_ignores_image_bytes; reflexivity.
Defined.

Lemma readUInt32LE_cases (buf : Buffer.t) (off : nat) :
  ((off + 4 <= List.length buf)%nat /\ exists v, readUInt32LE buf off = Ok v)
  \/ ((List.length buf < off + 4)%nat
      /\ readUInt32LE buf off = Throw RangeError).
Proof.
  unfold readUInt32LE. pose proof (length_skipn off buf) as L.
  destruct (skipn off buf) as [|a [|b [|c [|d r]]]]; cbn [List.length] in L;
    [right|right|right|right|left]; (split; [lia|]);
    try reflexivity.
  eexists. reflexivity.
Qed.

(** X12. A KTX image that is cut short. [parseKTXHeader] throws, and then a
    RangeError, exactly when the identifier is that of version 1 and
    the buffer has fewer than 44 bytes, or that of version 2 and fewer
    than 28. [getTextureInfo] catches it: for a texture of a KTX MIME
    type the width and the height are then reported as unknown. *)
Theorem truncated_ktx_is_not_fatal (buffer : Buffer.t) :
  (parseKTXHeader buffer = Throw RangeError
   <-> (firstn 12 buffer = KTX1 /\ (List.length buffer < 44)%nat)
       \/ (firstn 12 buffer = KTX2 /\ (List.length buffer < 28)%nat))
  /\ parseKTXHeader buffer <> Throw TypeError
  /\ (forall (mime : string) (ld : option (Z * Z)),
         JsString.includes "ktx" mime = true ->
         parseKTXHeader buffer = Throw RangeError ->
         let info := getTextureInfo {| image := Some buffer;
                                       mimeType := mime;
                                       loaded := ld |} in
         width info = unknown /\ height info = unknown).
Proof.
  assert (D : KTX1 <> KTX2) by discriminate.
  assert (Iff : parseKTXHeader buffer = Throw RangeError
                <-> (firstn 12 buffer = KTX1 /\ (List.length buffer < 44)%nat)
                    \/ (firstn 12 buffer = KTX2
                        /\ (List.length buffer < 28)%nat)).
  { unfold parseKTXHeader.
    destruct (isKTX1 buffer) eqn:K1.
    - apply isKTX1_iff in K1.
      destruct (readUInt32LE_cases buffer 36) as [[L1 [w ->]]|[L1 ->]];
        cbn [bind].
      + destruct (readUInt32LE_cases buffer 40) as [[L2 [h ->]]|[L2 ->]];
          cbn [bind].
        * split; [discriminate|].
          intros [[_ S]|[Q _]]; [lia | congruence].
        * split; [intros _; left; split; [exact K1 | lia] | reflexivity].
      + split; [intros _; left; split; [exact K1 | lia] | reflexivity].
    - assert (N1 : firstn 12 buffer <> KTX1).
      { intros Q. apply isKTX1_iff in Q. congruence. }
      destruct (isKTX2 buffer) eqn:K2.
      + apply isKTX2_iff in K2.
        destruct (readUInt32LE_cases buffer 20) as [[L1 [w ->]]|[L1 ->]];
          cbn [bind].
        * destruct (readUInt32LE_cases buffer 24) as [[L2 [h ->]]|[L2 ->]];
            cbn [bind].
          -- split; [discriminate|].
             intros [[Q _]|[_ S]]; [contradiction | lia].
          -- split; [intros _; right; split; [exact K2 | lia] | reflexivity].
        * split; [intros _; right; split; [exact K2 | lia] | reflexivity].
      + assert (N2 : firstn 12 buffer <> KTX2).
        { intros Q. apply isKTX2_iff in Q. congruence. }
        split; [discriminate|].
        intros [[Q _]|[Q _]]; contradiction. }
  split; [exact Iff|]. split.
  - unfold parseKTXHeader.
    destruct (isKTX1 buffer); [|destruct (isKTX2 buffer)];
      try discriminate.
    + destruct (readUInt32LE_cases buffer 36) as [[_ [w ->]]|[_ ->]];
        cbn [bind]; [|discriminate].
      destruct (readUInt32LE_cases buffer 40) as [[_ [h ->]]|[_ ->]];
        cbn [bind]; discriminate.
    + destruct (readUInt32LE_cases buffer 20) as [[_ [w ->]]|[_ ->]];
        cbn [bind]; [|discriminate].
      destruct (readUInt32LE_cases buffer 24) as [[_ [h ->]]|[_ ->]];
        cbn [bind]; discriminate.
  - intros mime ld M T. cbv zeta. unfold getTextureInfo.
    cbn [image mimeType loaded]. rewrite M, T.
    split; reflexivity.
Qed.

End TextureFacts.

(** ** The command line of the extractor *)

Module CommandLineFacts.

Import JsString JsText CommandLine StringFacts.
#[local] Open Scope string_scope.

Lemma includes_sep_cons (c : ascii) (s : string) :
  includes "=" (String c s)
  = if ascii_dec "=" c then true else includes "=" s.
Proof.
  rewrite includes_cons, prefix_cons, prefix_nil.
  destruct (ascii_dec "=" c); reflexivity.
Qed.

Lemma includes_sep_append (k rest : string) :
  includes "=" (k ++ String "=" rest) = true.
Proof.
  induction k as [|c k IH]; cbn [append]; rewrite includes_sep_cons.
  - destruct (ascii_dec "=" "="); [reflexivity | congruence].
  - rewrite IH. destruct (ascii_dec "=" c); reflexivity.
Qed.

Lemma split_plain (s : string) :
  includes "=" s = false -> split "=" s = [s].
Proof.
  induction s as [|c s IH]; intros N; [reflexivity|].
  rewrite includes_sep_cons in N. cbn [split].
  destruct (ascii_dec "=" c) as [E|D]; [discriminate N|].
  destruct (ascii_dec c "=") as [E|_]; [congruence|].
  rewrite (IH N). reflexivity.
Qed.

Lemma split_at_first (k rest : string) :
  includes "=" k = false ->
  split "=" (k ++ String "=" rest) = k :: split "=" rest.
Proof.
  induction k as [|c k IH]; intros N.
  - cbn [append split].
    destruct (ascii_dec "=" "="); [reflexivity | congruence].
  - rewrite includes_sep_cons in N. cbn [append split].
    destruct (ascii_dec "=" c) as [E|D]; [discriminate N|].
    destruct (ascii_dec c "=") as [E|_]; [congruence|].
    rewrite (IH N). reflexivity.
Qed.

Lemma split_head (s : string) :
  exists piece pieces, split "=" s = piece :: pieces.
Proof.
  induction s as [|c s (piece & pieces & IH)].
  - eexists. eexists. reflexivity.
  - cbn [split]. destruct (ascii_dec c "=").
    + eexists. eexists. reflexivity.
    + rewrite IH. eexists. eexists. reflexivity.
Qed.

Lemma get_set (key : string) (v : value) (args : Args) :
  get key (set key v args) = Some v.
Proof.
  unfold get. induction args as [|[k old] args IH].
  - cbn. rewrite String.eqb_refl. reflexivity.
  - cbn [set]. destruct (k =? key)%string eqn:E.
    + cbn [find fst]. rewrite E. reflexivity.
    + cbn [find fst]. rewrite E. exact IH.
Qed.

Lemma get_set_other (key other : string) (v : value) (args : Args) :
  other <> key -> get key (set other v args) = get key args.
Proof.
  intros D. apply String.eqb_neq in D. unfold get.
  induction args as [|[k old] args IH].
  - cbn. rewrite D. reflexivity.
  - cbn [set]. destruct (k =? other)%string eqn:E.
    + apply String.eqb_eq in E. subst k. cbn [find fst]. rewrite D.
      reflexivity.
    + cbn [find fst]. destruct (k =? key)%string; [reflexivity | exact IH].
Qed.

Lemma get_assign_other (key other : string) (v : value) (args : Args) :
  other <> key -> get key (assign other v args) = get key args.
Proof.
  intros D. unfold assign.
  destruct (other =? "__proto__")%string; [reflexivity|].
  apply get_set_other. exact D.
Qed.

Lemma getCommandLineArguments_last (before : list string) (arg : string) :
  getCommandLineArguments (before ++ [arg])
  = step (getCommandLineArguments before) arg.
Proof.
  unfold getCommandLineArguments. rewrite fold_left_app. reflexivity.
Qed.

Lemma first_piece (s : string) :
  exists pieces, split "=" s = hd "" (split "=" s) :: pieces.
Proof.
  destruct (split_head s) as (piece & pieces & E).
  rewrite E. exists pieces. reflexivity.
Qed.

Lemma get_step_other (args : Args) (arg : string) :
  hd "" (split "=" arg) <> "--folder" ->
  get "--folder" (step args arg) = get "--folder" args.
Proof.
  intros D. unfold step.
  destruct (includes "=" arg) eqn:I.
  - destruct (split "=" arg) as [|key [|v pieces]]; try reflexivity.
    cbn [hd] in D. apply get_assign_other. exact D.
  - rewrite (split_plain arg I) in D. cbn [hd] in D.
    apply get_assign_other. exact D.
Qed.

Lemma get_after_others (others : list string) (args : Args) :
  (forall arg, In arg others -> hd "" (split "=" arg) <> "--folder") ->
  get "--folder" (fold_left step others args) = get "--folder" args.
Proof.
  revert args. induction others as [|arg others IH]; intros args H;
    [reflexivity|].
  cbn [fold_left]. rewrite IH.
  - apply get_step_other. apply H. left. reflexivity.
  - intros a Ha. apply H. right. exact Ha.
Qed.

Lemma getCommandLineArguments_around (before others : list string)
      (arg : string) :
  getCommandLineArguments (before ++ [arg] ++ others)
  = fold_left step others (step (getCommandLineArguments before) arg).
Proof.
  unfold getCommandLineArguments. rewrite !fold_left_app. reflexivity.
Qed.

(** X13. The folder is taken from the last argument that names
    [--folder], wherever it stands among the other arguments, and it is
    the text between the first [=] and the next one: a path that holds
    a [=] is cut there. An empty text counts as a missing folder, and a
    last [--folder] without [=] is refused as not being a string. The
    arguments after it are those whose name (the text before the first
    [=]) is not [--folder]. *)
Theorem folder_is_cut_at_the_second_separator
        (before others : list string) (folder rest : string) :
  includes "=" folder = false ->
  (forall arg, In arg others -> hd "" (split "=" arg) <> "--folder") ->
  let outcome := match folder with
                 | EmptyString => usage_error
                 | String _ _ => access folder
                 end in
  main (before ++ ["--folder=" ++ folder] ++ others) = outcome
  /\ main (before ++ ["--folder=" ++ folder ++ "=" ++ rest] ++ others)
     = outcome
  /\ main (before ++ ["--folder"] ++ others) = not_a_string.
Proof.
  intros N O outcome. unfold main, tilesetRoot.
  rewrite !getCommandLineArguments_around, !(get_after_others others _ O).
  unfold step.
  change ("--folder=" ++ folder) with ("--folder" ++ String "=" folder).
  change ("--folder=" ++ folder ++ "=" ++ rest)
    with ("--folder" ++ String "=" (folder ++ String "=" rest)).
  rewrite !includes_sep_append.
  rewrite !(split_at_first "--folder") by reflexivity.
  rewrite (split_plain folder N), (split_at_first folder rest N).
  change (includes "=" "--folder") with false. cbv iota.
  unfold assign. change ("--folder" =? "__proto__")%string with false.
  cbv iota. rewrite !get_set.
  split; [reflexivity|]. split; reflexivity.
Qed.

Lemma folder_is_cut_at_the_second_separator_witness :
  main ["--verbose"; "--folder=/old"; "--folder=/data/a=b/tiles"; "--out=/tmp"]
  = access "/data/a".
Proof.
  refine (proj1 (proj2 (folder_is_cut_at_the_second_separator
                          ["--verbose"; "--folder=/old"] ["--out=/tmp"]
                          "/data/a" "b/tiles" _ _))).
  - reflexivity.
  - intros arg [<-|[]]. discriminate.
Defined.

(** X14. Without an argument whose name (the text before its first [=]) is
    [--folder], the extractor stops with the usage message. *)
Theorem missing_folder_is_a_usage_error (argv : list string) :
  (forall arg, In arg argv -> hd "" (split "=" arg) <> "--folder") ->
  main argv = usage_error.
Proof.
  intros H. unfold main, tilesetRoot.
  assert (G : get "--folder" (getCommandLineArguments argv) = None).
  { unfold getCommandLineArguments.
    assert (Gen : forall args, get "--folder" args = None ->
                               get "--folder" (fold_left step argv args) = None).
    { induction argv as [|arg argv IH]; intros args A; [exact A|].
      cbn [fold_left]. apply IH.
      - intros a Ha. apply H. right. exact Ha.
      - rewrite get_step_other; [exact A|]. apply H. left. reflexivity. }
    apply Gen. reflexivity. }
  rewrite G. reflexivity.
Qed.

Lemma missing_folder_is_a_usage_error_witness :
  main ["--verbose"; "--out=/tmp/x"] = usage_error.
Proof.
  apply missing_folder_is_a_usage_error.
  intros arg [<-|[<-|[]]]; discriminate.
Defined.

End CommandLineFacts.

(** ** The coordinator in every run, silent exits included *)

Module SchedulerRunsFacts.

Import Scheduler SchedulerRuns SchedulerFacts.

Lemma seq_snoc (n : nat) : seq 1 (S n) = (seq 1 n ++ [S n])%list.
Proof.
  rewrite seq_S. reflexivity.
Qed.

Section Lost.

Variable files : list string.
Variable numCPUs : Z.
Hypothesis at_least_one : (1 <= numCPUs)%Z.

Abbreviation Total := (totalFiles files).
Abbreviation Acc := (accounted files numCPUs).
Abbreviation Full := (saturated files numCPUs).

Lemma loop_accounted (lost : nat) (rest : list string) (s : State) :
  Acc lost s ->
  rest = skipn (completedTasks s) files ->
  let s' := runNextBatch_loop numCPUs rest s in
  Acc lost s' /\ Full s'
  /\ progress s' = progress s /\ finished s' = finished s.
Proof.
  revert s. induction rest as [|f rest IH]; intros s I R.
  - cbn. pose proof I as (I1 & I2 & I3 & I4 & I5 & I6 & I7).
    assert (completedTasks s = Total).
    { symmetry in R.
      assert (L := length_skipn (completedTasks s) files).
      rewrite R in L. cbn in L. unfold totalFiles in *. lia. }
    split; [exact I|]. split; [|split; reflexivity].
    unfold saturated. intros _. assumption.
  - cbn [runNextBatch_loop].
    destruct (activeProcesses s <? numCPUs)%Z eqn:A.
    + apply Z.ltb_lt in A.
      destruct I as (I1 & I2 & I3 & I4 & I5 & I6 & I7).
      symmetry in R. destruct (skipn_cons_inv _ _ _ _ R) as (F & S' & L).
      set (s1 := runChildProcess f (advance s)).
      assert (I' : Acc lost s1).
      { unfold accounted, s1.
        cbn [runChildProcess advance activeProcesses children completedTasks
             forked progress].
        rewrite !length_app. cbn [List.length].
        repeat match goal with |- _ /\ _ => split end.
        - lia.
        - unfold totalFiles. lia.
        - rewrite F, I3. reflexivity.
        - lia.
        - lia.
        - rewrite map_app. cbn [map pid].
          apply NoDup_app; [exact I6 | repeat constructor; intros [] |].
          intros x Hx [Hy|[]]. subst x.
          apply in_map_iff in Hx. destruct Hx as (c & Ec & Hc).
          specialize (I7 c Hc). lia.
        - intros c Hc. apply in_app_or in Hc. destruct Hc as [Hc|[<-|[]]].
          + specialize (I7 c Hc). lia.
          + cbn [pid]. lia. }
      specialize (IH s1 I' (eq_sym S')).
      cbv zeta in IH |- *.
      destruct IH as (J & Sa & P & Fi).
      split; [exact J|]. split; [exact Sa|]. split; assumption.
    + apply Z.ltb_ge in A. cbv zeta.
      split; [exact I|]. split; [|split; reflexivity].
      unfold saturated. intros Hlt. lia.
Qed.

Lemma start_accounted :
  Acc 0 (start files numCPUs) /\ Full (start files numCPUs)
  /\ progress (start files numCPUs) = []
  /\ finished (start files numCPUs) = 0%nat.
Proof.
  unfold start, runNextBatch.
  assert (I : Acc 0 initial).
  { unfold accounted, initial. cbn.
    repeat match goal with |- _ /\ _ => split end;
      try reflexivity; try lia; try constructor; try (intros c []). }
  exact (loop_accounted 0 _ initial I eq_refl).
Qed.

Lemma counted_snoc (s : State) (l : list Progress) (line : Progress) :
  counted files s ->
  l = (progress s ++ [line])%list ->
  processed line = Z.of_nat (S (List.length (progress s))) ->
  remainingFiles line
  = (Z.of_nat Total - Z.of_nat (S (List.length (progress s))))%Z ->
  map processed l = map Z.of_nat (seq 1 (List.length l))
  /\ map remainingFiles l
     = map (fun n => (Z.of_nat Total - Z.of_nat n)%Z) (seq 1 (List.length l)).
Proof.
  intros [C1 C2] -> P R.
  rewrite length_app. cbn [List.length]. rewrite Nat.add_1_r, seq_snoc.
  rewrite !map_app, C1, C2. cbn [map]. rewrite P, R. split; reflexivity.
Qed.

(** One completion signal, with [lost] workers gone silently. *)
Lemma completion_accounted
      (lost p : nat) (c : Child) (text : string) (s : State) :
  Acc lost s -> Full s -> finished_in_time files s -> counted files s ->
  find_child p s = Some c ->
  let s' := handleCompletion files numCPUs text (drop_child p s) in
  Acc lost s' /\ Full s' /\ finished_in_time files s' /\ counted files s'
  /\ List.length (progress s') = S (List.length (progress s)).
Proof.
  intros (I1 & I2 & I3 & I4 & I5 & I6 & I7) Sa Fi Co Fc.
  unfold find_child in Fc.
  pose proof (filter_other_pids p (children s) c I6 Fc) as Lf.
  set (s0 := updateProgress files text (decrement (drop_child p s))).
  assert (I0 : Acc lost s0).
  { unfold accounted, s0.
    cbn [updateProgress decrement drop_child activeProcesses children
         completedTasks forked progress].
    rewrite length_app. cbn [List.length].
    repeat match goal with |- _ /\ _ => split end;
      try assumption; try lia.
    - apply NoDup_map_filter. exact I6.
    - intros x Hx. apply filter_In in Hx. apply I7, Hx. }
  assert (P0 : progress s0
               = (progress s
                  ++ [{| processed :=
                           Z.of_nat (completedTasks s) - (activeProcesses s - 1);
                         remainingFiles :=
                           Z.of_nat (totalFiles files)
                           - (Z.of_nat (completedTasks s)
                              - (activeProcesses s - 1));
                         message := text |}])%list) by reflexivity.
  assert (Co0 : counted files s0).
  { unfold counted.
    apply (counted_snoc s _ _ Co P0); cbn [processed remainingFiles]; lia. }
  assert (Len0 : List.length (progress s0) = S (List.length (progress s))).
  { rewrite P0, length_app. cbn [List.length]. lia. }
  assert (F0 : finished s0 = finished s) by reflexivity.
  assert (C0 : completedTasks s0 = completedTasks s) by reflexivity.
  assert (A0 : activeProcesses s0 = (activeProcesses s - 1)%Z) by reflexivity.
  assert (L0 : (List.length (children s0) + 1 = List.length (children s))%nat)
    by exact Lf.
  assert (Fs : finished s = 0%nat).
  { unfold finished_in_time in Fi. rewrite Fi.
    destruct (List.length (progress s) =? totalFiles files)%nat eqn:E;
      [|rewrite andb_false_r; reflexivity].
    apply Nat.eqb_eq in E. lia. }
  pose proof I0 as (K1 & K2 & K3 & K4 & K5 & K6 & K7).
  unfold handleCompletion. fold s0. cbv zeta.
  destruct ((completedTasks s0 =? totalFiles files)%nat
            && (activeProcesses s0 =? 0)%Z) eqn:B.
  - apply andb_true_iff in B. destruct B as [B1 B2].
    apply Nat.eqb_eq in B1. apply Z.eqb_eq in B2.
    split; [exact I0|].
    split; [unfold saturated; intros _; exact B1|].
    split.
    { unfold finished_in_time.
      cbn [finishProcessing progress finished]. rewrite F0, Fs.
      assert (E1 : (0 <? totalFiles files)%nat = true)
        by (apply Nat.ltb_lt; lia).
      assert (E2 : (List.length (progress s0) =? totalFiles files)%nat = true)
        by (apply Nat.eqb_eq; lia).
      rewrite E1, E2. reflexivity. }
    split; [exact Co0 | exact Len0].
  - assert (NotDone : ~ (completedTasks s0 = totalFiles files
                         /\ activeProcesses s0 = 0%Z)).
    { intros [N1 N2]. apply Nat.eqb_eq in N1. apply Z.eqb_eq in N2.
      rewrite N1, N2 in B. discriminate B. }
    assert (Fi0 : finished_in_time files s0).
    { unfold finished_in_time. rewrite F0, Fs.
      destruct (List.length (progress s0) =? totalFiles files)%nat eqn:E;
        [|rewrite andb_false_r; reflexivity].
      exfalso. apply Nat.eqb_eq in E. apply NotDone. lia. }
    destruct (activeProcesses s0 <? numCPUs)%Z eqn:A.
    + unfold runNextBatch.
      destruct (loop_accounted lost _ s0 I0 eq_refl) as (J & Sa' & P' & F').
      set (s' := runNextBatch_loop numCPUs (skipn (completedTasks s0) files) s0)
        in *.
      split; [exact J|]. split; [exact Sa'|].
      split; [unfold finished_in_time; rewrite F', P'; exact Fi0|].
      split; [unfold counted; rewrite P'; exact Co0|].
      rewrite P'. exact Len0.
    + apply Z.ltb_ge in A.
      split; [exact I0|].
      split; [unfold saturated; intros Hlt; lia|].
      split; [exact Fi0|]. split; [exact Co0 | exact Len0].
Qed.

(** A worker that exits without a signal: it leaves the children, and
    nothing else changes. *)
Lemma exit_accounted (lost p : nat) (c : Child) (s : State) :
  Acc lost s -> find_child p s = Some c ->
  Acc (S lost) (drop_child p s).
Proof.
  intros (I1 & I2 & I3 & I4 & I5 & I6 & I7) Fc.
  unfold find_child in Fc.
  pose proof (filter_other_pids p (children s) c I6 Fc) as Lf.
  unfold accounted.
  cbn [drop_child activeProcesses children completedTasks forked progress].
  repeat match goal with |- _ /\ _ => split end;
    try assumption; try lia.
  - apply NoDup_map_filter. exact I6.
  - intros x Hx. apply filter_In in Hx. apply I7, Hx.
Qed.

Lemma handle_accounted (lost : nat) (ev : event) (s s' : State) :
  Acc lost s -> Full s -> finished_in_time files s -> counted files s ->
  handle files numCPUs ev s = Some s' ->
  Acc (lost + silent_exits [ev]) s' /\ Full s' /\ finished_in_time files s'
  /\ counted files s'
  /\ List.length (progress s')
     = (List.length (progress s) + signals [ev])%nat.
Proof.
  intros I Sa Fi Co H.
  destruct ev as [p text|p err|p code]; cbn [handle] in H;
    destruct (find_child p s) as [c|] eqn:Fc; try discriminate H;
    injection H as <-.
  - destruct (completion_accounted lost p c text s I Sa Fi Co Fc)
      as (I' & Sa' & Fi' & Co' & Len).
    cbn. rewrite Nat.add_0_r, Nat.add_1_r.
    repeat match goal with |- _ /\ _ => split end; assumption.
  - destruct (completion_accounted
                lost p c ("Error processing " ++ file c ++ ": " ++ err)%string
                s I Sa Fi Co Fc)
      as (I' & Sa' & Fi' & Co' & Len).
    cbn. rewrite Nat.add_0_r, Nat.add_1_r.
    repeat match goal with |- _ /\ _ => split end; assumption.
  - cbn. rewrite Nat.add_1_r, Nat.add_0_r.
    split; [exact (exit_accounted lost p c s I Fc)|].
    split; [exact Sa|]. split; [exact Fi|]. split; [exact Co | reflexivity].
Qed.

Lemma silent_exits_cons (ev : event) (evs : list event) :
  silent_exits (ev :: evs) = (silent_exits [ev] + silent_exits evs)%nat.
Proof.
  unfold silent_exits. cbn [filter].
  destruct (negb (is_signal ev)); cbn [List.length]; lia.
Qed.

Lemma signals_cons (ev : event) (evs : list event) :
  signals (ev :: evs) = (signals [ev] + signals evs)%nat.
Proof.
  unfold signals. cbn [filter].
  destruct (is_signal ev); cbn [List.length]; lia.
Qed.

Lemma run_accounted (evs : list event) (lost : nat) (s s' : State) :
  Acc lost s -> Full s -> finished_in_time files s -> counted files s ->
  run files numCPUs evs s = Some s' ->
  Acc (lost + silent_exits evs) s' /\ Full s' /\ finished_in_time files s'
  /\ counted files s'
  /\ List.length (progress s')
     = (List.length (progress s) + signals evs)%nat.
Proof.
  revert lost s. induction evs as [|ev evs IH]; intros lost s I Sa Fi Co H.
  - cbn in H. injection H as <-.
    unfold silent_exits, signals. cbn. rewrite !Nat.add_0_r.
    repeat match goal with |- _ /\ _ => split end; try assumption.
    reflexivity.
  - cbn [run] in H.
    destruct (handle files numCPUs ev s) as [s1|] eqn:H1; [|discriminate H].
    destruct (handle_accounted lost ev s s1 I Sa Fi Co H1)
      as (I1 & Sa1 & Fi1 & Co1 & Len1).
    destruct (IH _ s1 I1 Sa1 Fi1 Co1 H) as (I' & Sa' & Fi' & Co' & Len').
    rewrite silent_exits_cons, signals_cons, Nat.add_assoc.
    split; [exact I'|]. split; [exact Sa'|]. split; [exact Fi'|].
    split; [exact Co'|]. lia.
Qed.

Lemma processFiles_accounted (evs : list event) (s : State) :
  processFiles files numCPUs evs = Some s ->
  Acc (silent_exits evs) s /\ Full s /\ finished_in_time files s
  /\ counted files s
  /\ List.length (progress s) = signals evs.
Proof.
  intros H. unfold processFiles in H.
  destruct start_accounted as (I0 & Sa0 & P0 & F0).
  assert (Fi0 : finished_in_time files (start files numCPUs)).
  { unfold finished_in_time. rewrite F0, P0. cbn [List.length].
    destruct (totalFiles files); reflexivity. }
  assert (Co0 : counted files (start files numCPUs)).
  { unfold counted. rewrite P0. split; reflexivity. }
  destruct (run_accounted evs 0 _ s I0 Sa0 Fi0 Co0 H)
    as (I & Sa & Fi & Co & Len).
  rewrite P0 in Len. cbn in Len, I.
  repeat match goal with |- _ /\ _ => split end; assumption.
Qed.

End Lost.

Lemma numCPUs_at_least_one (cpus : Z) : (1 <= numCPUs_of cpus)%Z.
Proof.
  unfold numCPUs_of. lia.
Qed.

(** X15. The progress lines count exactly, in every run and whatever the
    number of processors reported: there is one line per completion
    signal, never more than there are files, and the [n]-th line says
    [n] processed and [totalFiles - n] remaining. Workers that exit
    silently do not disturb the count. *)
Theorem progress_counters_are_exact
        (files : list string) (cpus : Z) (evs : list event) (s : State) :
  processFiles files (numCPUs_of cpus) evs = Some s ->
  List.length (progress s) = signals evs
  /\ (signals evs <= totalFiles files)%nat
  /\ map processed (progress s) = map Z.of_nat (seq 1 (signals evs))
  /\ map remainingFiles (progress s)
     = map (fun n => (Z.of_nat (totalFiles files) - Z.of_nat n)%Z)
           (seq 1 (signals evs)).
Proof.
  intros H.
  destruct (processFiles_accounted files _ (numCPUs_at_least_one cpus) evs s H)
    as ((I1 & I2 & I3 & I4 & I5 & I6 & I7) & _ & _ & [C1 C2] & Len).
  rewrite <- Len.
  split; [reflexivity|]. split; [lia|]. split; assumption.
Qed.

Lemma progress_counters_are_exact_witness :
  exists s,
    processFiles Scenarios.batch_D (numCPUs_of 3) Scenarios.events_D = Some s
    /\ map processed (progress s) = [1; 2; 3; 4; 5]%Z.
Proof.
  eexists. split; [vm_compute; reflexivity|].
  refine (proj1 (proj2 (proj2 (progress_counters_are_exact
                                 Scenarios.batch_D 3 Scenarios.events_D _ _)))).
  vm_compute. reflexivity.
Defined.

(** X16. Every run of the coordinator, silent exits included. A worker that
    exits without a signal stays counted as active for good; the
    counter never exceeds the limit; every file handed out is reported,
    running or lost; a free slot is left only when every file has been
    handed out. [finishProcessing] runs at most once, exactly when as
    many signals as files have arrived, and never in a run with a
    silent exit. *)
Theorem silent_exit_blocks_completion
        (files : list string) (cpus : Z) (evs : list event) (s : State) :
  processFiles files (numCPUs_of cpus) evs = Some s ->
  activeProcesses s
  = Z.of_nat (List.length (children s) + silent_exits evs)
  /\ (activeProcesses s <= numCPUs_of cpus)%Z
  /\ (signals evs + List.length (children s) + silent_exits evs
      = completedTasks s)%nat
  /\ (completedTasks s <= totalFiles files)%nat
  /\ forked s = firstn (completedTasks s) files
  /\ ((activeProcesses s < numCPUs_of cpus)%Z ->
      completedTasks s = totalFiles files)
  /\ (finished s <= 1)%nat
  /\ (finished s = 1%nat
      <-> (0 < totalFiles files)%nat /\ signals evs = totalFiles files)
  /\ ((0 < silent_exits evs)%nat -> finished s = 0%nat).
Proof.
  intros H.
  destruct (processFiles_accounted files _ (numCPUs_at_least_one cpus) evs s H)
    as ((I1 & I2 & I3 & I4 & I5 & I6 & I7) & Sa & Fi & _ & Len).
  rewrite Len in I4. unfold finished_in_time in Fi. rewrite Len in Fi.
  split; [exact I1|]. split; [exact I5|]. split; [exact I4|].
  split; [exact I2|]. split; [exact I3|]. split; [exact Sa|].
  destruct (Nat.ltb_spec 0 (totalFiles files)) as [E0|E0],
           (Nat.eqb_spec (signals evs) (totalFiles files)) as [E1|E1];
    cbn [andb] in Fi; rewrite Fi.
  - split; [lia|]. split; [tauto|]. intros L. lia.
  - split; [lia|]. split; [split; [discriminate | lia]|]. reflexivity.
  - split; [lia|]. split; [split; [discriminate | lia]|]. reflexivity.
  - split; [lia|]. split; [split; [discriminate | lia]|]. reflexivity.
Qed.

Lemma silent_exit_blocks_completion_witness :
  exists s,
    processFiles ["a.glb"; "b.glb"]%string (numCPUs_of 8)
                 [Exit 0 1; Message 1 ""%string] = Some s
    /\ finished s = 0%nat.
Proof.
  eexists. split; [vm_compute; reflexivity|].
  refine (proj2 (proj2 (proj2 (proj2 (proj2 (proj2 (proj2 (proj2
            (silent_exit_blocks_completion
               ["a.glb"; "b.glb"]%string 8
               [Exit 0 1; Message 1 ""%string] _ _)))))))) _).
  - vm_compute. reflexivity.
  - vm_compute. lia.
Defined.

(** X17. The first batch: whatever the number of processors reported, the
    coordinator starts with the first [min(numCPUs, totalFiles)] files,
    one worker each, and with at least one worker when there is a
    file. *)
Theorem initial_batch (files : list string) (cpus : Z) :
  let s := start files (numCPUs_of cpus) in
  let n := Z.to_nat (Z.min (numCPUs_of cpus) (Z.of_nat (totalFiles files))) in
  forked s = firstn n files
  /\ completedTasks s = n
  /\ List.length (children s) = n
  /\ activeProcesses s = Z.of_nat n
  /\ map file (children s) = forked s
  /\ (files <> [] -> (1 <= n)%nat).
Proof.
  cbv zeta.
  pose proof (numCPUs_at_least_one cpus) as One.
  destruct (start_accounted files _ One)
    as ((I1 & I2 & I3 & I4 & I5 & I6 & I7) & Sa & P0 & F0).
  set (s := start files (numCPUs_of cpus)) in *.
  rewrite P0 in I4. cbn [List.length] in I4.
  unfold saturated in Sa.
  assert (N : completedTasks s
              = Z.to_nat (Z.min (numCPUs_of cpus) (Z.of_nat (totalFiles files)))).
  { destruct (Z_lt_ge_dec (activeProcesses s) (numCPUs_of cpus)) as [Lt|Ge].
    - specialize (Sa Lt). lia.
    - lia. }
  rewrite <- N.
  split; [exact I3|]. split; [reflexivity|]. split; [lia|]. split; [lia|].
  split.
  - unfold s, start, runNextBatch.
    assert (Gen : forall rest st,
               map file (children st) = forked st ->
               map file (children (runNextBatch_loop (numCPUs_of cpus) rest st))
               = forked (runNextBatch_loop (numCPUs_of cpus) rest st)).
    { induction rest as [|f rest IH]; intros st M; [exact M|].
      cbn [runNextBatch_loop].
      destruct (activeProcesses st <? numCPUs_of cpus)%Z; [|exact M].
      apply IH. cbn [runChildProcess advance children forked].
      rewrite map_app, M. reflexivity. }
    apply Gen. reflexivity.
  - intros NE. rewrite N.
    assert (0 < totalFiles files)%nat.
    { unfold totalFiles. destruct files; [congruence | cbn; lia]. }
    lia.
Qed.

End SchedulerRunsFacts.

(** ** The prompt: how a line is split and what its words switch on *)

Module PromptFacts.

Import JsString JsText Prompt StringFacts.
#[local] Open Scope string_scope.

Lemma scan_drop (k : nat) (s : string) : scan k s = scan 0 (drop k s).
Proof.
  revert k. induction s as [|c s IH]; intros [|k]; try reflexivity.
  cbn [scan drop]. apply IH.
Qed.

Lemma space_is_no_quote (c : ascii) :
  is_space c = true -> exists N, ascii_dec c quote = right N.
Proof.
  intros S. destruct (ascii_dec c quote) as [E|N].
  - subst c. discriminate S.
  - exists N. reflexivity.
Qed.

Lemma scan_blank (s : string) : all is_space s = true -> scan 0 s = [].
Proof.
  induction s as [|c s IH]; intros A; [reflexivity|].
  cbn [all] in A. apply andb_true_iff in A. destruct A as [Sc A].
  cbn [scan token_at]. destruct (space_is_no_quote c Sc) as [N ->].
  rewrite Sc. apply IH. exact A.
Qed.

Lemma trimStart_blank (s : string) : all is_space s = true -> trimStart s = "".
Proof.
  induction s as [|c s IH]; intros A; [reflexivity|].
  cbn [all] in A. apply andb_true_iff in A. destruct A as [Sc A].
  cbn [trimStart]. rewrite Sc. apply IH. exact A.
Qed.

(** X18. A line that is empty or holds nothing but spaces: [match] returns
    [null], and calling [map] on it is a TypeError. *)
Theorem blank_line_is_a_type_error (input : string) :
  all is_space input = true ->
  match_all input = None /\ prompt input = ran (Throw TypeError).
Proof.
  intros A. unfold prompt, match_all, trim.
  rewrite (trimStart_blank input A), (scan_blank input A).
  split; reflexivity.
Qed.

Lemma blank_line_is_a_type_error_witness :
  prompt "   " = ran (Throw TypeError).
Proof.
  refine (proj2 (blank_line_is_a_type_error "   " _)). reflexivity.
Defined.

Lemma run_word (w rest : string) :
  all (fun x => negb (is_space x)) w = true ->
  run (w ++ String " " rest) = w /\ run w = w.
Proof.
  induction w as [|c w IH]; intros A; [split; reflexivity|].
  cbn [all] in A. apply andb_true_iff in A. destruct A as [Sc A].
  apply negb_true_iff in Sc. destruct (IH A) as [R1 R2].
  cbn [append run]. rewrite Sc, R1, R2. split; reflexivity.
Qed.

Lemma plain_inv (word : string) :
  plain word = true ->
  exists c w N,
    word = String c w /\ ascii_dec c quote = right N
    /\ is_space c = false
    /\ all (fun x => negb (is_space x)) word = true.
Proof.
  destruct word as [|c w]; [discriminate|].
  unfold plain. destruct (ascii_dec c quote) as [E|N] eqn:Q; [discriminate|].
  cbn [andb]. intros A. exists c, w, N.
  split; [reflexivity|]. split; [exact Q|]. split; [|exact A].
  cbn [all] in A. apply andb_true_iff in A. destruct A as [Sc _].
  apply negb_true_iff in Sc. exact Sc.
Qed.

Lemma scan_word (word rest : string) :
  plain word = true ->
  scan 0 (word ++ String " " rest) = word :: scan 0 rest
  /\ scan 0 word = [word].
Proof.
  intros P. destruct (plain_inv word P) as (c & w & N & -> & Q & Sc & A).
  destruct (run_word (String c w) rest A) as [R1 R2].
  cbn [append] in R1. split.
  - cbn [append scan token_at]. rewrite Q, Sc, R1.
    replace (String.length (String c w) - 1)%nat with (String.length w)
      by (cbn [String.length]; lia).
    rewrite scan_drop, drop_append. reflexivity.
  - cbn [scan token_at]. rewrite Q, Sc, R2.
    replace (String.length (String c w) - 1)%nat with (String.length w)
      by (cbn [String.length]; lia).
    assert (Dw : drop (String.length w) w = "")
      by (rewrite <- (append_nil_r w) at 2; apply drop_append).
    rewrite scan_drop, Dw. reflexivity.
Qed.

Lemma convert_plain (word : string) :
  plain word = true ->
  convert word
  = if (word =? "true")%string then boolean true
    else if (word =? "false")%string then boolean false
    else str word.
Proof.
  intros P. destruct (plain_inv word P) as (c & w & N & -> & Q & _ & _).
  unfold convert. change (String.get 0 (String c w)) with (Some c).
  match goal with
  | |- context [String.get ?n ?s] => destruct (String.get n s)
  end; [rewrite Q|]; reflexivity.
Qed.

Lemma truthy_plain (word : string) :
  plain word = true ->
  truthy (Some (convert word)) = negb (word =? "false")%string.
Proof.
  intros P. rewrite (convert_plain word P).
  destruct (word =? "true")%string eqn:T.
  - apply String.eqb_eq in T. subst word. reflexivity.
  - destruct (word =? "false")%string eqn:F; [reflexivity|].
    cbn [truthy]. destruct word; [discriminate P | reflexivity].
Qed.

Lemma has_char_append (c : ascii) (a b : string) :
  has_char c a = true -> has_char c (a ++ b) = true.
Proof.
  induction a as [|x a IH]; [discriminate|].
  cbn [has_char append]. destruct (ascii_dec c x); [reflexivity | exact IH].
Qed.

Lemma has_char_trimStart (c : ascii) (s : string) :
  is_space c = false -> has_char c s = true -> has_char c (trimStart s) = true.
Proof.
  intros Sc. induction s as [|x s IH]; [discriminate|].
  intros H. cbn [trimStart]. destruct (is_space x) eqn:Sx; [|exact H].
  apply IH. cbn [has_char] in H.
  destruct (ascii_dec c x) as [E|_]; [congruence | exact H].
Qed.

Lemma has_char_trimEnd (c : ascii) (s : string) :
  is_space c = false -> has_char c s = true -> has_char c (trimEnd s) = true.
Proof.
  intros Sc. induction s as [|x s IH]; [discriminate|].
  intros H. cbn [has_char] in H. cbn [trimEnd].
  destruct (ascii_dec c x) as [E|D].
  - subst x. rewrite Sc.
    destruct (trimEnd s); cbn [has_char];
      destruct (ascii_dec c c); congruence.
  - specialize (IH H).
    destruct (trimEnd s) as [|y kept]; [discriminate IH|].
    cbn [has_char] in IH |- *. destruct (ascii_dec c x); [reflexivity|].
    exact IH.
Qed.

Lemma has_char_lower (c : ascii) (s : string) :
  has_char c s = true -> has_char (lower c) (toLowerCase s) = true.
Proof.
  induction s as [|x s IH]; [discriminate|].
  cbn [has_char toLowerCase].
  destruct (ascii_dec c x) as [E|D].
  - subst x. intros _. destruct (ascii_dec (lower c) (lower c)); congruence.
  - intros H. rewrite (IH H).
    destruct (ascii_dec (lower c) (lower x)); reflexivity.
Qed.

Lemma endsWith_has_dot (s : string) :
  endsWith ".b3dm" s = true -> has_char "." s = true.
Proof.
  induction s as [|c s IH]; [discriminate|].
  cbn [endsWith]. destruct (String c s =? ".b3dm")%string eqn:Q.
  - apply String.eqb_eq in Q. rewrite Q. reflexivity.
  - intros E. cbn [has_char]. rewrite (IH E).
    destruct (ascii_dec "." c); reflexivity.
Qed.

Lemma dotted_line_is_not_exit (line : string) :
  has_char "." line = true ->
  (toLowerCase (trim line) =? "exit")%string = false.
Proof.
  intros H. apply String.eqb_neq. intros Q.
  assert (D : has_char (lower ".") (toLowerCase (trim line)) = true).
  { apply has_char_lower. unfold trim.
    apply has_char_trimEnd; [reflexivity|].
    apply has_char_trimStart; [reflexivity | exact H]. }
  rewrite Q in D. discriminate D.
Qed.

Lemma tile_name_is_a_string (file : string) :
  plain file = true -> endsWith ".b3dm" file = true ->
  convert file = str file.
Proof.
  intros P E. rewrite (convert_plain file P).
  destruct (file =? "true")%string eqn:T.
  - apply String.eqb_eq in T. subst file. discriminate E.
  - destruct (file =? "false")%string eqn:F; [|reflexivity].
    apply String.eqb_eq in F. subst file. discriminate E.
Qed.

(** X19. The words after the file name, typed without quotes. The file is
    handled as a container, with [dedup], [flatten] and [join] always
    first; the second word switches on [toktx], the third
    [backfaceCulling], the first [draco], in this order. A word
    switches its option on unless it is the word [false]: any other
    text does, [0] and [no] included. A file name alone leaves the
    three options off. *)
Theorem any_word_but_false_enables (file o1 o2 o3 : string) :
  plain file = true -> endsWith ".b3dm" file = true ->
  plain o1 = true -> plain o2 = true -> plain o3 = true ->
  prompt (file ++ " " ++ o1 ++ " " ++ o2 ++ " " ++ o3)
  = ran (Ok (container file
               ([dedup; flatten; join]
                ++ (if (o2 =? "false")%string then [] else [toktx])
                ++ (if (o3 =? "false")%string then [] else [backfaceCulling])
                ++ (if (o1 =? "false")%string then [] else [draco]))%list))
  /\ prompt file = ran (Ok (container file [dedup; flatten; join])).
Proof.
  intros Pf E P1 P2 P3.
  pose proof (endsWith_has_dot file E) as Dot.
  split.
  - unfold prompt.
    rewrite dotted_line_is_not_exit by (apply has_char_append; exact Dot).
    unfold match_all.
    change (file ++ " " ++ o1 ++ " " ++ o2 ++ " " ++ o3)
      with (file ++ String " " (o1 ++ String " " (o2 ++ String " " o3))).
    rewrite (proj1 (scan_word file _ Pf)), (proj1 (scan_word o1 _ P1)),
            (proj1 (scan_word o2 _ P2)), (proj2 (scan_word o3 "" P3)).
    cbn [map nth_error]. unfold compress.
    rewrite (tile_name_is_a_string file Pf E), E.
    rewrite (truthy_plain o1 P1), (truthy_plain o2 P2), (truthy_plain o3 P3).
    destruct (o1 =? "false")%string, (o2 =? "false")%string,
             (o3 =? "false")%string; reflexivity.
  - unfold prompt.
    rewrite (dotted_line_is_not_exit file Dot).
    unfold match_all. rewrite (proj2 (scan_word file "" Pf)).
    cbn [map nth_error]. unfold compress.
    rewrite (tile_name_is_a_string file Pf E), E. reflexivity.
Qed.

Lemma any_word_but_false_enables_witness :
  prompt "tiles/0.b3dm 0 no false"
  = ran (Ok (container "tiles/0.b3dm" [dedup; flatten; join; toktx; draco])).
Proof.
  refine (proj1 (any_word_but_false_enables "tiles/0.b3dm" "0" "no" "false"
                   _ _ _ _ _)); reflexivity.
Defined.

(** Quoted arguments: the quotes are taken off, a path may hold
    spaces, and the quoted word [false] is a string like any other and
    switches its option on. *)
Example quoted_false_enables :
  prompt (String quote "my tiles/0.b3dm" ++ String quote " "
          ++ String quote "false" ++ String quote "")
  = ran (Ok (container "my tiles/0.b3dm" [dedup; flatten; join; draco])).
Proof.
  vm_compute. reflexivity.
Qed.

End PromptFacts.
